(** * RouterBuilder (lib/RouterBuilder.js): a shallow embedding

    The development follows the source file top-down: JavaScript values and
    own-property tables, the error responder [handleError], the middleware
    adapters, and then the builder itself ([addParameter],
    [defineVerbHandler], [defineResource], [addSpecification],
    [addRouters]).  Strings are sequences of code units, numbers are
    integers, and a JavaScript object is the list of its own properties in
    insertion order (the key [__proto__], which an assignment does not make
    an own property, is outside the model).  The members every object
    inherits are read where the source looks up a name of the caller's
    choosing in the actions of a controller (line 313).  The router is
    express's: it is known by the calls it receives and by the arguments
    it rejects. *)

From Stdlib Require Import String Ascii List ZArith Bool Lia Arith DecimalString.
Import ListNotations.
Open Scope string_scope.
Open Scope list_scope.

Set Implicit Arguments.

(* ------------------------------------------------------------------ *)
(** ** JavaScript values *)

Module JS.

(** Modelled from the spec: the module [./errors/] required on line 9 is
    not part of the sources.  The spec distinguishes "a typed domain error
    exposing an HTTP status code" from "a typed domain error without an
    inherent status"; [accept] dispatches on that distinction. *)
Inductive blueprint_kind :=
| HttpError (statusCode : Z)
| BlueprintError.

#[warnings="-register-all"]
Inductive value :=
| VUndefined
| VNull
| VBool (b : bool)
| VNumber (n : Z)
| VString (s : string)
| VSymbol (description : string)
| VFunction (name : string)
| VArray (items : list value)
| VObject (props : list (string * value))
| VError (message : string)
| VBlueprintError (kind : blueprint_kind) (code message details : value).

(** [typeof v] *)
Definition typeof (v : value) : string :=
  match v with
  | VUndefined => "undefined"
  | VNull => "object"
  | VBool _ => "boolean"
  | VNumber _ => "number"
  | VString _ => "string"
  | VSymbol _ => "symbol"
  | VFunction _ => "function"
  | VArray _ | VObject _ | VError _ | VBlueprintError _ _ _ _ => "object"
  end.

(** ToBoolean, as used by [if (v)], [!v], [a && b] and [a || b]. *)
Definition truthy (v : value) : bool :=
  match v with
  | VUndefined | VNull => false
  | VBool b => b
  | VNumber n => negb (n =? 0)%Z
  | VString s => negb (s =? "")
  | _ => true
  end.

(** Own-property tables: first binding of a key wins on lookup, an
    assignment overwrites in place or appends. *)
Fixpoint lookup {A} (props : list (string * A)) (k : string) : option A :=
  match props with
  | [] => None
  | (k', v) :: rest => if k' =? k then Some v else lookup rest k
  end.

Fixpoint assign {A} (props : list (string * A)) (k : string) (v : A)
  : list (string * A) :=
  match props with
  | [] => [(k, v)]
  | (k', v') :: rest =>
      if k' =? k then (k, v) :: rest else (k', v') :: assign rest k v
  end.

(** [v[k]] for a receiver that is neither [undefined] nor [null]. *)
Definition get (v : value) (k : string) : value :=
  match v with
  | VObject props =>
      match lookup props k with Some x => x | None => VUndefined end
  | VError m => if k =? "message" then VString m else VUndefined
  | VBlueprintError kind c m d =>
      if k =? "code" then c
      else if k =? "message" then m
      else if k =? "details" then d
      else if k =? "statusCode" then
        match kind with HttpError sc => VNumber sc | BlueprintError => VUndefined end
      else VUndefined
  | VArray items =>
      if k =? "length" then VNumber (Z.of_nat (length items)) else VUndefined
  | _ => VUndefined
  end.

(** [v instanceof errors.Error] and [v instanceof Error]. *)
Definition instanceof_BlueprintError (v : value) : bool :=
  match v with VBlueprintError _ _ _ _ => true | _ => false end.

Definition instanceof_Error (v : value) : bool :=
  match v with VError _ | VBlueprintError _ _ _ _ => true | _ => false end.

(** Underscore's predicates. *)
Definition isFunction (v : value) : bool :=
  match v with VFunction _ => true | _ => false end.

Definition isArray (v : value) : bool :=
  match v with VArray _ => true | _ => false end.

Definition isObject (v : value) : bool :=
  (typeof v =? "function") || ((typeof v =? "object") && truthy v).

(** A completed statement either returns or throws. *)
Inductive outcome (A : Type) :=
| Return (a : A)
| Throw (ex : value).
Arguments Return {A} a.
Arguments Throw {A} ex.

(** [new f (args)]: only functions can be constructed.  What a function
    does when constructed is up to its author. *)
Definition construct (construct_function : string -> list value -> outcome value)
           (what : string) (f : value) (args : list value) : outcome value :=
  match f with
  | VFunction name => construct_function name args
  | _ => Throw (VError (what ++ " is not a constructor"))
  end.

(** String helpers: [s.slice (n)], [s.startsWith (p)], [s.endsWith (p)],
    [s.toLowerCase ()] on the ASCII letters. *)
Fixpoint slice (n : nat) (s : string) : string :=
  match n, s with
  | O, _ => s
  | S _, EmptyString => EmptyString
  | S n', String _ rest => slice n' rest
  end.

Definition startsWith (s p : string) : bool := String.prefix p s.

Fixpoint endsWithChar (s : string) (c : ascii) : bool :=
  match s with
  | EmptyString => false
  | String a EmptyString => Ascii.eqb a c
  | String _ rest => endsWithChar rest c
  end.

Definition lower_ascii (c : ascii) : ascii :=
  let n := nat_of_ascii c in
  if (65 <=? n)%nat && (n <=? 90)%nat then ascii_of_nat (n + 32) else c.

Fixpoint toLowerCase (s : string) : string :=
  match s with
  | EmptyString => EmptyString
  | String c rest => String (lower_ascii c) (toLowerCase rest)
  end.

End JS.
Import JS.

(* ------------------------------------------------------------------ *)
(** ** The response sink *)

(** The calls made on [res], oldest first. *)
Inductive res_call :=
| ResStatus (code : Z)
| ResType (mime : string)
| ResSend (body : value)
| ResRender (view : string).

Definition response := list res_call.

(** Last status set and last body sent, if any. *)
Fixpoint status_of (res : response) : option Z :=
  match res with
  | [] => None
  | c :: rest =>
      match status_of rest with
      | Some s => Some s
      | None => match c with ResStatus s => Some s | _ => None end
      end
  end.

Fixpoint body_of (res : response) : option value :=
  match res with
  | [] => None
  | c :: rest =>
      match body_of rest with
      | Some b => Some b
      | None => match c with ResSend b => Some b | _ => None end
      end
  end.

Fixpoint type_of (res : response) : option string :=
  match res with
  | [] => None
  | c :: rest =>
      match type_of rest with
      | Some b => Some b
      | None => match c with ResType b => Some b | _ => None end
      end
  end.

(* ------------------------------------------------------------------ *)
(** ** handleError (lines 40-90) *)

(** Modelled from the spec: [err.accept (visitor)] of the absent errors
    module calls [visitHttpError] on an error with a status code and
    [visitBlueprintError] on one without. *)
Definition accept (kind : blueprint_kind) (res : response) : response :=
  match kind with
  | HttpError statusCode => res ++ [ResStatus statusCode]
  | BlueprintError => res ++ [ResStatus 500%Z]
  end.

Definition kind_of (err : value) : blueprint_kind :=
  match err with
  | VBlueprintError k _ _ _ => k
  | _ => BlueprintError
  end.

Definition handleError (err : value) (res : response) : response :=
  let errType := typeof err in
  if errType =? "string" then
    res ++ [ResStatus 400%Z; ResType "text/plain"; ResSend err]
  else if errType =? "object" then
    let res := res ++ [ResType "application/json"] in
    if instanceof_BlueprintError err then
      let res := accept (kind_of err) res in
      let errors := [("code", get err "code"); ("message", get err "message")] in
      let errors :=
        if truthy (get err "details")
        then assign errors "details" (get err "details")
        else errors in
      res ++ [ResSend (VObject [("errors", VObject errors)])]
    else if instanceof_Error err then
      res ++ [ResStatus 500%Z;
              ResSend (VObject [("errors", VObject [("message", get err "message")])])]
    else
      res ++ [ResStatus 500%Z;
              ResSend (VObject [("errors", VObject [("details", err)])])]
  else res.

(* ------------------------------------------------------------------ *)
(** ** Middleware adapters (lines 92-156) *)

(** What a middleware unit did with one request: the calls it made on
    [res] and whether it called [next]. *)
Record served := { sent : response; continued : bool }.

(** The request as [validateBySchema] sees it: [req.check (schema)] may
    throw, and [req.validationErrors ()] yields a falsy value when the
    request passed and the list of failures otherwise. *)
Record request := {
  check : value -> outcome unit;
  validationErrors : value
}.

Section Adapters.

Variable construct_function : string -> list value -> outcome value.

(** Lines 93-107.  The [var errors] of line 98 is hoisted to the scope of
    the whole function, so the [errors] of line 101 is the validation
    result and not the module required on line 9. *)
Definition __blueprint_validate_schema (schema : value)
           (req : request) (res : response) : served :=
  let body : outcome served :=
    match check req schema with
    | Throw ex => Throw ex
    | Return _ =>
        let errors := validationErrors req in
        if negb (truthy errors) then Return {| sent := res; continued := true |}
        else
          match construct construct_function "errors.HttpError"
                          (get errors "HttpError")
                          [VNumber 400; VString "validation_failed";
                           VString "Request validation failed"; errors] with
          | Throw ex => Throw ex
          | Return err => Return {| sent := handleError err res; continued := false |}
          end
    end in
  match body with
  | Return r => r
  | Throw ex => {| sent := handleError ex res; continued := false |}
  end.

End Adapters.

(** The error line 101 is written to build: an [HttpError] with status 400,
    code [validation_failed] and the failures as details. *)
Definition validation_failed (details : value) : value :=
  VBlueprintError (HttpError 400) (VString "validation_failed")
                  (VString "Request validation failed") details.

(* ------------------------------------------------------------------ *)
(** ** The builder: state, registry and router primitive *)

(** A middleware unit of a pipeline: a value handed over as it is (a hook,
    or the function or array an action returned) or one of the closures
    made by the adapters of lines 92-156. *)
Inductive middleware :=
| Given (v : value)
| ValidateByFunction (validator : value)
| ValidateBySchema (schema : value)
| Sanitizer (sanitize : value)
| Executor (execute : value)
| Render (view : value).

(** The router primitive is known by the calls it receives, oldest first:
    [router.<verb> (path, middleware)], [router.use (path, handlers)],
    [router.param (name, handler)] and [router.use (handlers)], which gives
    no path. *)
Inductive router_call :=
| Route (verb path : string) (pipeline : list middleware)
| Use (path : string) (handlers : value)
| Param (name : string) (handler : value)
| Mounted (handlers : value).

(** [this._router], [this._params], and the arrays the specification
    passes as [before]: these are pushed onto in place, so they live in a
    store and a verb node holds the address of its array. *)
Record builder := {
  _router : list router_call;
  _params : list string;
  arrays : nat -> list middleware
}.

Definition M (A : Type) : Type := builder -> outcome A * builder.

Definition ret {A} (a : A) : M A := fun b => (Return a, b).
Definition throw {A} (ex : value) : M A := fun b => (Throw ex, b).
Definition bind {A B} (m : M A) (k : A -> M B) : M B :=
  fun b => match m b with
           | (Return a, b') => k a b'
           | (Throw ex, b') => (Throw ex, b')
           end.
Definition lift {A} (o : outcome A) : M A := fun b => (o, b).

Declare Scope builder_scope.
Delimit Scope builder_scope with builder.
Notation "x <- m ;; k" := (bind m (fun x => k))
  (at level 61, m at next level, right associativity) : builder_scope.
Notation "m ;; k" := (bind m (fun _ => k))
  (at level 61, right associativity) : builder_scope.
Open Scope builder_scope.

Definition Error (message : string) : value := VError message.

(** *** What the router primitive rejects

    The router (line 198) is express's: it throws when it is handed
    something to call that is not a function.  [router.<verb>] and
    [router.use] flatten their arguments first; [router.param] takes its
    handler as it is.  The messages are worded as express 4.13 words them
    (later releases word some of them differently); what is used of a
    rejection below is that the call throws, and after what. *)

(** The class name of [Object.prototype.toString.call (v)]. *)
Definition class_of (v : value) : string :=
  match v with
  | VUndefined => "Undefined"
  | VNull => "Null"
  | VBool _ => "Boolean"
  | VNumber _ => "Number"
  | VString _ => "String"
  | VSymbol _ => "Symbol"
  | VFunction _ => "Function"
  | VArray _ => "Array"
  | VObject _ => "Object"
  | VError _ | VBlueprintError _ _ _ _ => "Error"
  end.

(** express's [gettype]: [typeof], and the class name for an object. *)
Definition gettype (v : value) : string :=
  if typeof v =? "object" then class_of v else typeof v.

(** [flatten]: nested arrays are laid out depth-first. *)
Fixpoint flatten (v : value) : list value :=
  match v with
  | VArray items => flat_map flatten items
  | _ => [v]
  end.

(** The first element of the first element ... of an array, as
    [router.use] looks for it to tell a path from a handler. *)
Fixpoint first_leaf (v : value) : value :=
  match v with
  | VArray (x :: _) => first_leaf x
  | _ => v
  end.

Fixpoint join (sep : string) (parts : list string) : string :=
  match parts with
  | [] => ""
  | [x] => x
  | x :: rest => x ++ sep ++ join sep rest
  end.

(** [String (v)] for a value that is no symbol.  An error prints under the
    name [Error]; of a function the model keeps the name, not the text. *)
Fixpoint to_string (v : value) : string :=
  match v with
  | VUndefined => "undefined"
  | VNull => "null"
  | VBool true => "true"
  | VBool false => "false"
  | VNumber n => NilZero.string_of_int (Z.to_int n)
  | VString s => s
  | VSymbol description => "Symbol(" ++ description ++ ")"
  | VFunction name => "function " ++ name ++ "() { ... }"
  | VArray items =>
      join "," (map (fun x => match x with
                              | VUndefined | VNull => ""
                              | _ => to_string x
                              end) items)
  | VObject _ => "[object Object]"
  | VError message => if message =? "" then "Error" else "Error: " ++ message
  | VBlueprintError _ _ message _ =>
      match message with
      | VUndefined => "Error"
      | _ => "Error: " ++ to_string message
      end
  end.

(** The handle of a pipeline a route cannot call, if there is one.  The
    closures of the adapters are functions. *)
Fixpoint rejected_handle (pipeline : list middleware) : option value :=
  match pipeline with
  | [] => None
  | unit :: rest =>
      match (match unit with
             | Given v => find (fun handle => negb (isFunction handle)) (flatten v)
             | _ => None
             end) with
      | Some handle => Some handle
      | None => rejected_handle rest
      end
  end.

Definition rejected_callback (callbacks : list value) : option value :=
  match callbacks with
  | [] => Some (Error "Router.use() requires middleware functions")
  | _ =>
      match find (fun fn => negb (isFunction fn)) callbacks with
      | Some fn =>
          Some (Error ("Router.use() requires middleware function but got a "
                       ++ gettype fn))
      | None => None
      end
  end.

(** What express throws out of a call, if it throws. *)
Definition rejection (c : router_call) : option value :=
  match c with
  | Route verb _ pipeline =>
      match rejected_handle pipeline with
      | Some handle =>
          Some (Error ("Route." ++ verb ++ "() requires callback functions but got a [object "
                       ++ class_of handle ++ "]"))
      | None => None
      end
  | Use _ handlers => rejected_callback (flatten handlers)
  | Mounted handlers =>
      (* without a path the first argument is itself taken for one when its
         first leaf is no function, and no callback is left *)
      if isFunction (first_leaf handlers)
      then rejected_callback (flatten handlers)
      else rejected_callback []
  | Param name handler =>
      (* a colon the name begins with is dropped *)
      let name := match name with String ":" rest => rest | _ => name end in
      if isFunction handler then None
      else
        match handler with
        | VSymbol _ => Some (Error "Cannot convert a Symbol value to a string")
        | _ => Some (Error ("invalid param() call for " ++ name ++ ", got "
                            ++ to_string handler))
        end
  end.

Definition reply (c : router_call) : outcome unit :=
  match rejection c with
  | Some ex => Throw ex
  | None => Return tt
  end.

(** A call on the router primitive: the router has received it, and it
    returns or throws. *)
Definition router_call_ (c : router_call) : M unit :=
  fun b => (reply c, {| _router := _router b ++ [c];
                        _params := _params b;
                        arrays := arrays b |}).

Definition remember_param (param : string) : M unit :=
  fun b => (Return tt, {| _router := _router b;
                          _params := _params b ++ [param];
                          arrays := arrays b |}).

Definition store_array (a : nat) (items : list middleware) : M unit :=
  fun b => (Return tt, {| _router := _router b;
                          _params := _params b;
                          arrays := fun a' => if Nat.eqb a' a then items else arrays b a' |}).

Definition read_array (a : nat) : M (list middleware) :=
  fun b => (Return (arrays b a), b).

Definition cached (param : string) : M bool :=
  fun b => (Return (existsb (String.eqb param) (_params b)), b).

(** A controller: its [actions] table and [resourceId] when it has them,
    and its methods, which are called while wiring. *)
Record action_def := {
  verb : string;
  path : option string;
  method : string
}.

Inductive action_entry :=
| Several (items : list action_def)
| Single (a : action_def)
| NotAnObject.

Record controller := {
  actions : option (list (string * action_entry));
  resourceId : option string;
  methods : list (string * (value -> outcome value))
}.

Inductive member :=
| Method (f : value -> outcome value)
| NotCallable
| Missing.

Definition nonempty (s : option string) : bool :=
  match s with Some s => negb (s =? "") | None => false end.

(** [controller[name]] *)
Definition member_of (c : controller) (name : string) : member :=
  let fix find (ms : list (string * (value -> outcome value))) :=
    match ms with
    | [] => None
    | (n, f) :: rest => if n =? name then Some f else find rest
    end in
  match find (methods c) with
  | Some f => Method f
  | None =>
      if (name =? "actions") && (match actions c with Some _ => true | None => false end)
      then NotCallable
      else if (name =? "resourceId") && nonempty (resourceId c) then NotCallable
      else Missing
  end.

(** [s.split ('@')] *)
Fixpoint split_at (s : string) : list string :=
  match s with
  | EmptyString => [""]
  | String c rest =>
      if Ascii.eqb c "@"%char then "" :: split_at rest
      else match split_at rest with
           | h :: t => String c h :: t
           | [] => [String c ""]
           end
  end.

Definition SINGLE_ACTION_CONTROLLER_METHOD := "__invoke".
Definition SINGLE_RESOURCE_BASE_PATH := "/:rcId".

(** The [MethodCall] of lines 167-174, already applied to its argument. *)
Definition invoke (m : member) (arg : value) : outcome value :=
  match m with
  | Method f => f arg
  | _ => Throw (VError "this._method.apply is not a function")
  end.

Section Builder.

(** [objectPath.get (this._controllers, name)] *)
Variable controllers : string -> option controller.

(** The names under which the router primitive has a registration
    method, that is, its verbs. *)
Variable router_verb : string -> bool.

(** Lines 208-232. *)
Definition resolveController (action : value) : outcome member :=
  match action with
  | VString action =>
      let parts := split_at action in
      if (length parts <? 1)%nat || (2 <? length parts)%nat then
        Throw (Error ("invalid action format [" ++ action ++ "]"))
      else
        let controllerName := hd "" parts in
        let actionName :=
          if (length parts =? 2)%nat then nth 1 parts ""
          else SINGLE_ACTION_CONTROLLER_METHOD in
        match controllers controllerName with
        | None => Throw (Error ("controller " ++ controllerName ++ " not found"))
        | Some controller =>
            match member_of controller actionName with
            | Missing =>
                Throw (Error ("controller " ++ controllerName
                              ++ " does not define method " ++ actionName))
            | m => Return m
            end
        end
  | _ => Throw (VError "action.split is not a function")
  end.

(** Lines 514-548. *)
Definition addParameter (param : string) (opts : value) (override : bool) : M unit :=
  known <- cached param ;;
  if known && negb override then ret tt
  else
    let rawParam := slice 1 param in
    handler <-
      (if isFunction opts then ret opts
       else if isObject opts then
         if truthy (get opts "action") then
           controller <- lift (resolveController (get opts "action")) ;;
           lift (invoke controller VUndefined)
         else throw (Error ("Invalid parameter specification (" ++ param ++ ")"))
       else throw (Error ("opts must be a Function or Object [param=" ++ param ++ "]"))) ;;
    (match handler with
     | VUndefined | VNull => ret tt
     | _ => router_call_ (Param rawParam handler)
     end) ;;
    known <- cached param ;;
    if negb known then remember_param param else ret tt.

(** *** Verb handlers (lines 368-447) *)

(** The local variable [middleware]: the caller's [before] array itself,
    or an array of this call's own. *)
Inductive array_ref :=
| Shared (a : nat)
| Own (items : list middleware).

Definition contents (r : array_ref) : M (list middleware) :=
  match r with
  | Shared a => read_array a
  | Own items => ret items
  end.

(** [middleware.push (u)] *)
Definition push (r : array_ref) (u : middleware) : M array_ref :=
  match r with
  | Shared a =>
      items <- read_array a ;;
      store_array a (items ++ [u]) ;;
      ret (Shared a)
  | Own items => ret (Own (items ++ [u]))
  end.

(** The [after] property of a node: an array of the store, which may be
    the very array given as [before], or any other value. *)
Inductive hooks :=
| HookArray (a : nat)
| HookValue (v : value).

Definition truthy_hooks (h : hooks) : bool :=
  match h with
  | HookArray _ => true
  | HookValue v => truthy v
  end.

(** The elements [concat] appends for its argument: those of an array, as
    they are when [concat] runs, or the value itself. *)
Definition spread_value (v : value) : list middleware :=
  match v with
  | VArray items => map Given items
  | _ => [Given v]
  end.

Definition spread (h : hooks) : M (list middleware) :=
  match h with
  | HookArray a => read_array a
  | HookValue v => ret (spread_value v)
  end.

Record verb_options := {
  action : value;
  view : value;
  before : option nat;
  after : hooks;
  options : value
}.

(** [util.inspect] *)
Variable inspect : value -> string.

Definition is_undefined (v : value) : bool :=
  match v with VUndefined => true | _ => false end.

Definition defineVerbHandler (verb path : string) (opts : verb_options) : M unit :=
  if negb (router_verb (toLowerCase verb)) then
    throw (Error (verb ++ " is not a valid http verb"))
  else if is_undefined (action opts) && is_undefined (view opts) then
    throw (Error (verb ++ " " ++ path ++ " must define an action or view property"))
  else
    let middleware :=
      match before opts with Some a => Shared a | None => Own [] end in
    middleware <-
      (if truthy (action opts) then
         controller <- lift (resolveController (action opts)) ;;
         let params := [("path", VString path)] in
         let params :=
           if truthy (options opts) then assign params "options" (options opts)
           else params in
         result <- lift (invoke controller (VObject params)) ;;
         if isFunction result || isArray result then
           push middleware (Given result)
         else if isObject result then
           if negb (truthy (get result "execute")) then
             throw (Error ("Controller method must define an 'execute' property ["
                           ++ verb ++ " " ++ path ++ "]"))
           else
             middleware <-
               (if truthy (get result "validate") then
                  let validate := get result "validate" in
                  if isFunction validate then
                    push middleware (ValidateByFunction validate)
                  else if isObject validate && negb (isArray validate) then
                    push middleware (ValidateBySchema validate)
                  else
                    throw (Error ("Unsupported validate value ["
                                  ++ inspect validate ++ "]"))
                else ret middleware) ;;
             middleware <-
               (if truthy (get result "sanitize") then
                  push middleware (Sanitizer (get result "sanitize"))
                else ret middleware) ;;
             push middleware (Executor (get result "execute"))
         else
           throw (Error "Return type of controller method must be a function or object")
       else if truthy (view opts) then
         push middleware (Render (view opts))
       else ret middleware) ;;
    middleware <-
      (if truthy_hooks (after opts) then
         items <- contents middleware ;;
         more <- spread (after opts) ;;
         ret (Own (items ++ more))
       else ret middleware) ;;
    items <- contents middleware ;;
    if (0 <? length items)%nat then
      router_call_ (Route (toLowerCase verb) path items)
    else ret tt.

(** *** Resources (lines 263-358) *)

Record resource_options := {
  controller_name : option string;
  allow : option (list string);
  deny : option (list string);
  resource_opts : value
}.

(** Lines 23-30. *)
Definition makeAction (controller method : string) (options : value) : value :=
  let action := [("action", VString (controller ++ "@" ++ method))] in
  VObject (if truthy options then assign action "options" options else action).

(** [l.indexOf (x)] *)
Fixpoint indexOf_from (l : list string) (x : string) (i : Z) : Z :=
  match l with
  | [] => (-1)%Z
  | y :: rest => if y =? x then i else indexOf_from rest x (i + 1)%Z
  end.

Definition indexOf (l : list string) (x : string) : Z := indexOf_from l x 0%Z.

Fixpoint remove_at (n : nat) (l : list string) : list string :=
  match l, n with
  | [], _ => []
  | _ :: rest, O => rest
  | y :: rest, S n' => y :: remove_at n' rest
  end.

(** What [l.splice (start, 1)] leaves in [l]: a negative [start] counts
    from the end of the array. *)
Definition splice (l : list string) (start : Z) : list string :=
  let len := Z.of_nat (length l) in
  let from := if (start <? 0)%Z then Z.max (len + start) 0 else Z.min start len in
  remove_at (Z.to_nat from) l.

(** Lines 296-305. *)
Definition allowed_actions (actions : list (string * action_entry))
           (opts : resource_options) : list string :=
  let allowed := map fst actions in
  let allowed := match allow opts with Some a => a | None => allowed end in
  match deny opts with
  | Some denied =>
      fold_left (fun allowed name => splice allowed (indexOf allowed name))
                denied allowed
  | None => allowed
  end.

(** [o[k] = v] for the object held in a property: every property of
    [spec] and [singleSpec] is an object made by [defineResource]. *)
Definition assign_in (o : value) (k : string) (v : value) : value :=
  match o with
  | VObject props => VObject (assign props k v)
  | _ => o
  end.

Definition specs : Type := list (string * value) * list (string * value).

(** Lines 324-350; the pair is ([spec], [singleSpec]). *)
Definition processAction (controllerName : string) (opts : resource_options)
           (action : action_def) (st : specs) : specs :=
  let '(spec, singleSpec) := st in
  let made := makeAction controllerName (method action) (resource_opts opts) in
  if nonempty (path action) then
    let action_path := match path action with Some p => p | None => "" end in
    if startsWith action_path SINGLE_RESOURCE_BASE_PATH then
      let part := slice (String.length SINGLE_RESOURCE_BASE_PATH) action_path in
      if (String.length part =? 0)%nat then
        (spec, assign singleSpec (verb action) made)
      else
        let singleSpec :=
          if negb (truthy (get (VObject singleSpec) part))
          then assign singleSpec part (VObject [])
          else singleSpec in
        (spec, assign singleSpec part
                      (assign_in (get (VObject singleSpec) part) (verb action) made))
    else
      let spec := assign spec action_path (VObject []) in
      (assign spec action_path
              (assign_in (get (VObject spec) action_path) (verb action) made),
       singleSpec)
  else
    (assign spec (verb action) made, singleSpec).

(** The members an object inherits from [Object.prototype]: [actions[name]]
    (line 313) finds one of them under a name that is no key of the
    actions.  Each is a function or an object, without a [path], a [verb]
    or a [method]: [processAction] reads [undefined] for the three, writes
    at the key [undefined] and makes the action of the method
    [undefined]. *)
Definition Object_prototype : list string :=
  ["constructor"; "__defineGetter__"; "__defineSetter__"; "hasOwnProperty";
   "__lookupGetter__"; "__lookupSetter__"; "isPrototypeOf"; "propertyIsEnumerable";
   "toString"; "valueOf"; "__proto__"; "toLocaleString"].

Definition inherited (name : string) : bool :=
  existsb (String.eqb name) Object_prototype.

Definition inherited_member : action_def :=
  {| verb := "undefined"; path := None; method := "undefined" |}.

(** Lines 312-351: the body of [allowed.forEach]. *)
Definition expand_action (controllerName : string) (opts : resource_options)
           (actions : list (string * action_entry)) (st : specs) (name : string)
  : specs :=
  match lookup actions name with
  | Some (Several items) =>
      fold_left (fun st item => processAction controllerName opts item st) items st
  | Some (Single action) => processAction controllerName opts action st
  | Some NotAnObject => st
  | None =>
      if inherited name then processAction controllerName opts inherited_member st
      else st
  end.

Definition expand (controllerName : string) (opts : resource_options)
           (actions : list (string * action_entry)) (allowed : list string) : specs :=
  fold_left (expand_action controllerName opts actions) allowed ([], []).

(** Lines 308-355: the specification handed back to [addSpecification]. *)
Definition resource_spec (controllerName resourceId : string)
           (opts : resource_options) (actions : list (string * action_entry))
  : value :=
  let singleBasePath := ("/:" ++ resourceId)%string in
  let '(spec, singleSpec) :=
    expand controllerName opts actions (allowed_actions actions opts) in
  VObject (assign spec singleBasePath (VObject singleSpec)).

(** The recursive call of line 357. *)
Variable addSpecification : value -> string -> M unit.

Definition present {A} (o : option A) : bool :=
  match o with Some _ => true | None => false end.

Definition defineResource (path : string) (opts : resource_options) : M unit :=
  if negb (nonempty (controller_name opts)) then
    throw (Error (path ++ " is missing controller property"))
  else
    let controllerName :=
      match controller_name opts with Some n => n | None => "" end in
    match controllers controllerName with
    | None => throw (Error (controllerName ++ " controller does not exist"))
    | Some controller =>
        match actions controller with
        | None => throw (Error (controllerName ++ " must define actions property"))
        | Some actions =>
            if negb (nonempty (resourceId controller)) then
              throw (Error (controllerName ++ " must define resourceId property"))
            else if present (allow opts) && present (deny opts) then
              throw (Error (path ++ " can only define allow or deny property, not both"))
            else
              let resourceId :=
                match resourceId controller with Some r => r | None => "" end in
              addSpecification (resource_spec controllerName resourceId opts actions)
                               path
        end
    end.

End Builder.

(** ** The traversal of a specification (lines 472-505)

    The calls [processVerb (verb, currPath, opts)] that [addSpecification]
    makes for an object, given as its own keys in enumeration order, when
    none of the calls throws: the [head] key first, then every other key in
    turn, descending into the keys that begin with a slash.  Keys that
    begin with a colon go to [addParameter] and [use] goes to
    [processUse]. *)
Definition starts_with_char (c : ascii) (s : string) : bool :=
  match s with
  | String a _ => Ascii.eqb a c
  | EmptyString => false
  end.

Definition inner_path (currPath key : string) : string :=
  (currPath ++ (if endsWithChar currPath "/" then slice 1 key else key))%string.

Fixpoint verb_calls (spec : value) (currPath : string) {struct spec}
  : list (string * string * value) :=
  match spec with
  | VObject props =>
      (if truthy (get spec "head") then [("head", currPath, get spec "head")] else [])
      ++ flat_map
           (fun kv =>
              let key := fst kv in
              if (key =? "head") || (key =? "use") then []
              else if starts_with_char "/" key then
                verb_calls (snd kv) (inner_path currPath key)
              else if starts_with_char ":" key then []
              else [(key, currPath, snd kv)])
           props
  | _ => []
  end.

(** ** Derived views used in the statements *)

(** A JSON error body. *)
Definition json (errors : list (string * value)) : value :=
  VObject [("errors", VObject errors)].

(** A request whose [email] parameter fails a schema. *)
Definition invalid_email : request := {|
  check := fun _ => Return tt;
  validationErrors :=
    VArray [VObject [("param", VString "email"); ("msg", VString "Invalid email");
                     ("value", VString "nobody")]]
|}.

(** The handlers the router primitive was given for a parameter name,
    oldest first.  The builder has no call that takes one back, and
    express keeps every callback registered for a name and runs them in
    this order. *)
Fixpoint param_handlers (name : string) (calls : list router_call) : list value :=
  match calls with
  | [] => []
  | Param n h :: rest =>
      if n =? name then h :: param_handlers name rest else param_handlers name rest
  | _ :: rest => param_handlers name rest
  end.

Definition is_cached (param : string) (b : builder) : bool :=
  existsb (String.eqb param) (_params b).

(** A builder as its constructor leaves it (lines 196-200). *)
Definition new_builder : builder :=
  {| _router := []; _params := []; arrays := fun _ => [] |}.

Definition no_controllers : string -> option controller := fun _ => None.

(** The reading of "override replaces the handler" on a fresh builder: after
    a registration of [h1] and an overriding one of [h2], the router
    primitive holds [h2] alone for the name. *)
Definition override_replaces : Prop :=
  forall param h1 h2,
    let b1 := snd (addParameter no_controllers param (VFunction h1) false new_builder) in
    let b2 := snd (addParameter no_controllers param (VFunction h2) true b1) in
    param_handlers (slice 1 param) (_router b2) = [VFunction h2].

(** A resource controller with two actions, and a registry holding it. *)
Definition person_controller : controller := {|
  actions := Some [("create", Single {| verb := "post"; path := None; method := "create" |});
                   ("get", Single {| verb := "get"; path := Some "/:rcId"; method := "get" |})];
  resourceId := Some "personId";
  methods := []
|}.

Definition person_registry (name : string) : option controller :=
  if name =? "Person" then Some person_controller else None.

(** ** What a verb node asks for

    The parts of a pipeline, named as the spec names them, for a node whose
    action (if it has one) resolved and returned [result]. *)
Section VerbNode.

Variable controllers : string -> option controller.

Definition invocation_params (path : string) (opts : verb_options) : value :=
  VObject (if truthy (options opts)
           then [("path", VString path); ("options", options opts)]
           else [("path", VString path)]).

(** The value the node's action returns while wiring; [None] for a node
    without a (truthy) action. *)
Definition action_result (path : string) (opts : verb_options)
  : outcome (option value) :=
  if truthy (action opts) then
    match resolveController controllers (action opts) with
    | Throw ex => Throw ex
    | Return m =>
        match invoke m (invocation_params path opts) with
        | Throw ex => Throw ex
        | Return result => Return (Some result)
        end
    end
  else Return None.

Definition is_middleware (result : value) : bool :=
  isFunction result || isArray result.

(** The return value is a function, an array, or a descriptor with
    [execute] and a usable [validate]. *)
Definition well_formed_result (r : option value) : bool :=
  match r with
  | None => true
  | Some result =>
      is_middleware result
      || (isObject result
          && truthy (get result "execute")
          && (negb (truthy (get result "validate"))
              || isFunction (get result "validate")
              || (isObject (get result "validate")
                  && negb (isArray (get result "validate")))))
  end.

Definition hooks_before (opts : verb_options) (b : builder) : list middleware :=
  match before opts with Some a => arrays b a | None => [] end.

Definition validation (r : option value) : list middleware :=
  match r with
  | Some result =>
      if is_middleware result then []
      else if truthy (get result "validate") then
        [if isFunction (get result "validate")
         then ValidateByFunction (get result "validate")
         else ValidateBySchema (get result "validate")]
      else []
  | None => []
  end.

Definition sanitization (r : option value) : list middleware :=
  match r with
  | Some result =>
      if is_middleware result then []
      else if truthy (get result "sanitize") then [Sanitizer (get result "sanitize")]
      else []
  | None => []
  end.

Definition execution (r : option value) (opts : verb_options) : list middleware :=
  match r with
  | Some result =>
      if is_middleware result then [Given result]
      else [Executor (get result "execute")]
  | None => if truthy (view opts) then [Render (view opts)] else []
  end.

Definition hooks_after (opts : verb_options) (b : builder) : list middleware :=
  match after opts with
  | HookArray a => arrays b a
  | HookValue v => if truthy v then spread_value v else []
  end.

(** The node gives one and the same array as [before] and as [after]. *)
Definition shares_array (opts : verb_options) : bool :=
  match before opts, after opts with
  | Some a, HookArray a' => Nat.eqb a' a
  | _, _ => false
  end.

End VerbNode.

(** A controller whose [post] method returns a descriptor, a registry
    holding it, the verbs of the router primitive, and a verb node with
    hooks on both sides whose [before] array lives at address 0. *)
Definition message_schema : value :=
  VObject [("text", VObject [("notEmpty", VBool true)])].

Definition message_controller : controller := {|
  actions := None;
  resourceId := None;
  methods :=
    [("post", fun _ => Return (VObject [("validate", message_schema);
                                        ("sanitize", VFunction "trim");
                                        ("execute", VFunction "save")]));
     ("getAll", fun _ => Return (VFunction "list"))]
|}.

Definition message_registry (name : string) : option controller :=
  if name =? "Message" then Some message_controller else None.

Definition http_verbs (name : string) : bool :=
  existsb (String.eqb name)
          ["get"; "post"; "put"; "delete"; "head"; "patch"; "options"; "all"].

Definition message_node : verb_options := {|
  action := VString "Message@post";
  view := VUndefined;
  before := Some 0%nat;
  after := HookValue (VArray [VFunction "audit"]);
  options := VUndefined
|}.

Definition message_builder : builder := {|
  _router := [];
  _params := [];
  arrays := fun a => if Nat.eqb a 0 then [Given (VFunction "auth")] else []
|}.

(** Two nodes of one path written with the same [before] array, and a
    node written with one array as [before] and as [after]; the array is
    at address 0 and holds the hook [auth], as in [message_builder]. *)
Definition get_node : verb_options := {|
  action := VString "Message@getAll";
  view := VUndefined;
  before := Some 0%nat;
  after := HookValue VUndefined;
  options := VUndefined
|}.

Definition post_node : verb_options := {|
  action := VString "Message@post";
  view := VUndefined;
  before := Some 0%nat;
  after := HookValue VUndefined;
  options := VUndefined
|}.

Definition same_hooks_node : verb_options := {|
  action := VString "Message@getAll";
  view := VUndefined;
  before := Some 0%nat;
  after := HookArray 0%nat;
  options := VUndefined
|}.

(** The pipeline a node asks for, from the arrays as the specification was
    written with them. *)
Definition pipeline_asked (controllers : string -> option controller)
           (path : string) (opts : verb_options) (written : builder)
  : list middleware :=
  match action_result controllers path opts with
  | Return r =>
      hooks_before opts written
      ++ validation r ++ sanitization r ++ execution r opts
      ++ hooks_after opts written
  | Throw _ => []
  end.

(** A node whose action is the empty string: defined, but not truthy. *)
Definition silent_node : verb_options := {|
  action := VString "";
  view := VUndefined;
  before := None;
  after := HookValue VUndefined;
  options := VUndefined
|}.

(** ** Resource expansion: views and examples *)

(** The actions of a resource controller in the usual style. *)
Definition crud_actions : list (string * action_entry) :=
  [("create", Single {| verb := "post"; path := None; method := "create" |});
   ("getAll", Single {| verb := "get"; path := None; method := "getAll" |});
   ("get", Single {| verb := "get"; path := Some "/:rcId"; method := "get" |});
   ("update", Single {| verb := "put"; path := Some "/:rcId"; method := "update" |});
   ("delete", Single {| verb := "delete"; path := Some "/:rcId"; method := "delete" |})].

Definition deny_only (denied : list string) : resource_options :=
  {| controller_name := Some "Person"; allow := None; deny := Some denied;
     resource_opts := VUndefined |}.

Definition no_lists : resource_options :=
  {| controller_name := Some "Person"; allow := None; deny := None;
     resource_opts := VUndefined |}.

(** Every property is an object literal. *)
Definition is_object_literal (v : value) : bool :=
  match v with VObject _ => true | _ => false end.

Definition all_objects (props : list (string * value)) : bool :=
  forallb (fun kv => is_object_literal (snd kv)) props.

(** The reading of the prefix rule in which the prefix is made from the
    controller's [resourceId], for a definition processed first. *)
Definition prefix_from_resource_id : Prop :=
  forall controllerName resourceId opts action p,
    path action = Some p ->
    p <> "" ->
    let made := makeAction controllerName (method action) (resource_opts opts) in
    let prefix := ("/:" ++ resourceId)%string in
    let st := processAction controllerName opts action ([], []) in
    if startsWith p prefix then
      let part := slice (String.length prefix) p in
      if part =? "" then lookup (snd st) (verb action) = Some made
      else get (get (VObject (snd st)) part) (verb action) = made
    else get (get (VObject (fst st)) p) (verb action) = made.

(** The definitions [allowed.forEach] hands to [processAction] for a
    name, and the (name, definition) pairs of a resource node. *)
Definition definitions_of (actions : list (string * action_entry)) (name : string)
  : list action_def :=
  match lookup actions name with
  | Some (Several items) => items
  | Some (Single action) => [action]
  | Some NotAnObject => []
  | None => if inherited name then [inherited_member] else []
  end.

Definition pairs (actions : list (string * action_entry)) (allowed : list string)
  : list (string * action_def) :=
  flat_map (fun name => map (pair name) (definitions_of actions name)) allowed.

(** Where [processAction] writes a definition: a verb of the collective
    spec, a literal path of the collective spec (the object there is made
    anew whatever the verb), a verb of the single-resource spec, or a verb
    under a sub-path of the single-resource spec. *)
Inductive slot :=
| AtRoot (verb : string)
| AtLiteral (path : string)
| AtSingle (verb : string)
| AtSinglePart (part verb : string).

Definition target (a : action_def) : slot :=
  if nonempty (path a) then
    let action_path := match path a with Some p => p | None => "" end in
    if startsWith action_path SINGLE_RESOURCE_BASE_PATH then
      let part := slice (String.length SINGLE_RESOURCE_BASE_PATH) action_path in
      if (String.length part =? 0)%nat then AtSingle (verb a)
      else AtSinglePart part (verb a)
    else AtLiteral action_path
  else AtRoot (verb a).

Definition is_single (a : action_def) : bool :=
  match target a with
  | AtSingle _ | AtSinglePart _ _ => true
  | _ => false
  end.

(** A key the traversal hands to [processVerb]. *)
Definition is_verb_key (k : string) : bool :=
  negb (k =? "use") && negb (starts_with_char "/" k) && negb (starts_with_char ":" k).

(** A definition the traversal can route: its verb is a verb key that an
    assignment makes an own property, a literal path or sub-path begins
    with a slash, and a literal path is not the key under which the
    single-resource spec is nested. *)
Definition routable (resourceId : string) (a : action_def) : bool :=
  is_verb_key (verb a)
  && negb (verb a =? "__proto__")
  && match target a with
     | AtLiteral p => starts_with_char "/" p && negb (p =? "/:" ++ resourceId)
     | AtSinglePart part _ => starts_with_char "/" part
     | _ => true
     end.

(** The two parts of the traversal of an object. *)
Definition head_calls (props : list (string * value)) (currPath : string)
  : list (string * string * value) :=
  if truthy (get (VObject props) "head")
  then [("head", currPath, get (VObject props) "head")] else [].

Definition key_calls (currPath : string) (kv : string * value)
  : list (string * string * value) :=
  let key := fst kv in
  if (key =? "head") || (key =? "use") then []
  else if starts_with_char "/" key then verb_calls (snd kv) (inner_path currPath key)
  else if starts_with_char ":" key then []
  else [(key, currPath, snd kv)].

(** Two actions on the collection under the same verb. *)
Definition two_posts : list (string * action_entry) :=
  [("create", Single {| verb := "post"; path := None; method := "create" |});
   ("upsert", Single {| verb := "post"; path := None; method := "upsert" |})].

(** What makes a slot routable. *)
Definition slot_ok (resourceId : string) (s : slot) : bool :=
  match s with
  | AtRoot v | AtSingle v => is_verb_key v
  | AtLiteral p => starts_with_char "/" p && negb (p =? "/:" ++ resourceId)
  | AtSinglePart part v => starts_with_char "/" part && is_verb_key v
  end.

(** The state of the two specs after the definitions [seen], each written
    to a slot of its own: every key comes from one of them, and the
    traversal makes one call per definition. *)
Definition counted (seen : list action_def) (st : specs) : Prop :=
  (forall k, lookup (fst st) k <> None ->
             In (AtRoot k) (map target seen) \/ In (AtLiteral k) (map target seen))
  /\ (forall k, lookup (snd st) k <> None ->
                In (AtSingle k) (map target seen)
                \/ exists v, In (AtSinglePart k v) (map target seen))
  /\ (forall part o v,
         lookup (snd st) part = Some (VObject o) ->
         starts_with_char "/" part = true ->
         lookup o v <> None ->
         In (AtSinglePart part v) (map target seen))
  /\ all_objects (snd st) = true
  /\ (forall p, length (verb_calls (VObject (fst st)) p)
                = length (filter (fun a => negb (is_single a)) seen))
  /\ (forall p, length (verb_calls (VObject (snd st)) p)
                = length (filter is_single seen)).

(** No two slots of a list are the same. *)
Definition slot_eqb (s t : slot) : bool :=
  match s, t with
  | AtRoot v, AtRoot w => v =? w
  | AtLiteral p, AtLiteral q => p =? q
  | AtSingle v, AtSingle w => v =? w
  | AtSinglePart p v, AtSinglePart q w => (p =? q) && (v =? w)
  | _, _ => false
  end.

Fixpoint distinct (l : list slot) : bool :=
  match l with
  | [] => true
  | s :: rest => negb (existsb (slot_eqb s) rest) && distinct rest
  end.

(** The list without the first occurrence of a name. *)
Fixpoint remove_first (x : string) (l : list string) : list string :=
  match l with
  | [] => []
  | y :: rest => if y =? x then rest else y :: remove_first x rest
  end.

(** The handler [addParameter] settles on for its options (lines
    525-540). *)
Definition parameter_handler (controllers : string -> option controller)
           (param : string) (opts : value) : outcome value :=
  if isFunction opts then Return opts
  else if isObject opts then
    if truthy (get opts "action") then
      match resolveController controllers (get opts "action") with
      | Throw ex => Throw ex
      | Return controller => invoke controller VUndefined
      end
    else Throw (Error ("Invalid parameter specification (" ++ param ++ ")"))
  else Throw (Error ("opts must be a Function or Object [param=" ++ param ++ "]")).

Definition is_nullish (v : value) : bool :=
  match v with VUndefined | VNull => true | _ => false end.

(* ------------------------------------------------------------------ *)
(** ** The other adapters (lines 110-156)

    [validateByFunction], [sanitizer] and [executor] wrap a function of the
    application.  What such a function does with one request is the
    sequence of things it does to its arguments: it calls the callback it
    was given, with an error or without, it throws, and, for an execution
    function, it writes to [res] itself.  A callback made after the
    function has returned is an event like the others. *)
Inductive event :=
| Called (err : value)
| Thrown (ex : value)
| Wrote (c : res_call).

(** The callback of lines 113-116, 127-130 and 141-144, the [catch] of
    lines 118-120, 132-134 and 146-148, and a write of the function's own. *)
Definition react (so_far : served) (e : event) : served :=
  match e with
  | Called err =>
      if negb (truthy err)
      then {| sent := sent so_far; continued := true |}
      else {| sent := handleError err (sent so_far); continued := continued so_far |}
  | Thrown ex => {| sent := handleError ex (sent so_far); continued := continued so_far |}
  | Wrote c => {| sent := sent so_far ++ [c]; continued := continued so_far |}
  end.

Definition __blueprint_validate_function (validator : list event) (res : response)
  : served :=
  fold_left react validator {| sent := res; continued := false |}.

Definition __blueprint_execute (execute : list event) (res : response) : served :=
  fold_left react execute {| sent := res; continued := false |}.

Definition __blueprint_sanitize (sanitize : list event) (res : response) : served :=
  fold_left react sanitize {| sent := res; continued := false |}.

(** Lines 152-156. *)
Definition __blueprint_render (view : string) (res : response) : response :=
  res ++ [ResRender view].

(* ------------------------------------------------------------------ *)
(** ** The [endsWith] of lines 181-185

    [s.indexOf (search, position)]: the position is clamped to the string,
    and the first occurrence at or after it is returned, or -1. *)
Fixpoint index_at (search s : string) (k : nat) : Z :=
  if String.prefix search s then Z.of_nat k
  else match s with
       | EmptyString => (-1)%Z
       | String _ rest => index_at search rest (S k)
       end.

Definition string_indexOf (s search : string) (position : Z) : Z :=
  let len := Z.of_nat (String.length s) in
  let start := Z.to_nat (Z.min (Z.max position 0) len) in
  index_at search (slice start s) start.

Definition endsWith (s suffix : string) : bool :=
  negb (string_indexOf s suffix
                       (Z.of_nat (String.length s) - Z.of_nat (String.length suffix))
        =? -1)%Z.

(* ------------------------------------------------------------------ *)
(** ** addSpecification (lines 243-512)

    A specification is a function or an array, an object, or something
    else.  A property of an object is read in one of four ways, by the
    shape of its key: as a plain value ([use], a parameter, and the test
    [if (spec.head)]), as a specification (a key that begins with a
    slash), as the options of a verb, or as the options of a resource. *)
#[warnings="-register-all"]
Inductive spec :=
| Mount (handlers : value)
| Keys (props : list (string * property))
| Neither (v : value)
with property :=
| Property (as_value : value) (as_spec : spec)
           (as_verb : verb_options) (as_resource : resource_options).

Definition as_value_of (p : property) : value :=
  match p with Property v _ _ _ => v end.

Definition as_verb_of (p : property) : verb_options :=
  match p with Property _ _ o _ => o end.

Definition as_resource_of (p : property) : resource_options :=
  match p with Property _ _ _ o => o end.

Section Specification.

Variable controllers : string -> option controller.
Variable router_verb : string -> bool.
Variable inspect : value -> string.

(** [this._basePath], which the constructor never leaves empty (line
    198). *)
Variable _basePath : string.

(** The call of line 357, on the specification [defineResource] has
    made. *)
Variable resume : value -> string -> M unit.

(** Lines 253-257. *)
Definition processVerb (verb currPath : string) (opts : property) : M unit :=
  if verb =? "resource" then
    defineResource controllers resume currPath (as_resource_of opts)
  else
    defineVerbHandler controllers router_verb inspect verb currPath (as_verb_of opts).

(** Lines 458-461. *)
Definition processUse (path : string) (handlers : value) : M unit :=
  router_call_ (Use path handlers).

(** The body of the loop of lines 480-505 for one key. *)
Definition process_key (addSpecification : spec -> string -> M unit)
           (currPath key : string) (p : property) : M unit :=
  if key =? "head" then ret tt
  else if key =? "use" then processUse currPath (as_value_of p)
  else if starts_with_char "/" key then
    match p with
    | Property _ inner _ _ => addSpecification inner (inner_path currPath key)
    end
  else if starts_with_char ":" key then
    addParameter controllers key (as_value_of p) false
  else processVerb key currPath p.

Fixpoint addSpecification (spec : spec) (currPath : string) {struct spec} : M unit :=
  let currPath := if currPath =? "" then _basePath else currPath in
  match spec with
  | Mount handlers => router_call_ (Use currPath handlers)
  | Keys props =>
      (match lookup props "head" with
       | Some head => if truthy (as_value_of head)
                      then processVerb "head" currPath head else ret tt
       | None => ret tt
       end) ;;
      (fix each (ps : list (string * property)) : M unit :=
         match ps with
         | [] => ret tt
         | (key, p) :: rest =>
             (if key =? "head" then ret tt
              else if key =? "use" then processUse currPath (as_value_of p)
              else if starts_with_char "/" key then
                match p with
                | Property _ inner _ _ =>
                    addSpecification inner (inner_path currPath key)
                end
              else if starts_with_char ":" key then
                addParameter controllers key (as_value_of p) false
              else processVerb key currPath p) ;;
             each rest
         end) props
  | Neither _ =>
      throw (Error "Specification must be a object, router function, or an array of router functions")
  end.

End Specification.

(* ------------------------------------------------------------------ *)
(** ** addRouters (lines 559-572)

    [for (key in routers)] visits the own properties of an object, the
    elements of an array and the characters of a string; a number, a
    boolean, a symbol, a function, an error, [null] and [undefined] have
    nothing to visit.  A value that is a function or an array is mounted
    with [router.use (value)]; any other is descended into.  A character
    is a string again, so a string that is not empty is descended into
    without end, until the engine throws its [RangeError]. *)
Fixpoint addRouters (routers : value) : M unit :=
  match routers with
  | VObject props =>
      (fix each (ps : list (string * value)) : M unit :=
         match ps with
         | [] => ret tt
         | (_, v) :: rest =>
             (if isFunction v || isArray v then router_call_ (Mounted v)
              else addRouters v) ;;
             each rest
         end) props
  | VArray items =>
      (fix each (vs : list value) : M unit :=
         match vs with
         | [] => ret tt
         | v :: rest =>
             (if isFunction v || isArray v then router_call_ (Mounted v)
              else addRouters v) ;;
             each rest
         end) items
  | VString s =>
      if s =? "" then ret tt
      else throw (Error "Maximum call stack size exceeded")
  | _ => ret tt
  end.

(** Lines 555-557. *)
Definition getRouter (b : builder) : list router_call := _router b.

(** How often a response was given a status and a body. *)
Definition count_status (res : response) : nat :=
  length (filter (fun c => match c with ResStatus _ => true | _ => false end) res).

Definition count_sends (res : response) : nat :=
  length (filter (fun c => match c with ResSend _ => true | _ => false end) res).

(** An error the responder answers: a string or an object. *)
Definition answered (err : value) : bool :=
  (typeof err =? "string") || (typeof err =? "object").

(** The separators of an action reference, and the inverse of
    [split_at]. *)
Fixpoint count_at (s : string) : nat :=
  match s with
  | EmptyString => 0
  | String c rest => (if Ascii.eqb c "@"%char then 1 else 0) + count_at rest
  end.

Fixpoint join_at (parts : list string) : string :=
  match parts with
  | [] => ""
  | [p] => p
  | p :: rest => p ++ "@" ++ join_at rest
  end.

(** What a reference resolves to once it is split (lines 219-231). *)
Definition resolved (controllers : string -> option controller)
           (controllerName actionName : string) : outcome member :=
  match controllers controllerName with
  | None => Throw (Error ("controller " ++ controllerName ++ " not found"))
  | Some controller =>
      match member_of controller actionName with
      | Missing =>
          Throw (Error ("controller " ++ controllerName
                        ++ " does not define method " ++ actionName))
      | m => Return m
      end
  end.

(** A controller whose [load] method returns nothing, and its registry. *)
Definition silent_controller : controller := {|
  actions := None;
  resourceId := None;
  methods := [("load", fun _ => Return VUndefined)]
|}.

Definition silent_registry (name : string) : option controller :=
  if name =? "Silent" then Some silent_controller else None.

(** A controller with actions and no [resourceId]. *)
Definition tag_controller : controller := {|
  actions := Some crud_actions;
  resourceId := None;
  methods := []
|}.

Definition tag_registry (name : string) : option controller :=
  if name =? "Tag" then Some tag_controller else None.

(** A name [actions[name]] finds something under: a key of the actions,
    or the name of an inherited member. *)
Definition is_action (actions : list (string * action_entry)) (name : string) : bool :=
  present (lookup actions name) || inherited name.

(** A name that is not denied. *)
Definition not_denied (denied : list string) (name : string) : bool :=
  negb (existsb (String.eqb name) denied).

(** A definition that leaves the collective key [k] alone. *)
Definition leaves_key (k : string) (d : action_def) : bool :=
  negb (slot_eqb (target d) (AtRoot k)) && negb (slot_eqb (target d) (AtLiteral k)).

(** A path without the slash it may end with. *)
Fixpoint strip_slash (s : string) : string :=
  match s with
  | EmptyString => EmptyString
  | String c EmptyString => if Ascii.eqb c "/" then EmptyString else s
  | String c rest => String c (strip_slash rest)
  end.

(** ** The traversal, key by key *)

Definition as_spec_of (p : property) : spec :=
  match p with Property _ s _ _ => s end.

Section Traversal.

Variable controllers : string -> option controller.
Variable router_verb : string -> bool.
Variable inspect : value -> string.
Variable _basePath : string.
Variable resume : value -> string -> M unit.

(** Lines 475-476. *)
Definition head_step (currPath : string) (props : list (string * property)) : M unit :=
  match lookup props "head" with
  | Some head =>
      if truthy (as_value_of head)
      then processVerb controllers router_verb inspect resume "head" currPath head
      else ret tt
  | None => ret tt
  end.

(** Lines 480-505. *)
Fixpoint process_keys (currPath : string) (ps : list (string * property)) : M unit :=
  match ps with
  | [] => ret tt
  | (key, p) :: rest =>
      process_key controllers router_verb inspect resume
                  (addSpecification controllers router_verb inspect _basePath resume)
                  currPath key p ;;
      process_keys currPath rest
  end.

End Traversal.

(** The keys the loop does not skip. *)
Definition not_head (kv : string * property) : bool := negb (fst kv =? "head").

(** [b'] comes from [b] by further calls on the router primitive, and its
    cache holds every name once if that of [b] does. *)
Definition extends (b b' : builder) : Prop :=
  (exists added, _router b' = _router b ++ added)
  /\ (NoDup (_params b) -> NoDup (_params b')).

(** The leaves of a mapping of routers, the functions and arrays in it, in
    the order of its keys and depth first. *)
Fixpoint leaves (routers : value) : list value :=
  match routers with
  | VObject props =>
      flat_map (fun kv => if isFunction (snd kv) || isArray (snd kv)
                          then [snd kv] else leaves (snd kv)) props
  | VArray items =>
      flat_map (fun v => if isFunction v || isArray v then [v] else leaves v) items
  | _ => []
  end.

(** No string with a character in it is descended into, and no error of
    the errors module, whose properties are that module's to give. *)
Fixpoint no_text (routers : value) : bool :=
  match routers with
  | VObject props =>
      forallb (fun kv => isFunction (snd kv) || isArray (snd kv) || no_text (snd kv))
              props
  | VArray items =>
      forallb (fun v => isFunction v || isArray v || no_text v) items
  | VString s => s =? ""
  | VBlueprintError _ _ _ _ => false
  | _ => true
  end.

(** The router primitive takes the call. *)
Definition accepted (c : router_call) : bool :=
  match rejection c with None => true | Some _ => false end.

Definition is_container (v : value) : bool :=
  match v with VObject _ | VArray _ => true | _ => false end.

(** An object with a [get] and a [head] verb, in this order of keys. *)
Definition head_node : verb_options := {|
  action := VString "Message@getAll";
  view := VUndefined;
  before := None;
  after := HookValue VUndefined;
  options := VUndefined
|}.

Definition get_then_head : list (string * property) :=
  [("get", Property (VObject [("action", VString "Message@getAll")])
                    (Neither VUndefined) head_node no_lists);
   ("head", Property (VObject [("action", VString "Message@getAll")])
                     (Neither VUndefined) head_node no_lists)].

(** What [addRouters] does with a mapping whose leaves the router
    primitive takes. *)
Definition mounts (routers : value) : Prop :=
  no_text routers = true ->
  forallb (fun h => accepted (Mounted h)) (leaves routers) = true ->
  forall b,
  exists b',
    addRouters routers b = (Return tt, b')
    /\ _router b' = _router b ++ map Mounted (leaves routers)
    /\ _params b' = _params b
    /\ arrays b' = arrays b.

(** ** The bindings of an expanded resource *)

(** The binding of a definition, read where [processAction] writes it. *)
Definition binding (st : specs) (a : action_def) : value :=
  match target a with
  | AtRoot v => get (VObject (fst st)) v
  | AtLiteral p => get (get (VObject (fst st)) p) (verb a)
  | AtSingle v => get (VObject (snd st)) v
  | AtSinglePart part v => get (get (VObject (snd st)) part) v
  end.

(** The definition [d] is not written over the binding of [a]: the two
    specs are objects, so a key holds what was assigned to it last. *)
Definition keeps (a d : action_def) : bool :=
  match target a with
  | AtRoot v => leaves_key v d
  | AtLiteral p => leaves_key p d
  | AtSingle v =>
      match target d with
      | AtSingle w => negb (w =? v)
      | AtSinglePart part _ => negb (part =? v)
      | _ => true
      end
  | AtSinglePart part v =>
      match target d with
      | AtSingle w => negb (w =? part)
      | AtSinglePart part' w => negb ((part' =? part) && (w =? v))
      | _ => true
      end
  end.

(** ** The specification [defineResource] hands back (line 357)

    [defineResource] ends by calling [addSpecification] on the object it
    has made.  That object is read as any specification is: a key gives
    the options of a verb, of a resource, or a specification again.  The
    objects it is made of are those of [makeAction], which hold an
    [action] and [options]: the reading below is theirs.  A [before], a
    [controller] or a list of names gets into such an object only when a
    definition with that verb is written into the object of another (its
    sub-path spelled like the verb of the other); [before] is read as
    absent, [controller] when it is a string and the lists when they are
    arrays of strings. *)
Definition verb_view (v : value) : verb_options :=
  {| action := get v "action";
     view := get v "view";
     before := None;
     after := HookValue (get v "after");
     options := get v "options" |}.

Definition strings_of (v : value) : option (list string) :=
  match v with
  | VArray items =>
      if forallb (fun x => match x with VString _ => true | _ => false end) items
      then Some (map (fun x => match x with VString s => s | _ => "" end) items)
      else None
  | _ => None
  end.

Definition resource_view (v : value) : resource_options :=
  {| controller_name := match get v "controller" with
                        | VString s => Some s
                        | _ => None
                        end;
     allow := strings_of (get v "allow");
     deny := strings_of (get v "deny");
     resource_opts := get v "options" |}.

Fixpoint read (v : value) : spec :=
  match v with
  | VFunction _ | VArray _ => Mount v
  | VObject props =>
      Keys (map (fun kv => (fst kv, Property (snd kv) (read (snd kv))
                                             (verb_view (snd kv))
                                             (resource_view (snd kv)))) props)
  | VError _ | VBlueprintError _ _ _ _ => Keys []
  | _ => Neither v
  end.

Definition read_property (v : value) : property :=
  Property v (read v) (verb_view v) (resource_view v).

(** A specification whose keys are verbs and paths only, and whose paths
    hold such specifications again. *)
Fixpoint verbs_and_paths (v : value) : bool :=
  match v with
  | VObject props =>
      forallb (fun kv => if starts_with_char "/" (fst kv)
                         then verbs_and_paths (snd kv)
                         else is_verb_key (fst kv)) props
  | _ => false
  end.

Section Wired.

Variable controllers : string -> option controller.
Variable router_verb : string -> bool.
Variable inspect : value -> string.
Variable _basePath : string.

(** The recursive call of line 357.  A resource expanded inside the
    expansion of a resource takes a frame of the stack each time; [depth]
    is the number of frames left, and the engine throws when there is
    none. *)
Fixpoint resume_at (depth : nat) (spec : value) (path : string) : M unit :=
  match depth with
  | O => throw (Error "Maximum call stack size exceeded")
  | S depth' =>
      addSpecification controllers router_verb inspect _basePath (resume_at depth')
                       (read spec) path
  end.

(** The registration a call [processVerb (verb, path, opts)] asks for, when
    the action of [opts] resolves. *)
Definition route_for (call : string * string * value) : list router_call :=
  let '(verb, path, opts) := call in
  match action_result controllers path (verb_view opts) with
  | Return r =>
      [Route (toLowerCase verb) path
             (validation r ++ sanitization r ++ execution r (verb_view opts))]
  | Throw _ => []
  end.

(** The call [processVerb (verb, path, opts)] returns, and the router
    primitive has received the registration it asks for and nothing
    else. *)
Definition registers (resume : value -> string -> M unit)
           (call : string * string * value) : Prop :=
  forall b,
  exists b',
    processVerb controllers router_verb inspect resume
                (fst (fst call)) (snd (fst call)) (read_property (snd call)) b
    = (Return tt, b')
    /\ _router b' = _router b ++ route_for call
    /\ _params b' = _params b
    /\ (forall a, arrays b' a = arrays b a).

(** The traversal of a specification of verbs and paths returns when each
    of its calls does, and the router primitive has received their
    registrations, in the order of the calls. *)
Definition wiring (resume : value -> string -> M unit) (v : value) : Prop :=
  verbs_and_paths v = true ->
  forall path b,
    path <> "" ->
    (forall c, In c (verb_calls v path) -> registers resume c) ->
    exists b',
      addSpecification controllers router_verb inspect _basePath resume (read v) path b
      = (Return tt, b')
      /\ _router b' = _router b ++ flat_map route_for (verb_calls v path)
      /\ _params b' = _params b
      /\ (forall a, arrays b' a = arrays b a).

(** A definition the builder can wire, wherever it is bound: its verb is
    one of the router primitive and not [resource], its method resolves on
    the controller and returns, while wiring, a well-formed result, and
    the router primitive takes the pipeline. *)
Definition wires (controllerName : string) (options : value) (a : action_def) : Prop :=
  router_verb (toLowerCase (verb a)) = true
  /\ (verb a =? "resource") = false
  /\ forall path,
      let node := verb_view (makeAction controllerName (method a) options) in
      exists r,
        action_result controllers path node = Return r
        /\ well_formed_result r = true
        /\ accepted (Route (toLowerCase (verb a)) path
                           (validation r ++ sanitization r ++ execution r node))
           = true.

(** A resource node [defineResource] takes: the controller is there, with
    its actions and its [resourceId], and the node does not give both
    lists. *)
Definition expandable (opts : resource_options) (name : string)
           (acts : list (string * action_entry)) (rid : string) : Prop :=
  controller_name opts = Some name
  /\ name <> ""
  /\ (exists ctrl, controllers name = Some ctrl
                   /\ actions ctrl = Some acts
                   /\ resourceId ctrl = Some rid)
  /\ rid <> ""
  /\ present (allow opts) && present (deny opts) = false.

End Wired.

(** Every call of the traversal comes from one of the definitions [seen]:
    it is made for the verb of a definition, with the object made for
    it. *)
Definition sourced (controllerName : string) (opts : resource_options)
           (seen : list action_def) (v : value) : Prop :=
  forall p c,
    In c (verb_calls v p) ->
    exists a, In a seen
              /\ fst (fst c) = verb a
              /\ snd c = makeAction controllerName (method a) (resource_opts opts).

Definition wired (controllerName : string) (opts : resource_options)
           (seen : list action_def) (st : specs) : Prop :=
  verbs_and_paths (VObject (fst st)) = true
  /\ verbs_and_paths (VObject (snd st)) = true
  /\ sourced controllerName opts seen (VObject (fst st))
  /\ sourced controllerName opts seen (VObject (snd st))
  /\ all_objects (snd st) = true.

(** A definition with a literal collective path, and the literal paths of
    a list of definitions. *)
Definition literal_path (a : action_def) : option string :=
  match target a with AtLiteral p => Some p | _ => None end.

Definition is_literal (a : action_def) : bool := present (literal_path a).

Fixpoint literal_paths (defs : list action_def) : list string :=
  match defs with
  | [] => []
  | a :: rest =>
      match literal_path a with
      | Some p => p :: literal_paths rest
      | None => literal_paths rest
      end
  end.

Fixpoint no_duplicates (l : list string) : bool :=
  match l with
  | [] => true
  | x :: rest => negb (existsb (String.eqb x) rest) && no_duplicates rest
  end.

(** The count property without a side condition on the places the
    definitions are written to: for a resource node [defineResource]
    takes, whose definitions can all be routed and wired, the router
    primitive receives as many calls as there are (allowed action,
    definition) pairs. *)
Definition one_registration_per_pair : Prop :=
  forall controllers router_verb inspect _basePath depth path opts name acts rid b,
    expandable controllers opts name acts rid ->
    path <> "" ->
    (forall a, In a (map snd (pairs acts (allowed_actions acts opts))) ->
               routable rid a = true
               /\ wires controllers router_verb name (resource_opts opts) a) ->
    length (_router (snd (defineResource
                            controllers
                            (resume_at controllers router_verb inspect _basePath (S depth))
                            path opts b)))
    = (length (_router b) + length (pairs acts (allowed_actions acts opts)))%nat.

(** A controller with two actions on the collection under the same verb,
    and one with the five usual actions, a count on the collection and two
    actions under a sub-path of a single resource.  Each method returns a
    handler function of its own name. *)
Definition returns_handler (name : string) : string * (value -> outcome value) :=
  (name, fun _ => Return (VFunction name)).

Definition post_controller : controller := {|
  actions := Some two_posts;
  resourceId := Some "postId";
  methods := [returns_handler "create"; returns_handler "upsert"]
|}.

Definition post_registry (name : string) : option controller :=
  if name =? "Post" then Some post_controller else None.

Definition post_resource : resource_options :=
  {| controller_name := Some "Post"; allow := None; deny := None;
     resource_opts := VUndefined |}.

Definition people_actions : list (string * action_entry) :=
  crud_actions
  ++ [("count", Single {| verb := "get"; path := Some "/count"; method := "count" |});
      ("friends", Several [{| verb := "get"; path := Some "/:rcId/friends";
                              method := "friends" |};
                           {| verb := "post"; path := Some "/:rcId/friends";
                              method := "befriend" |}])].

Definition people_controller : controller := {|
  actions := Some people_actions;
  resourceId := Some "personId";
  methods := map returns_handler
                 ["create"; "getAll"; "get"; "update"; "delete"; "count"; "friends";
                  "befriend"]
|}.

Definition people_registry (name : string) : option controller :=
  if name =? "Person" then Some people_controller else None.

(** Two definitions on one literal collective path, under two verbs. *)
Definition tally_actions : list (string * action_entry) :=
  [("count", Single {| verb := "get"; path := Some "/count"; method := "count" |});
   ("recount", Single {| verb := "post"; path := Some "/count"; method := "recount" |})].

Definition tally_controller : controller := {|
  actions := Some tally_actions;
  resourceId := Some "tallyId";
  methods := [returns_handler "count"; returns_handler "recount"]
|}.

Definition tally_registry (name : string) : option controller :=
  if name =? "Tally" then Some tally_controller else None.

(** A controller whose methods return something that is no handler, and a
    verb node whose [after] is a string. *)
Definition ticket_controller : controller := {|
  actions := None;
  resourceId := None;
  methods := [("byId", fun _ => Return (VNumber 5))]
|}.

Definition ticket_registry (name : string) : option controller :=
  if name =? "Ticket" then Some ticket_controller else None.

Definition audited_node : verb_options := {|
  action := VString "Message@getAll";
  view := VUndefined;
  before := Some 0%nat;
  after := HookValue (VString "audit");
  options := VUndefined
|}.

(* ================================================================== *)
(** * Properties *)

(** ** The error responder *)

Lemma handleError_string s res :
  handleError (VString s) res
  = res ++ [ResStatus 400; ResType "text/plain"; ResSend (VString s)].
Proof. reflexivity. Qed.

Lemma handleError_blueprint kind code message details res :
  handleError (VBlueprintError kind code message details) res
  = res ++ [ResType "application/json";
            ResStatus (match kind with HttpError sc => sc | BlueprintError => 500%Z end);
            ResSend (json ([("code", code); ("message", message)]
                           ++ if truthy details then [("details", details)] else []))].
Proof.
  unfold handleError; cbn [typeof instanceof_BlueprintError kind_of get].
  cbn [String.eqb Ascii.eqb Bool.eqb].
  destruct kind; cbn [accept]; rewrite <- !app_assoc; cbn [app];
    destruct (truthy details); reflexivity.
Qed.

Lemma handleError_Error message res :
  handleError (VError message) res
  = res ++ [ResType "application/json"; ResStatus 500;
            ResSend (json [("message", VString message)])].
Proof.
  unfold handleError; cbn. rewrite <- app_assoc. reflexivity.
Qed.

Lemma handleError_other err res :
  typeof err = "object" ->
  instanceof_Error err = false ->
  handleError err res
  = res ++ [ResType "application/json"; ResStatus 500;
            ResSend (json [("details", err)])].
Proof.
  intros Ht Hi. unfold handleError. rewrite Ht. cbn [String.eqb Ascii.eqb Bool.eqb].
  destruct err; cbn in Hi; try discriminate; cbn [instanceof_BlueprintError instanceof_Error];
    rewrite <- app_assoc; reflexivity.
Qed.

(** C7: a string is answered with status 400 and the string itself as
    plain text; a typed error carrying a status code with that status and
    the JSON body [{errors: {code, message}}], extended by [details] when
    the error has them; a bare [Error] with status 500 and
    [{errors: {message}}]; any other object (a plain object, an array,
    [null]) with status 500 and [{errors: {details: <the object>}}]. *)
Theorem C7_error_mapping :
  (forall s res,
      handleError (VString s) res
      = res ++ [ResStatus 400; ResType "text/plain"; ResSend (VString s)])
  /\ (forall statusCode code message details res,
         handleError (VBlueprintError (HttpError statusCode) code message details) res
         = res ++ [ResType "application/json"; ResStatus statusCode;
                   ResSend (json ([("code", code); ("message", message)]
                                  ++ if truthy details then [("details", details)] else []))])
  /\ (forall message res,
         handleError (VError message) res
         = res ++ [ResType "application/json"; ResStatus 500;
                   ResSend (json [("message", VString message)])])
  /\ (forall props res,
         handleError (VObject props) res
         = res ++ [ResType "application/json"; ResStatus 500;
                   ResSend (json [("details", VObject props)])])
  /\ (forall items res,
         handleError (VArray items) res
         = res ++ [ResType "application/json"; ResStatus 500;
                   ResSend (json [("details", VArray items)])])
  /\ (forall res,
         handleError VNull res
         = res ++ [ResType "application/json"; ResStatus 500;
                   ResSend (json [("details", VNull)])]).
Proof.
  split; [| split; [| split; [| split; [| split]]]]; intros.
  - apply handleError_string.
  - apply (handleError_blueprint (HttpError statusCode)).
  - apply handleError_Error.
  - apply handleError_other; reflexivity.
  - apply handleError_other; reflexivity.
  - apply handleError_other; reflexivity.
Qed.

(** The three scenarios of the spec, on a fresh response. *)
Example handleError_bad_input :
  let res := handleError (VString "bad input") [] in
  status_of res = Some 400%Z /\ type_of res = Some "text/plain"
  /\ body_of res = Some (VString "bad input").
Proof. repeat split. Qed.

Example handleError_not_found code :
  let res := handleError (VBlueprintError (HttpError 404) code (VString "not found")
                                          VUndefined) [] in
  status_of res = Some 404%Z
  /\ body_of res = Some (json [("code", code); ("message", VString "not found")]).
Proof. repeat split. Qed.

Example handleError_boom :
  let res := handleError (VError "boom") [] in
  status_of res = Some 500%Z
  /\ body_of res = Some (json [("message", VString "boom")]).
Proof. repeat split. Qed.

(** C10: an error that is neither a string nor an object leaves the
    response untouched: no status, no type, no body. *)
Theorem C10_other_types_ignored err res :
  typeof err <> "string" ->
  typeof err <> "object" ->
  handleError err res = res.
Proof.
  intros Hs Ho. unfold handleError.
  destruct (typeof err =? "string") eqn:E1.
  - apply String.eqb_eq in E1. contradiction.
  - destruct (typeof err =? "object") eqn:E2.
    + apply String.eqb_eq in E2. contradiction.
    + reflexivity.
Qed.

Lemma C10_other_types_ignored_witness :
  handleError (VNumber 42) [] = []
  /\ handleError (VBool true) [] = []
  /\ handleError VUndefined [ResType "text/html"] = [ResType "text/html"].
Proof.
  split; [| split].
  - apply (@C10_other_types_ignored (VNumber 42) []); discriminate.
  - apply (@C10_other_types_ignored (VBool true) []); discriminate.
  - apply (@C10_other_types_ignored VUndefined [ResType "text/html"]); discriminate.
Defined.

(** ** Validation by schema *)

Section SchemaValidation.

Variable construct_function : string -> list value -> outcome value.

Lemma validate_schema_passes schema req res :
  check req schema = Return tt ->
  truthy (validationErrors req) = false ->
  __blueprint_validate_schema construct_function schema req res
  = {| sent := res; continued := true |}.
Proof.
  intros Hc Hv. unfold __blueprint_validate_schema. rewrite Hc, Hv. reflexivity.
Qed.

(** When the checks fail and the failures carry no constructor under the
    name [HttpError], line 101 throws and the adapter answers with the
    [TypeError]: status 500. *)
Lemma validate_schema_fails schema req res :
  check req schema = Return tt ->
  truthy (validationErrors req) = true ->
  isFunction (get (validationErrors req) "HttpError") = false ->
  __blueprint_validate_schema construct_function schema req res
  = {| sent := res ++ [ResType "application/json"; ResStatus 500;
                       ResSend (json [("message",
                                       VString "errors.HttpError is not a constructor")])];
       continued := false |}.
Proof.
  intros Hc Hv Hf. unfold __blueprint_validate_schema. rewrite Hc, Hv. cbn [negb].
  destruct (get (validationErrors req) "HttpError"); try discriminate;
    cbn [construct]; rewrite handleError_Error; reflexivity.
Qed.

End SchemaValidation.

(** C4: on a request that fails the schema the adapter does not answer with
    the validation failure (status 400, code [validation_failed], the
    failures as details) but with status 500 and the message of a
    [TypeError]. *)
Theorem C4_schema_failure_answered_500 construct_function schema :
  let served := __blueprint_validate_schema construct_function schema invalid_email [] in
  sent served
  = [ResType "application/json"; ResStatus 500;
     ResSend (json [("message", VString "errors.HttpError is not a constructor")])]
  /\ sent served <> handleError (validation_failed (validationErrors invalid_email)) []
  /\ status_of (sent served) = Some 500%Z
  /\ status_of (handleError (validation_failed (validationErrors invalid_email)) [])
     = Some 400%Z.
Proof.
  cbn. split; [reflexivity | split; [discriminate | split; reflexivity]].
Qed.

(** ** Parameters *)

Section Parameters.

Variable controllers : string -> option controller.

Lemma addParameter_known param opts b :
  is_cached param b = true ->
  addParameter controllers param opts false b = (Return tt, b).
Proof.
  intros H. unfold addParameter, bind, cached. fold (is_cached param b).
  rewrite H. reflexivity.
Qed.

Lemma addParameter_function param h override b :
  is_cached param b && negb override = false ->
  addParameter controllers param (VFunction h) override b
  = (Return tt,
     {| _router := _router b ++ [Param (slice 1 param) (VFunction h)];
        _params := if is_cached param b then _params b else _params b ++ [param];
        arrays := arrays b |}).
Proof.
  intros H. unfold addParameter, bind, cached. fold (is_cached param b).
  rewrite H. cbn [isFunction ret router_call_ reply rejection _params _router arrays].
  fold (is_cached param b).
  destruct (is_cached param b); reflexivity.
Qed.

Lemma is_cached_remembered param b :
  is_cached param {| _router := _router b; _params := _params b ++ [param];
                     arrays := arrays b |} = true.
Proof.
  unfold is_cached; cbn. rewrite existsb_app. cbn.
  rewrite String.eqb_refl. rewrite orb_true_r. reflexivity.
Qed.

(** A call that returns leaves the name in the cache. *)
Lemma addParameter_caches param opts override b b' :
  addParameter controllers param opts override b = (Return tt, b') ->
  is_cached param b' = true.
Proof.
  unfold addParameter, bind, cached. fold (is_cached param b).
  destruct (is_cached param b && negb override) eqn:Hk.
  - intros H; inversion H; subst.
    apply andb_true_iff in Hk. tauto.
  - match goal with
    | |- context [match ?h b with _ => _ end] => destruct (h b) as [[handler | ex] b1] eqn:Hh
    end; [| discriminate].
    assert (Hb1 : b1 = b).
    { destruct (isFunction opts); [inversion Hh; reflexivity |].
      destruct (isObject opts); [| discriminate].
      destruct (truthy (get opts "action")); [| discriminate].
      unfold lift in Hh.
      destruct (resolveController controllers (get opts "action")); [| discriminate Hh].
      inversion Hh; reflexivity. }
    subst b1.
    assert (Hstep : forall b2,
               (b2 = b \/ b2 = {| _router := _router b ++ [Param (slice 1 param) handler];
                                  _params := _params b; arrays := arrays b |}) ->
               (if negb (existsb (String.eqb param) (_params b2))
                then remember_param param else ret tt) b2
               = (Return tt, b') -> is_cached param b' = true).
    { intros b2 Hb2.
      assert (Hp : _params b2 = _params b) by (destruct Hb2; subst; reflexivity).
      rewrite Hp. fold (is_cached param b).
      destruct (is_cached param b) eqn:Hc; cbn [negb].
      - unfold ret. intros H; inversion H; subst.
        unfold is_cached. rewrite Hp. exact Hc.
      - unfold remember_param. intros H; inversion H; subst.
        unfold is_cached; cbn. rewrite Hp, existsb_app. cbn.
        rewrite String.eqb_refl, orb_true_r. reflexivity. }
    destruct handler; cbn [ret router_call_ reply rejection isFunction];
      first [ apply (Hstep b); left; reflexivity
            | apply Hstep; right; reflexivity
            | intros Hd; discriminate Hd ].
Qed.

End Parameters.

(** What a call that gets past the cache does, whatever its options. *)
Lemma addParameter_settled controllers param opts override b :
  is_cached param b && negb override = false ->
  match parameter_handler controllers param opts with
  | Throw ex => addParameter controllers param opts override b = (Throw ex, b)
  | Return handler =>
      let answer :=
        if is_nullish handler then Return tt
        else reply (Param (slice 1 param) handler) in
      exists b',
        addParameter controllers param opts override b = (answer, b')
        /\ _router b' = _router b ++ (if is_nullish handler then []
                                      else [Param (slice 1 param) handler])
        /\ _params b' = (match answer with
                         | Return _ => if is_cached param b then _params b
                                       else _params b ++ [param]
                         | Throw _ => _params b
                         end)
        /\ arrays b' = arrays b
  end.
Proof.
  intros Hk. unfold addParameter, parameter_handler, bind, cached, lift.
  fold (is_cached param b). rewrite Hk.
  destruct (isFunction opts) eqn:Hf.
  - cbn [ret]. destruct opts; try discriminate Hf;
      cbn [is_nullish router_call_ reply rejection isFunction ret _params _router arrays];
      fold (is_cached param b); destruct (is_cached param b);
      cbn [negb remember_param ret _params _router arrays];
      eexists; (split; [reflexivity |]); cbn [_params _router arrays];
      rewrite ?app_nil_r; repeat split.
  - destruct (isObject opts); [| reflexivity].
    destruct (truthy (get opts "action")); [| reflexivity].
    destruct (resolveController controllers (get opts "action")) as [m | ex];
      [| reflexivity].
    destruct (invoke m VUndefined) as [handler | ex]; [| reflexivity].
    destruct handler;
      cbn [is_nullish router_call_ reply rejection isFunction ret _params _router arrays];
      fold (is_cached param b); destruct (is_cached param b);
      cbn [negb remember_param ret _params _router arrays];
      eexists; (split; [reflexivity |]); cbn [_params _router arrays];
      rewrite ?app_nil_r; repeat split.
Qed.

(** C9: whatever the first character of a non-empty name is, sigil or not,
    the name is stripped of it without a test: a call with a handler
    function that gets past the cache returns and has handed the router
    primitive the rest of the name; and no call, whatever its options and
    whether it returns or throws, hands the router primitive anything but
    that. *)
Theorem C9_first_character_dropped controllers c rest h override b :
  is_cached (String c rest) b && negb override = false ->
  addParameter controllers (String c rest) (VFunction h) override b
  = (Return tt,
     {| _router := _router b ++ [Param rest (VFunction h)];
        _params := if is_cached (String c rest) b then _params b
                   else _params b ++ [String c rest];
        arrays := arrays b |})
  /\ forall opts,
      _router (snd (addParameter controllers (String c rest) opts override b))
      = _router b
      \/ exists handler,
          _router (snd (addParameter controllers (String c rest) opts override b))
          = _router b ++ [Param rest handler].
Proof.
  intros H. split.
  - rewrite addParameter_function by exact H. reflexivity.
  - intros opts.
    pose proof (addParameter_settled controllers (String c rest) opts override b H) as Hs.
    destruct (parameter_handler controllers (String c rest) opts) as [handler | ex].
    + destruct Hs as (b' & -> & Hr & _). cbn [snd]. rewrite Hr.
      destruct (is_nullish handler).
      * left. apply app_nil_r.
      * right. exists handler. reflexivity.
    + rewrite Hs. left. reflexivity.
Qed.

Lemma C9_first_character_dropped_witness :
  _router (snd (addParameter no_controllers "id" (VFunction "load") false new_builder))
  = [Param "d" (VFunction "load")]
  /\ _params (snd (addParameter no_controllers "id" (VFunction "load") false new_builder))
     = ["id"].
Proof.
  rewrite (proj1 (@C9_first_character_dropped no_controllers "i"%char "d" "load" false
                    new_builder eq_refl)).
  split; reflexivity.
Defined.

(** C8: a second call without override is a no-op, but an overriding one
    does not replace: after a registration of [first] for [:id] and an
    overriding one of [second], the router primitive has been handed both
    handlers for [id], [first] ahead of [second]. *)
Theorem C8_override_keeps_both :
  let b1 := snd (addParameter no_controllers ":id" (VFunction "first") false new_builder) in
  let b2 := snd (addParameter no_controllers ":id" (VFunction "again") false b1) in
  let b3 := snd (addParameter no_controllers ":id" (VFunction "second") true b1) in
  _router b2 = _router b1
  /\ _params b2 = _params b1
  /\ _router b3 = [Param "id" (VFunction "first"); Param "id" (VFunction "second")]
  /\ param_handlers "id" (_router b3) = [VFunction "first"; VFunction "second"]
  /\ ~ override_replaces.
Proof.
  cbn. split; [reflexivity | split; [reflexivity | split; [reflexivity |]]].
  split; [reflexivity |].
  intros H. specialize (H ":id" "first" "second"). cbn in H. discriminate H.
Qed.

(** Once a call for a name has returned, a further call without override
    changes nothing, whatever its options are; a further call with
    override and a handler function hands that handler to the router
    primitive under the same name, after the calls already made, and
    leaves the cache as it is. *)
Lemma second_registration controllers param opts override b b1 :
  addParameter controllers param opts override b = (Return tt, b1) ->
  (forall opts', addParameter controllers param opts' false b1 = (Return tt, b1))
  /\ (forall h,
         addParameter controllers param (VFunction h) true b1
         = (Return tt,
            {| _router := _router b1 ++ [Param (slice 1 param) (VFunction h)];
               _params := _params b1;
               arrays := arrays b1 |})).
Proof.
  intros H. apply addParameter_caches in H. split.
  - intros opts'. apply addParameter_known. exact H.
  - intros h. rewrite addParameter_function.
    + rewrite H. reflexivity.
    + rewrite H. reflexivity.
Qed.

Example second_registration_example :
  let b1 := {| _router := [Param "id" (VFunction "first")]; _params := [":id"];
               arrays := arrays new_builder |} in
  addParameter no_controllers ":id" (VFunction "first") false new_builder = (Return tt, b1)
  /\ (forall opts', addParameter no_controllers ":id" opts' false b1 = (Return tt, b1))
  /\ (forall h,
         addParameter no_controllers ":id" (VFunction h) true b1
         = (Return tt,
            {| _router := [Param "id" (VFunction "first"); Param "id" (VFunction h)];
               _params := [":id"];
               arrays := arrays new_builder |})).
Proof.
  intros b1.
  assert (H : addParameter no_controllers ":id" (VFunction "first") false new_builder
              = (Return tt, b1)) by reflexivity.
  split; [exact H |].
  exact (second_registration no_controllers ":id" (VFunction "first") false
           new_builder H).
Qed.

(** ** Resources: allow together with deny *)

(** C6: a resource node carrying both [allow] and [deny] makes
    [defineResource] throw, and the builder, its router included, is left
    exactly as it was. *)
Theorem C6_allow_and_deny_rejected controllers addSpecification path opts
        allowed denied b :
  allow opts = Some allowed ->
  deny opts = Some denied ->
  exists message,
    defineResource controllers addSpecification path opts b = (Throw (Error message), b).
Proof.
  intros Ha Hd. unfold defineResource. rewrite Ha, Hd. cbn [present andb].
  destruct (negb (nonempty (controller_name opts))); [eexists; reflexivity |].
  destruct (controllers _) as [ctrl |]; [| eexists; reflexivity].
  destruct (actions ctrl); [| eexists; reflexivity].
  destruct (negb (nonempty (resourceId ctrl))); eexists; reflexivity.
Qed.

Lemma C6_allow_and_deny_rejected_witness :
  exists message,
    defineResource person_registry
                   (fun spec path => router_call_ (Use path spec)) "/persons"
                   {| controller_name := Some "Person"; allow := Some ["get"];
                      deny := Some ["create"]; resource_opts := VUndefined |}
                   new_builder
    = (Throw (Error message), new_builder).
Proof.
  apply (@C6_allow_and_deny_rejected person_registry
           (fun spec path => router_call_ (Use path spec)) "/persons"
           {| controller_name := Some "Person"; allow := Some ["get"];
              deny := Some ["create"]; resource_opts := VUndefined |}
           ["get"] ["create"] new_builder); reflexivity.
Defined.

(** With a controller that is in order, the error is the one of line 291. *)
Example both_lists_message :
  fst (defineResource person_registry (fun _ _ => ret tt) "/persons"
         {| controller_name := Some "Person"; allow := Some ["get"];
            deny := Some ["create"]; resource_opts := VUndefined |} new_builder)
  = Throw (Error "/persons can only define allow or deny property, not both").
Proof. reflexivity. Qed.

(** ** Verb handlers *)

Section VerbHandlers.

Variable controllers : string -> option controller.
Variable router_verb : string -> bool.
Variable inspect : value -> string.

Ltac pipeline_done :=
  cbn [push contents spread read_array store_array ret bind arrays _router _params app
       truthy_hooks];
  unfold bind;
  cbn [push contents spread read_array store_array ret bind arrays _router _params app
       truthy_hooks];
  rewrite ?Nat.eqb_refl;
  repeat match goal with
         | H : Nat.eqb _ _ = false |- _ => rewrite H
         end;
  repeat rewrite <- app_assoc; cbn [app];
  rewrite ?app_nil_r;
  cbn [length app Nat.ltb Nat.leb];
  try match goal with
  | |- context [if ?c then router_call_ _ else ret tt] => destruct c
  end;
  eexists; (split; [reflexivity |]);
  cbn [_router _params arrays router_call_ ret];
  (split; [rewrite ?app_nil_r; reflexivity |]);
  (split; [reflexivity |]);
  intros a0; try (destruct (Nat.eqb a0 _) eqn:?);
  try match goal with
      | H : Nat.eqb _ _ = true |- _ => apply Nat.eqb_eq in H; subst
      end;
  rewrite ?Nat.eqb_refl, <- ?app_assoc, ?app_nil_r; reflexivity.

(** For a verb the router primitive knows and a node with an action or a
    view whose action, if any, resolves and returns a well-formed result,
    and whose [after] is not the array given as [before]:
    when the pipeline is not empty [defineVerbHandler] makes exactly one
    call on the router primitive, for the lower-cased verb and the path,
    and answers as the router primitive does; the pipeline is the contents
    of the [before] array as the call finds it, then validation, then
    sanitization, then the execution unit (or the render unit), then the
    after-hooks; when the pipeline is empty it returns and has made no
    call.  The units have been pushed onto the [before] array. *)
Lemma pipeline_order verb path opts r b :
  router_verb (toLowerCase verb) = true ->
  is_undefined (action opts) && is_undefined (view opts) = false ->
  action_result controllers path opts = Return r ->
  well_formed_result r = true ->
  shares_array opts = false ->
  let units := validation r ++ sanitization r ++ execution r opts in
  let pipeline := hooks_before opts b ++ units ++ hooks_after opts b in
  exists b',
    defineVerbHandler controllers router_verb inspect verb path opts b
    = ((if (0 <? length pipeline)%nat
        then reply (Route (toLowerCase verb) path pipeline) else Return tt), b')
    /\ _router b'
       = _router b ++ (if (0 <? length pipeline)%nat
                       then [Route (toLowerCase verb) path pipeline] else [])
    /\ _params b' = _params b
    /\ (forall a, arrays b' a
                  = if match before opts with Some a0 => Nat.eqb a a0 | None => false end
                    then hooks_before opts b ++ units
                    else arrays b a).
Proof.
  intros Hv Hd Hr Hw Hshare units pipeline.
  unfold defineVerbHandler. rewrite Hv, Hd. cbn [negb].
  unfold action_result, invocation_params in Hr.
  subst pipeline units.
  unfold hooks_before, hooks_after, shares_array, bind, lift in *.
  destruct opts as [act vw bef aft optv];
    cbn [action view before after options] in *.
  assert (Hassign : assign [("path", VString path)] "options" optv
                    = [("path", VString path); ("options", optv)]) by reflexivity.
  rewrite Hassign; clear Hassign.
  destruct (truthy act) eqn:Ta.
  - destruct (resolveController controllers act) as [m | ex] eqn:Hm; [| discriminate].
    destruct (invoke m _) as [result | ex] eqn:Hi; [| discriminate].
    inversion Hr; subst r; clear Hr.
    cbn [well_formed_result validation sanitization execution] in *.
    unfold is_middleware in *.
    destruct (isFunction result || isArray result) eqn:Hmw.
    + destruct bef as [a |], aft as [a' | v]; cbn [truthy_hooks]; try destruct (truthy v); pipeline_done.
    + cbn [orb] in Hw.
      destruct (isObject result); [| discriminate Hw].
      destruct (truthy (get result "execute")); [| discriminate Hw].
      cbn [andb negb] in *.
      destruct (truthy (get result "validate")) eqn:Tv; cbn [negb orb] in Hw.
      * destruct (isFunction (get result "validate")); cbn [orb] in Hw;
          [| rewrite Hw];
          destruct (truthy (get result "sanitize")), bef as [a |], aft as [a' | v];
          cbn [truthy_hooks]; try destruct (truthy v); pipeline_done.
      * destruct (truthy (get result "sanitize")), bef as [a |], aft as [a' | v];
          cbn [truthy_hooks]; try destruct (truthy v); pipeline_done.
  - inversion Hr; subst r; clear Hr.
    cbn [well_formed_result validation sanitization execution view] in *.
    destruct (truthy vw), bef as [a |], aft as [a' | v];
      cbn [truthy_hooks]; try destruct (truthy v); pipeline_done.
Qed.

End VerbHandlers.

Example pipeline_order_example :
  (exists b',
      defineVerbHandler message_registry http_verbs (fun _ => "") "POST" "/messages"
                        message_node message_builder = (Return tt, b')
      /\ _router b'
         = [Route "post" "/messages"
                  [Given (VFunction "auth"); ValidateBySchema message_schema;
                   Sanitizer (VFunction "trim"); Executor (VFunction "save");
                   Given (VFunction "audit")]])
  /\ (exists b',
         defineVerbHandler message_registry http_verbs (fun _ => "") "get" "/"
                           silent_node new_builder = (Return tt, b')
         /\ _router b' = []).
Proof.
  split.
  - destruct (@pipeline_order message_registry http_verbs (fun _ => "")
                "POST" "/messages" message_node
                (Some (VObject [("validate", message_schema);
                                ("sanitize", VFunction "trim");
                                ("execute", VFunction "save")]))
                message_builder eq_refl eq_refl eq_refl eq_refl eq_refl)
      as (b' & Hrun & Hrouter & _).
    exists b'. split; [exact Hrun | exact Hrouter].
  - destruct (@pipeline_order message_registry http_verbs (fun _ => "")
                "get" "/" silent_node None new_builder
                eq_refl eq_refl eq_refl eq_refl eq_refl)
      as (b' & Hrun & Hrouter & _).
    exists b'. split; [exact Hrun | exact Hrouter].
Qed.

(** C5: the order holds for a node whose [before] array is used nowhere
    else (lemma [pipeline_order]), but the units are pushed onto the array
    the specification gave as [before].
    Of two nodes written with the same [before] array [auth], the second
    is registered with the execution unit of the first ahead of its own
    units; and a node written with one array [auth] as [before] and as
    [after] is registered with its execution unit twice, the second time
    behind the after-hook.  Neither pipeline is the one the node asks
    for. *)
Theorem C5_units_pushed_onto_before_array :
  let wire := defineVerbHandler message_registry http_verbs (fun _ => "") in
  let b1 := snd (wire "get" "/messages" get_node message_builder) in
  let b2 := snd (wire "post" "/messages" post_node b1) in
  let b3 := snd (wire "get" "/messages" same_hooks_node message_builder) in
  _router b2
  = [Route "get" "/messages" [Given (VFunction "auth"); Given (VFunction "list")];
     Route "post" "/messages"
           [Given (VFunction "auth"); Given (VFunction "list");
            ValidateBySchema message_schema; Sanitizer (VFunction "trim");
            Executor (VFunction "save")]]
  /\ pipeline_asked message_registry "/messages" post_node message_builder
     = [Given (VFunction "auth"); ValidateBySchema message_schema;
        Sanitizer (VFunction "trim"); Executor (VFunction "save")]
  /\ _router b3
     = [Route "get" "/messages"
              [Given (VFunction "auth"); Given (VFunction "list");
               Given (VFunction "auth"); Given (VFunction "list")]]
  /\ pipeline_asked message_registry "/messages" same_hooks_node message_builder
     = [Given (VFunction "auth"); Given (VFunction "list"); Given (VFunction "auth")].
Proof.
  cbn. split; [reflexivity | split; [reflexivity | split; reflexivity]].
Qed.

(** ** Resources: the deny list *)

(** C2: with the five usual actions and a deny list naming [count], which
    is not one of them, the action [delete] is dropped although the deny
    list does not mention it. *)
Theorem C2_unknown_name_drops_last :
  allowed_actions crud_actions (deny_only ["count"])
  = ["create"; "getAll"; "get"; "update"]
  /\ In "delete" (map fst crud_actions)
  /\ ~ In "delete" ["count"]
  /\ ~ In "delete" (allowed_actions crud_actions (deny_only ["count"])).
Proof.
  split; [reflexivity |]. split; [cbn; tauto |].
  split; cbn; intros H; repeat (destruct H as [H | H]; [discriminate H |]); exact H.
Qed.

(** What one round of the deny loop does: a name that is in the list is
    taken out; a name that is not takes the last element out. *)
Lemma indexOf_from_found x l : forall i,
  In x l ->
  exists n, indexOf_from l x i = (i + Z.of_nat n)%Z
            /\ (n < length l)%nat
            /\ remove_at n l = remove_first x l.
Proof.
  induction l as [| y rest IH]; intros i Hin; [contradiction |].
  cbn [indexOf_from remove_first]. destruct (String.eqb_spec y x) as [-> | Hne].
  - exists 0%nat. cbn. split; [lia | split; [lia | reflexivity]].
  - destruct Hin as [-> | Hin]; [contradiction |].
    destruct (IH (i + 1)%Z Hin) as (n & Hn & Hlt & Hrm).
    exists (S n). cbn [remove_at length]. split; [lia | split; [lia |]].
    rewrite Hrm. reflexivity.
Qed.

Lemma indexOf_from_missing x l : forall i,
  ~ In x l -> indexOf_from l x i = (-1)%Z.
Proof.
  induction l as [| y rest IH]; intros i Hin; [reflexivity |].
  cbn [indexOf_from]. destruct (String.eqb_spec y x) as [-> | Hne].
  - exfalso. apply Hin. left. reflexivity.
  - apply IH. intros H. apply Hin. right. exact H.
Qed.

Lemma splice_known x l :
  In x l -> splice l (indexOf l x) = remove_first x l.
Proof.
  intros Hin. unfold indexOf.
  destruct (indexOf_from_found x l 0%Z Hin) as (n & Hn & Hlt & Hrm).
  rewrite Hn. unfold splice.
  destruct (0 + Z.of_nat n <? 0)%Z eqn:E; [lia |].
  replace (Z.to_nat (Z.min (0 + Z.of_nat n) (Z.of_nat (length l)))) with n by lia.
  exact Hrm.
Qed.

Lemma remove_at_last l :
  remove_at (length l - 1) l = removelast l.
Proof.
  induction l as [| y rest IH]; [reflexivity |].
  destruct rest as [| z rest']; [reflexivity |].
  cbn [length Nat.sub] in *. rewrite Nat.sub_0_r in IH.
  cbn [remove_at]. change (removelast (y :: z :: rest')) with (y :: removelast (z :: rest')).
  rewrite <- IH. reflexivity.
Qed.

Lemma splice_unknown x l :
  ~ In x l -> splice l (indexOf l x) = removelast l.
Proof.
  intros Hin. unfold indexOf. rewrite indexOf_from_missing by exact Hin.
  unfold splice. cbn [Z.ltb Z.compare].
  replace (Z.to_nat (Z.max (Z.of_nat (length l) + -1) 0)) with (length l - 1)%nat by lia.
  apply remove_at_last.
Qed.

Lemma remove_first_in x y l :
  NoDup l -> (In y (remove_first x l) <-> In y l /\ y <> x).
Proof.
  induction l as [| z rest IH]; intros Hnd; [cbn; tauto |].
  inversion Hnd as [| ? ? Hz Hrest]; subst.
  cbn [remove_first]. destruct (String.eqb_spec z x) as [-> | Hne].
  - split.
    + intros H. split; [right; exact H |]. intros ->. contradiction.
    + intros [[-> | H] Hyx]; [contradiction | exact H].
  - cbn [In]. rewrite (IH Hrest). split.
    + intros [-> | [H Hyx]]; [split; [left; reflexivity | exact Hne] |].
      split; [right; exact H | exact Hyx].
    + intros [[-> | H] Hyx]; [left; reflexivity | right; split; assumption].
Qed.

Lemma remove_first_NoDup x l : NoDup l -> NoDup (remove_first x l).
Proof.
  induction l as [| z rest IH]; intros Hnd; [constructor |].
  inversion Hnd as [| ? ? Hz Hrest]; subst.
  cbn [remove_first]. destruct (z =? x); [exact Hrest |].
  constructor; [| exact (IH Hrest)].
  intros H. apply (remove_first_in x z Hrest) in H. tauto.
Qed.

(** On a deny list without repetition whose names are all keys of the
    actions, the loop removes exactly the denied names. *)
Lemma deny_known_names actions denied :
  NoDup (map fst actions) ->
  NoDup denied ->
  incl denied (map fst actions) ->
  forall name,
    In name (allowed_actions actions (deny_only denied))
    <-> In name (map fst actions) /\ ~ In name denied.
Proof.
  unfold allowed_actions. cbn [allow deny deny_only].
  generalize (map fst actions) as allowed.
  induction denied as [| d rest IH]; intros allowed Hnd Hdenied Hincl name.
  - cbn. tauto.
  - cbn [fold_left]. inversion Hdenied as [| ? ? Hd Hrest]; subst.
    assert (Hin : In d allowed) by (apply Hincl; left; reflexivity).
    rewrite (splice_known _ _ Hin).
    rewrite IH; [| apply remove_first_NoDup; exact Hnd | exact Hrest |].
    + rewrite (remove_first_in d name Hnd). cbn [In]. split.
      * intros [[H1 H2] H3]. split; [exact H1 |]. intros [-> | H]; contradiction || auto.
      * intros [H1 H2]. split; [split; [exact H1 |] |].
        -- intros ->. apply H2. left. reflexivity.
        -- intros H. apply H2. right. exact H.
    + intros x Hx. apply (remove_first_in d x Hnd). split.
      * apply Hincl. right. exact Hx.
      * intros ->. contradiction.
Qed.

(** A name listed twice has the same effect the second time. *)
Example deny_twice_drops_last :
  allowed_actions crud_actions (deny_only ["create"; "create"])
  = ["getAll"; "get"; "update"].
Proof. reflexivity. Qed.

(** ** Resources: where a definition is bound *)

Lemma lookup_assign_same {A} (props : list (string * A)) k v :
  lookup (assign props k v) k = Some v.
Proof.
  induction props as [| [k' v'] rest IH]; cbn.
  - rewrite String.eqb_refl. reflexivity.
  - destruct (k' =? k) eqn:E; cbn.
    + rewrite String.eqb_refl. reflexivity.
    + rewrite E. exact IH.
Qed.

Lemma lookup_assign_other {A} (props : list (string * A)) k k' v :
  k <> k' ->
  lookup (assign props k v) k' = lookup props k'.
Proof.
  intros Hne. induction props as [| [k0 v0] rest IH]; cbn.
  - destruct (k =? k') eqn:E; [apply String.eqb_eq in E; contradiction | reflexivity].
  - destruct (k0 =? k) eqn:E; cbn.
    + apply String.eqb_eq in E; subst k0.
      destruct (k =? k') eqn:E'; [apply String.eqb_eq in E'; contradiction | reflexivity].
    + destruct (k0 =? k'); [reflexivity | exact IH].
Qed.

Lemma all_objects_lookup props k v :
  all_objects props = true ->
  lookup props k = Some v ->
  is_object_literal v = true.
Proof.
  unfold all_objects. induction props as [| [k' v'] rest IH]; cbn; [discriminate |].
  intros H Hl. apply andb_true_iff in H. destruct H as [Hv Hrest].
  destruct (k' =? k); [inversion Hl; subst; exact Hv | exact (IH Hrest Hl)].
Qed.

Lemma all_objects_assign props k v :
  all_objects props = true ->
  is_object_literal v = true ->
  all_objects (assign props k v) = true.
Proof.
  unfold all_objects. intros H Hv.
  induction props as [| [k' v'] rest IH]; cbn.
  - rewrite Hv. reflexivity.
  - cbn in H. apply andb_true_iff in H. destruct H as [Hv' Hrest].
    destruct (k' =? k); cbn.
    + rewrite Hv. exact Hrest.
    + rewrite Hv'. exact (IH Hrest).
Qed.

Lemma nonempty_Some p : p <> "" -> nonempty (Some p) = true.
Proof.
  intros H. cbn. destruct (p =? "") eqn:E; [apply String.eqb_eq in E; contradiction |].
  reflexivity.
Qed.

(** Every property of the two specs is an object, from the empty specs
    on. *)
Lemma processAction_objects controllerName opts a st :
  all_objects (fst st) = true ->
  all_objects (snd st) = true ->
  all_objects (fst (processAction controllerName opts a st)) = true
  /\ all_objects (snd (processAction controllerName opts a st)) = true.
Proof.
  destruct st as [spec singleSpec]. cbn [fst snd]. intros H1 H2.
  unfold processAction.
  destruct (nonempty (path a)).
  - destruct (startsWith _ SINGLE_RESOURCE_BASE_PATH).
    + destruct (String.length _ =? 0)%nat; cbn [fst snd].
      * split; [exact H1 | apply all_objects_assign; [exact H2 | reflexivity]].
      * split; [exact H1 |].
        set (part := slice _ _). cbn [get].
        destruct (lookup singleSpec part) as [v |] eqn:Hl.
        -- pose proof (all_objects_lookup _ _ H2 Hl) as Hv.
           destruct v; try discriminate Hv. cbn [truthy negb]. rewrite Hl.
           apply all_objects_assign; [exact H2 | reflexivity].
        -- cbn [truthy negb]. rewrite lookup_assign_same.
           apply all_objects_assign; [| reflexivity].
           apply all_objects_assign; [exact H2 | reflexivity].
    + cbn [fst snd]. split; [| exact H2].
      apply all_objects_assign.
      * apply all_objects_assign; [exact H1 | reflexivity].
      * cbn [get]. rewrite lookup_assign_same. reflexivity.
  - cbn [fst snd]. split; [| exact H2].
    apply all_objects_assign; [exact H1 | reflexivity].
Qed.

Lemma expand_objects controllerName opts actions allowed :
  all_objects (fst (expand controllerName opts actions allowed)) = true
  /\ all_objects (snd (expand controllerName opts actions allowed)) = true.
Proof.
  unfold expand.
  assert (H : all_objects (fst (@nil (string * value), @nil (string * value))) = true
              /\ all_objects (snd (@nil (string * value), @nil (string * value))) = true)
    by (split; reflexivity).
  revert H. generalize (@nil (string * value), @nil (string * value)).
  induction allowed as [| name rest IH]; intros st H; [exact H |].
  cbn [fold_left]. apply IH. unfold expand_action.
  destruct (lookup actions name) as [[items | a |] |]; try exact H.
  - revert st H. induction items as [| item more IHi]; intros st H; [exact H |].
    cbn [fold_left]. apply IHi. apply processAction_objects; tauto.
  - apply processAction_objects; tauto.
  - destruct (inherited name); [apply processAction_objects; tauto | exact H].
Qed.


(** One step of the expansion: a definition whose non-empty path begins
    with the placeholder [/:rcId] is written into the single-resource spec,
    under its verb when nothing follows the placeholder and otherwise under
    its verb inside the object held at the remainder, and the collective
    spec is untouched.  A definition whose non-empty path does not begin
    with it is written into the collective spec, under its verb inside a
    fresh object held at the literal path, and the single-resource spec is
    untouched.  This holds in every state whose single-resource properties
    are objects, as they are throughout an expansion ([expand_objects]). *)
Lemma processAction_placeholder_prefix controllerName opts action p spec singleSpec :
  path action = Some p ->
  p <> "" ->
  all_objects singleSpec = true ->
  let made := makeAction controllerName (method action) (resource_opts opts) in
  let part := slice (String.length SINGLE_RESOURCE_BASE_PATH) p in
  let st := processAction controllerName opts action (spec, singleSpec) in
  if startsWith p SINGLE_RESOURCE_BASE_PATH then
    fst st = spec
    /\ (if part =? "" then lookup (snd st) (verb action) = Some made
        else get (get (VObject (snd st)) part) (verb action) = made)
  else
    snd st = singleSpec
    /\ lookup (fst st) p = Some (VObject [(verb action, made)]).
Proof.
  intros Hp Hne Hobj made part st. subst st. unfold processAction.
  rewrite Hp, (nonempty_Some Hne).
  destruct (startsWith p SINGLE_RESOURCE_BASE_PATH) eqn:Hs.
  - fold part. fold made.
    destruct (part =? "") eqn:Hpart.
    + apply String.eqb_eq in Hpart. rewrite Hpart. cbn [String.length Nat.eqb fst snd].
      split; [reflexivity | apply lookup_assign_same].
    + assert (Hlen : (String.length part =? 0)%nat = false).
      { destruct part; [discriminate Hpart | reflexivity]. }
      rewrite Hlen. cbn [fst snd]. split; [reflexivity |].
      cbn [get]. rewrite lookup_assign_same.
      destruct (lookup singleSpec part) as [v |] eqn:Hl.
      * pose proof (all_objects_lookup _ _ Hobj Hl) as Hv.
        destruct v; try discriminate Hv. cbn [truthy negb].
        rewrite Hl. cbn [assign_in get]. rewrite lookup_assign_same. reflexivity.
      * cbn [truthy negb]. rewrite lookup_assign_same.
        cbn [assign_in get]. rewrite lookup_assign_same. reflexivity.
  - fold made. cbn [fst snd]. split; [reflexivity |].
    rewrite lookup_assign_same. cbn [get]. rewrite lookup_assign_same.
    reflexivity.
Qed.

Example processAction_placeholder_prefix_example :
  let get_one := {| verb := "get"; path := Some "/:rcId"; method := "get" |} in
  let count := {| verb := "get"; path := Some "/count"; method := "count" |} in
  lookup (snd (processAction "Person" no_lists get_one ([], []))) "get"
  = Some (VObject [("action", VString "Person@get")])
  /\ lookup (fst (processAction "Person" no_lists count ([], []))) "/count"
     = Some (VObject [("get", VObject [("action", VString "Person@count")])]).
Proof.
  intros get_one count. split.
  - assert (Hne : "/:rcId" <> "") by discriminate.
    exact (proj2 (@processAction_placeholder_prefix "Person" no_lists get_one "/:rcId"
                    [] [] eq_refl Hne eq_refl)).
  - assert (Hne : "/count" <> "") by discriminate.
    exact (proj2 (@processAction_placeholder_prefix "Person" no_lists count "/count"
                    [] [] eq_refl Hne eq_refl)).
Qed.

(** ** Resources: counting the bindings *)

Lemma verb_calls_object props currPath :
  verb_calls (VObject props) currPath
  = head_calls props currPath ++ flat_map (key_calls currPath) props.
Proof. reflexivity. Qed.

Lemma assign_fresh {A} (props : list (string * A)) k v :
  lookup props k = None -> assign props k v = props ++ [(k, v)].
Proof.
  induction props as [| [k' v'] rest IH]; cbn; [reflexivity |].
  destruct (k' =? k); [discriminate |]. intros H. rewrite (IH H). reflexivity.
Qed.

Lemma assign_assign {A} (props : list (string * A)) k v w :
  assign (assign props k v) k w = assign props k w.
Proof.
  induction props as [| [k' v'] rest IH]; cbn.
  - rewrite String.eqb_refl. reflexivity.
  - destruct (k' =? k) eqn:E; cbn.
    + rewrite String.eqb_refl. reflexivity.
    + rewrite E, IH. reflexivity.
Qed.

Lemma lookup_app {A} (l1 l2 : list (string * A)) k :
  lookup (l1 ++ l2) k
  = match lookup l1 k with Some v => Some v | None => lookup l2 k end.
Proof.
  induction l1 as [| [k' v'] rest IH]; cbn; [reflexivity |].
  destruct (k' =? k); [reflexivity | exact IH].
Qed.

Lemma head_calls_assign_other props k v currPath :
  k <> "head" ->
  length (head_calls (assign props k v) currPath) = length (head_calls props currPath).
Proof.
  intros H. unfold head_calls. cbn [get].
  rewrite lookup_assign_other by exact H. reflexivity.
Qed.

Lemma slash_key_not_head k : starts_with_char "/" k = true -> k <> "head".
Proof. intros H E. subst k. discriminate H. Qed.

Lemma key_calls_verb k v currPath :
  is_verb_key k = true -> k <> "head" -> key_calls currPath (k, v) = [(k, currPath, v)].
Proof.
  unfold is_verb_key, key_calls. cbn [fst snd]. intros H Hh.
  apply andb_true_iff in H. destruct H as [H H3].
  apply andb_true_iff in H. destruct H as [H1 H2].
  apply negb_true_iff in H1, H2, H3. rewrite H1, H2, H3.
  destruct (k =? "head") eqn:E; [apply String.eqb_eq in E; contradiction | reflexivity].
Qed.

Lemma key_calls_path k v currPath :
  starts_with_char "/" k = true ->
  key_calls currPath (k, v) = verb_calls v (inner_path currPath k).
Proof.
  unfold key_calls. cbn [fst snd]. intros H. rewrite H.
  destruct k as [| c k']; [discriminate |].
  cbn in H. apply Ascii.eqb_eq in H. subst c. reflexivity.
Qed.

(** A fresh verb key with a truthy value adds one call. *)
Lemma calls_assign_verb props k v currPath :
  is_verb_key k = true ->
  lookup props k = None ->
  truthy v = true ->
  length (verb_calls (VObject (assign props k v)) currPath)
  = S (length (verb_calls (VObject props) currPath)).
Proof.
  intros Hk Hfresh Hv. rewrite !verb_calls_object. rewrite assign_fresh by exact Hfresh.
  rewrite flat_map_app, !length_app. cbn [flat_map]. rewrite app_nil_r.
  destruct (String.eqb_spec k "head") as [-> | Hne].
  - unfold head_calls. cbn [get]. rewrite lookup_app, Hfresh. cbn [lookup].
    cbn [String.eqb Ascii.eqb Bool.eqb andb]. rewrite Hv. cbn. lia.
  - rewrite key_calls_verb by assumption.
    unfold head_calls. cbn [get]. rewrite lookup_app.
    destruct (lookup props "head") as [h |]; cbn [lookup length].
    + lia.
    + destruct (k =? "head") eqn:E; [apply String.eqb_eq in E; contradiction |].
      cbn. lia.
Qed.

(** A fresh key that begins with a slash adds the calls of its value. *)
Lemma calls_assign_fresh_path props k v currPath :
  starts_with_char "/" k = true ->
  lookup props k = None ->
  length (verb_calls (VObject (assign props k v)) currPath)
  = length (verb_calls (VObject props) currPath)
    + length (verb_calls v (inner_path currPath k)).
Proof.
  intros Hk Hfresh. rewrite !verb_calls_object, !length_app.
  rewrite head_calls_assign_other by (apply slash_key_not_head; exact Hk).
  rewrite assign_fresh by exact Hfresh. rewrite flat_map_app, length_app. cbn [flat_map].
  rewrite app_nil_r. rewrite key_calls_path by exact Hk. lia.
Qed.

(** Replacing the value of a key that begins with a slash exchanges the
    calls of the old value for those of the new one. *)
Lemma calls_assign_path props k old new currPath :
  starts_with_char "/" k = true ->
  lookup props k = Some old ->
  length (verb_calls (VObject (assign props k new)) currPath)
  + length (verb_calls old (inner_path currPath k))
  = length (verb_calls (VObject props) currPath)
    + length (verb_calls new (inner_path currPath k)).
Proof.
  intros Hk Hold. rewrite !verb_calls_object, !length_app.
  rewrite head_calls_assign_other by (apply slash_key_not_head; exact Hk).
  enough (H : length (flat_map (key_calls currPath) (assign props k new))
              + length (verb_calls old (inner_path currPath k))
              = length (flat_map (key_calls currPath) props)
                + length (verb_calls new (inner_path currPath k))) by lia.
  induction props as [| [k' v'] rest IH]; [discriminate |].
  cbn [lookup] in Hold. cbn [assign].
  destruct (k' =? k) eqn:E.
  - apply String.eqb_eq in E. subst k'. inversion Hold; subst v'.
    cbn [flat_map]. rewrite !length_app. rewrite !key_calls_path by exact Hk. lia.
  - cbn [flat_map]. rewrite !length_app. specialize (IH Hold). lia.
Qed.

Section Counting.

Variable controllerName : string.
Variable resourceId : string.
Variable opts : resource_options.

Let made (a : action_def) : value :=
  makeAction controllerName (method a) (resource_opts opts).

Lemma made_object a : exists props, made a = VObject props.
Proof. unfold made, makeAction. eexists; reflexivity. Qed.

Lemma made_truthy a : truthy (made a) = true.
Proof. reflexivity. Qed.

(** [processAction], read off the slot it writes to. *)
Lemma processAction_target a spec singleSpec :
  all_objects singleSpec = true ->
  processAction controllerName opts a (spec, singleSpec)
  = match target a with
    | AtRoot v => (assign spec v (made a), singleSpec)
    | AtLiteral p => (assign spec p (VObject [(verb a, made a)]), singleSpec)
    | AtSingle v => (spec, assign singleSpec v (made a))
    | AtSinglePart part v =>
        (spec,
         assign singleSpec part
                (VObject (assign match lookup singleSpec part with
                                 | Some (VObject o) => o
                                 | _ => []
                                 end v (made a))))
    end.
Proof.
  intros Hobj. unfold processAction, target. fold (made a).
  destruct (nonempty (path a)); [| reflexivity].
  destruct (startsWith _ SINGLE_RESOURCE_BASE_PATH).
  - destruct (String.length _ =? 0)%nat; [reflexivity |].
    set (part := slice _ _). cbn [get].
    destruct (lookup singleSpec part) as [v |] eqn:Hl.
    + pose proof (all_objects_lookup _ _ Hobj Hl) as Hv.
      destruct v; try discriminate Hv. cbn [truthy negb]. rewrite Hl. reflexivity.
    + cbn [truthy negb]. rewrite lookup_assign_same. cbn [assign_in assign].
      rewrite assign_assign. reflexivity.
  - cbn [get]. rewrite lookup_assign_same. cbn [assign_in assign].
    rewrite assign_assign. reflexivity.
Qed.

Lemma target_verb a :
  match target a with
  | AtRoot v | AtSingle v | AtSinglePart _ v => v = verb a
  | AtLiteral _ => True
  end.
Proof.
  unfold target. destruct (nonempty (path a)); [| reflexivity].
  destruct (startsWith _ _); [| exact I].
  destruct (String.length _ =? 0)%nat; reflexivity.
Qed.

Lemma routable_slot a : routable resourceId a = true -> slot_ok resourceId (target a) = true.
Proof.
  unfold routable. intros H. apply andb_true_iff in H. destruct H as [Hv Ht].
  apply andb_true_iff in Hv. destruct Hv as [Hv _].
  pose proof (target_verb a) as Hs.
  destruct (target a); cbn [slot_ok]; subst; try assumption.
  rewrite Ht, Hv. reflexivity.
Qed.

Lemma seen_slot_ok seen s :
  Forall (fun a => routable resourceId a = true) seen ->
  In s (map target seen) ->
  slot_ok resourceId s = true.
Proof.
  intros Hall Hin. apply in_map_iff in Hin. destruct Hin as (a & <- & Ha).
  apply routable_slot. rewrite Forall_forall in Hall. exact (Hall a Ha).
Qed.

Lemma verb_key_no_slash k :
  is_verb_key k = true -> starts_with_char "/" k = true -> False.
Proof.
  unfold is_verb_key. intros H Hs. rewrite Hs in H.
  rewrite andb_false_r in H. discriminate H.
Qed.

Lemma lookup_assign_cases {A} (props : list (string * A)) k v k' :
  lookup (assign props k v) k' <> None -> k' = k \/ lookup props k' <> None.
Proof.
  destruct (String.eqb_spec k k') as [-> | Hne]; [left; reflexivity |].
  rewrite lookup_assign_other by exact Hne. right. assumption.
Qed.

Lemma in_seen_app seen a s :
  In s (map target seen) -> In s (map target (seen ++ [a])).
Proof. rewrite map_app. intros H. apply in_or_app. left. exact H. Qed.

Lemma in_last_app seen a : In (target a) (map target (seen ++ [a])).
Proof. rewrite map_app. apply in_or_app. right. left. reflexivity. Qed.

Lemma single_calls_one v a currPath :
  is_verb_key v = true ->
  length (verb_calls (VObject [(v, made a)]) currPath) = 1%nat.
Proof.
  intros Hv. change [(v, made a)] with (assign [] v (made a)).
  rewrite calls_assign_verb; [reflexivity | exact Hv | reflexivity | apply made_truthy].
Qed.

Lemma counted_nil : counted [] ([], []).
Proof.
  unfold counted. cbn [fst snd lookup map filter length all_objects forallb].
  repeat split; try (intros; congruence).
Qed.

Lemma counted_step seen a st :
  Forall (fun a => routable resourceId a = true) seen ->
  routable resourceId a = true ->
  ~ In (target a) (map target seen) ->
  counted seen st ->
  counted (seen ++ [a]) (processAction controllerName opts a st).
Proof.
  intros Hseen Ha Hnew (I1 & I2 & I3 & I4 & I5 & I6).
  destruct st as [spec singleSpec]. cbn [fst snd] in *.
  rewrite processAction_target by exact I4.
  pose proof (routable_slot a Ha) as Hok.
  pose proof (in_last_app seen a) as Hlast.
  assert (Hsingle : is_single a = match target a with
                                  | AtSingle _ | AtSinglePart _ _ => true
                                  | _ => false end) by reflexivity.
  unfold counted. rewrite !filter_app, !length_app. cbn [filter].
  rewrite Hsingle.
  destruct (target a) as [v | p | v | part v] eqn:Ht; cbn [slot_ok] in Hok;
    cbn [fst snd negb length].
  - (* a verb of the collective spec *)
    assert (Hfresh : lookup spec v = None).
    { destruct (lookup spec v) eqn:E; [| reflexivity]. exfalso.
      destruct (I1 v) as [H | H]; [congruence | exact (Hnew H) |].
      apply (seen_slot_ok _ Hseen) in H. cbn in H.
      apply andb_true_iff in H. destruct H as [H _].
      exact (verb_key_no_slash _ Hok H). }
    split; [| split; [| split; [| split; [| split]]]].
    + intros k Hk. apply lookup_assign_cases in Hk. destruct Hk as [-> | Hk].
      * left. exact Hlast.
      * destruct (I1 k Hk) as [H | H]; [left | right]; apply in_seen_app; exact H.
    + intros k Hk. destruct (I2 k Hk) as [H | [w H]];
        [left | right; exists w]; apply in_seen_app; exact H.
    + intros part o w H1 H2 H3. apply in_seen_app. exact (I3 part o w H1 H2 H3).
    + exact I4.
    + intros p. rewrite calls_assign_verb;
        [rewrite I5; lia | exact Hok | exact Hfresh | apply made_truthy].
    + intros p. rewrite I6. lia.
  - (* a literal path of the collective spec *)
    apply andb_true_iff in Hok. destruct Hok as [Hslash Hbase].
    assert (Hfresh : lookup spec p = None).
    { destruct (lookup spec p) eqn:E; [| reflexivity]. exfalso.
      destruct (I1 p) as [H | H]; [congruence | | exact (Hnew H)].
      apply (seen_slot_ok _ Hseen) in H. cbn in H.
      exact (verb_key_no_slash _ H Hslash). }
    assert (Hverb : is_verb_key (verb a) = true).
    { unfold routable in Ha. apply andb_true_iff in Ha. destruct Ha as [Ha _].
      apply andb_true_iff in Ha. tauto. }
    split; [| split; [| split; [| split; [| split]]]].
    + intros k Hk. apply lookup_assign_cases in Hk. destruct Hk as [-> | Hk].
      * right. exact Hlast.
      * destruct (I1 k Hk) as [H | H]; [left | right]; apply in_seen_app; exact H.
    + intros k Hk. destruct (I2 k Hk) as [H | [w H]];
        [left | right; exists w]; apply in_seen_app; exact H.
    + intros part o w H1 H2 H3. apply in_seen_app. exact (I3 part o w H1 H2 H3).
    + exact I4.
    + intros q. rewrite calls_assign_fresh_path by assumption.
      rewrite single_calls_one by exact Hverb. rewrite I5. lia.
    + intros q. rewrite I6. lia.
  - (* a verb of the single-resource spec *)
    assert (Hfresh : lookup singleSpec v = None).
    { destruct (lookup singleSpec v) eqn:E; [| reflexivity]. exfalso.
      destruct (I2 v) as [H | [w H]]; [congruence | exact (Hnew H) |].
      apply (seen_slot_ok _ Hseen) in H. cbn in H.
      apply andb_true_iff in H. destruct H as [H _].
      exact (verb_key_no_slash _ Hok H). }
    split; [| split; [| split; [| split; [| split]]]].
    + intros k Hk. destruct (I1 k Hk) as [H | H]; [left | right];
        apply in_seen_app; exact H.
    + intros k Hk. apply lookup_assign_cases in Hk. destruct Hk as [-> | Hk].
      * left. exact Hlast.
      * destruct (I2 k Hk) as [H | [w H]];
          [left | right; exists w]; apply in_seen_app; exact H.
    + intros part o w H1 H2 H3. apply in_seen_app.
      assert (Hne : v <> part).
      { intros ->. exact (verb_key_no_slash _ Hok H2). }
      rewrite lookup_assign_other in H1 by exact Hne.
      exact (I3 part o w H1 H2 H3).
    + apply all_objects_assign; [exact I4 |].
      destruct (made_object a) as [props ->]. reflexivity.
    + intros p. rewrite I5. lia.
    + intros p. rewrite calls_assign_verb;
        [rewrite I6; lia | exact Hok | exact Hfresh | apply made_truthy].
  - (* a verb under a sub-path of the single-resource spec *)
    apply andb_true_iff in Hok. destruct Hok as [Hslash Hverb].
    split; [| split; [| split; [| split; [| split]]]].
    + intros k Hk. destruct (I1 k Hk) as [H | H]; [left | right];
        apply in_seen_app; exact H.
    + intros k Hk. apply lookup_assign_cases in Hk. destruct Hk as [-> | Hk].
      * right. exists v. exact Hlast.
      * destruct (I2 k Hk) as [H | [w H]];
          [left | right; exists w]; apply in_seen_app; exact H.
    + intros part' o w H1 H2 H3.
      destruct (String.eqb_spec part part') as [<- | Hne].
      * rewrite lookup_assign_same in H1. inversion H1; subst o; clear H1.
        apply lookup_assign_cases in H3. destruct H3 as [-> | H3]; [exact Hlast |].
        apply in_seen_app.
        destruct (lookup singleSpec part) as [[] |] eqn:Hl;
          try (cbn in H3; congruence).
        exact (I3 part props w Hl H2 H3).
      * rewrite lookup_assign_other in H1 by exact Hne.
        apply in_seen_app. exact (I3 part' o w H1 H2 H3).
    + apply all_objects_assign; [exact I4 | reflexivity].
    + intros p. rewrite I5. lia.
    + intros p. destruct (lookup singleSpec part) as [old |] eqn:Hl.
      * pose proof (all_objects_lookup _ _ I4 Hl) as Hobj.
        destruct old as [| | | | | | | |o | |]; try discriminate Hobj.
        assert (Hfresh : lookup o v = None).
        { destruct (lookup o v) eqn:E; [| reflexivity]. exfalso.
          apply Hnew. apply (I3 part o v Hl Hslash). congruence. }
        pose proof (@calls_assign_path singleSpec part (VObject o)
                      (VObject (assign o v (made a))) p Hslash Hl) as Hc.
        rewrite (@calls_assign_verb o v (made a)) in Hc
          by (try assumption; apply made_truthy).
        rewrite <- I6 with (p := p). lia.
      * rewrite calls_assign_fresh_path by assumption.
        cbn [assign]. rewrite single_calls_one by exact Hverb. rewrite I6. lia.
Qed.

Lemma counted_fold defs : forall seen st,
  Forall (fun a => routable resourceId a = true) (seen ++ defs) ->
  NoDup (map target (seen ++ defs)) ->
  counted seen st ->
  counted (seen ++ defs)
          (fold_left (fun st a => processAction controllerName opts a st) defs st).
Proof.
  induction defs as [| a rest IH]; intros seen st Hall Hnd Hc.
  - rewrite app_nil_r. exact Hc.
  - cbn [fold_left].
    replace (seen ++ a :: rest) with ((seen ++ [a]) ++ rest) in *
      by (rewrite <- app_assoc; reflexivity).
    apply IH; [exact Hall | exact Hnd |].
    apply Forall_app in Hall. destruct Hall as [Hall _].
    apply Forall_app in Hall. destruct Hall as [Hseen Ha].
    inversion Ha; subst.
    apply counted_step; try assumption.
    rewrite map_app in Hnd. apply NoDup_app_remove_r in Hnd.
    rewrite map_app in Hnd. cbn [map] in Hnd.
    apply NoDup_remove_2 in Hnd. rewrite app_nil_r in Hnd. exact Hnd.
Qed.

Lemma expand_action_fold actions st name :
  expand_action controllerName opts actions st name
  = fold_left (fun st a => processAction controllerName opts a st)
              (definitions_of actions name) st.
Proof.
  unfold expand_action, definitions_of.
  destruct (lookup actions name) as [[items | a |] |]; try reflexivity.
  destruct (inherited name); reflexivity.
Qed.

Lemma expand_fold actions allowed :
  expand controllerName opts actions allowed
  = fold_left (fun st a => processAction controllerName opts a st)
              (map snd (pairs actions allowed)) ([], []).
Proof.
  unfold expand, pairs. generalize (@nil (string * value), @nil (string * value)).
  induction allowed as [| name rest IH]; intros st; [reflexivity |].
  cbn [fold_left flat_map]. rewrite map_app, fold_left_app, IH.
  rewrite expand_action_fold. rewrite map_map. cbn [snd]. rewrite map_id.
  reflexivity.
Qed.

Lemma filter_split {A} (f : A -> bool) (l : list A) :
  (length (filter (fun a => negb (f a)) l) + length (filter f l) = length l)%nat.
Proof.
  induction l as [| a rest IH]; [reflexivity |].
  cbn [filter]. destruct (f a); cbn [negb length]; lia.
Qed.

End Counting.

Lemma slot_eqb_eq s t : slot_eqb s t = true -> s = t.
Proof.
  destruct s, t; cbn; try discriminate; intros H.
  - apply String.eqb_eq in H. congruence.
  - apply String.eqb_eq in H. congruence.
  - apply String.eqb_eq in H. congruence.
  - apply andb_true_iff in H. destruct H as [H1 H2].
    apply String.eqb_eq in H1, H2. congruence.
Qed.

Lemma slot_eqb_refl s : slot_eqb s s = true.
Proof. destruct s; cbn; rewrite ?String.eqb_refl; reflexivity. Qed.

Lemma distinct_NoDup l : distinct l = true -> NoDup l.
Proof.
  induction l as [| s rest IH]; cbn; intros H; constructor.
  - apply andb_true_iff in H. destruct H as [H _]. apply negb_true_iff in H.
    intros Hin. assert (Hex : existsb (slot_eqb s) rest = true).
    { apply existsb_exists. exists s. split; [exact Hin | apply slot_eqb_refl]. }
    congruence.
  - apply andb_true_iff in H. destruct H as [_ H]. exact (IH H).
Qed.

(** When the definitions of the allowed actions are routable and no two
    of them are written to the same slot, the traversal of the expanded
    specification has as many verb keys to call [processVerb] for as there
    are (allowed action, definition) pairs: one per pair whose definition
    does not begin with the placeholder, in the collective spec, and one
    per pair whose definition does, in the single-resource spec nested
    under [/:<resourceId>]. *)
Lemma calls_per_pair controllerName resourceId opts actions currPath :
  let defs := map snd (pairs actions (allowed_actions actions opts)) in
  forallb (routable resourceId) defs = true ->
  distinct (map target defs) = true ->
  length (verb_calls (resource_spec controllerName resourceId opts actions) currPath)
  = length (pairs actions (allowed_actions actions opts))
  /\ length (verb_calls
               (VObject (fst (expand controllerName opts actions
                                     (allowed_actions actions opts)))) currPath)
     = length (filter (fun a => negb (is_single a)) defs)
  /\ length (verb_calls
               (VObject (snd (expand controllerName opts actions
                                     (allowed_actions actions opts))))
               (inner_path currPath ("/:" ++ resourceId)))
     = length (filter is_single defs).
Proof.
  intros defs Hroutable Hdistinct.
  assert (Hall : Forall (fun a => routable resourceId a = true) defs).
  { apply Forall_forall. apply forallb_forall. exact Hroutable. }
  apply distinct_NoDup in Hdistinct.
  pose proof (@counted_fold controllerName resourceId opts defs [] ([], [])
                Hall Hdistinct counted_nil) as Hc.
  cbn [app] in Hc. unfold resource_spec.
  rewrite expand_fold. fold defs.
  revert Hc.
  match goal with
  | |- context [fold_left ?f defs ?i] => generalize (fold_left f defs i)
  end.
  intros [spec singleSpec] (I1 & _ & _ & _ & I5 & I6). cbn [fst snd] in *.
  split; [| split; [apply I5 | apply I6]].
  assert (Hfresh : lookup spec ("/:" ++ resourceId)%string = None).
  { destruct (lookup spec ("/:" ++ resourceId)%string) eqn:E; [| reflexivity].
    exfalso. destruct (I1 ("/:" ++ resourceId)%string) as [H | H]; [congruence | |].
    - apply (@seen_slot_ok resourceId defs _ Hall) in H. cbn in H. discriminate H.
    - apply (@seen_slot_ok resourceId defs _ Hall) in H. cbn [slot_ok] in H.
      rewrite String.eqb_refl, andb_false_r in H. discriminate H. }
  rewrite calls_assign_fresh_path by (exact Hfresh || reflexivity).
  rewrite I5, I6. rewrite filter_split.
  unfold defs. rewrite length_map. reflexivity.
Qed.

(* ================================================================== *)
(** * Further properties of the code *)

(** ** The error responder, once more *)

Lemma status_of_app res more :
  status_of (res ++ more)
  = match status_of more with Some s => Some s | None => status_of res end.
Proof.
  induction res as [| c rest IH]; cbn [app status_of].
  - destruct (status_of more); reflexivity.
  - rewrite IH. destruct (status_of more); reflexivity.
Qed.

Lemma type_of_app res more :
  type_of (res ++ more)
  = match type_of more with Some s => Some s | None => type_of res end.
Proof.
  induction res as [| c rest IH]; cbn [app type_of].
  - destruct (type_of more); reflexivity.
  - rewrite IH. destruct (type_of more); reflexivity.
Qed.

Lemma handleError_appends err res :
  handleError err res = res ++ handleError err [].
Proof.
  unfold handleError.
  destruct (typeof err =? "string"); [reflexivity |].
  destruct (typeof err =? "object"); [| rewrite app_nil_r; reflexivity].
  destruct (instanceof_BlueprintError err).
  - destruct (kind_of err); cbn [accept app]; rewrite <- !app_assoc; reflexivity.
  - destruct (instanceof_Error err); cbn [app]; rewrite <- !app_assoc; reflexivity.
Qed.

(** An error is answered once or not at all: a string or an object gets
    exactly one status and exactly one body, anything else gets neither,
    and what was already done to the response stays. *)
Theorem handleError_answers_once err res :
  let n := if answered err then 1%nat else 0%nat in
  count_status (handleError err res) = (count_status res + n)%nat
  /\ count_sends (handleError err res) = (count_sends res + n)%nat
  /\ exists added, handleError err res = res ++ added.
Proof.
  cbn zeta. rewrite (handleError_appends err res).
  unfold count_status, count_sends. rewrite !filter_app, !length_app.
  split; [| split; [| eexists; reflexivity]].
  - f_equal. unfold handleError, answered.
    destruct (typeof err =? "string"); [reflexivity |].
    destruct (typeof err =? "object"); [| reflexivity].
    destruct (instanceof_BlueprintError err).
    + destruct (kind_of err); reflexivity.
    + destruct (instanceof_Error err); reflexivity.
  - f_equal. unfold handleError, answered.
    destruct (typeof err =? "string"); [reflexivity |].
    destruct (typeof err =? "object"); [| reflexivity].
    destruct (instanceof_BlueprintError err).
    + destruct (kind_of err); reflexivity.
    + destruct (instanceof_Error err); reflexivity.
Qed.

(** The status and the content type an error leaves on the response: 400
    and plain text for a string; for an object JSON, with the status code
    of an [HttpError] and 500 for everything else, a typed error without a
    status code included; for any other value, what the response had. *)
Theorem handleError_status err res :
  status_of (handleError err res)
  = (if typeof err =? "string" then Some 400%Z
     else if typeof err =? "object" then
       Some match err with
            | VBlueprintError (HttpError statusCode) _ _ _ => statusCode
            | _ => 500%Z
            end
     else status_of res)
  /\ type_of (handleError err res)
     = (if typeof err =? "string" then Some "text/plain"
        else if typeof err =? "object" then Some "application/json"
        else type_of res).
Proof.
  rewrite (handleError_appends err res), status_of_app, type_of_app.
  destruct err as [| | | | | | | | | | kind c m d]; try (split; reflexivity).
  destruct kind; cbn; destruct (truthy d); split; reflexivity.
Qed.

(** ** The adapters around the functions of the application *)

Lemma react_thrown_called so_far ex :
  truthy ex = true -> react so_far (Thrown ex) = react so_far (Called ex).
Proof. intros H. cbn [react]. rewrite H. reflexivity. Qed.

Lemma run_thrown_called pre post ex so_far :
  truthy ex = true ->
  fold_left react (pre ++ Thrown ex :: post) so_far
  = fold_left react (pre ++ Called ex :: post) so_far.
Proof.
  intros H. rewrite !fold_left_app. cbn [fold_left].
  rewrite react_thrown_called by exact H. reflexivity.
Qed.

(** A truthy value thrown by the wrapped function and the same value
    passed to the callback cannot be told apart: wherever it happens in
    what the function does, the response and the continuation are the
    same, for the validation, the sanitization and the execution adapter. *)
Theorem thrown_is_answered_like_called pre post ex res :
  truthy ex = true ->
  __blueprint_validate_function (pre ++ Thrown ex :: post) res
  = __blueprint_validate_function (pre ++ Called ex :: post) res
  /\ __blueprint_sanitize (pre ++ Thrown ex :: post) res
     = __blueprint_sanitize (pre ++ Called ex :: post) res
  /\ __blueprint_execute (pre ++ Thrown ex :: post) res
     = __blueprint_execute (pre ++ Called ex :: post) res.
Proof.
  intros H.
  unfold __blueprint_validate_function, __blueprint_sanitize, __blueprint_execute.
  rewrite !run_thrown_called by exact H. repeat split.
Qed.

Lemma thrown_is_answered_like_called_witness :
  __blueprint_execute [Wrote (ResType "text/html"); Thrown (VError "boom")] []
  = __blueprint_execute [Wrote (ResType "text/html"); Called (VError "boom")] [].
Proof.
  exact (proj2 (proj2 (@thrown_is_answered_like_called
                         [Wrote (ResType "text/html")] [] (VError "boom") [] eq_refl))).
Defined.

(** A falsy value is a success only through the callback: called back with
    it, the adapter continues and sends nothing; thrown, it is handled as
    an error and the pipeline stops. *)
Theorem falsy_continues_only_when_called err res :
  truthy err = false ->
  __blueprint_validate_function [Called err] res = {| sent := res; continued := true |}
  /\ __blueprint_sanitize [Called err] res = {| sent := res; continued := true |}
  /\ __blueprint_execute [Called err] res = {| sent := res; continued := true |}
  /\ __blueprint_execute [Thrown err] res
     = {| sent := handleError err res; continued := false |}.
Proof.
  intros H.
  unfold __blueprint_validate_function, __blueprint_sanitize, __blueprint_execute.
  cbn [fold_left react sent continued]. rewrite H. repeat split.
Qed.

Lemma falsy_continues_only_when_called_witness :
  __blueprint_execute [Called VUndefined] [] = {| sent := []; continued := true |}
  /\ __blueprint_execute [Thrown (VString "")] []
     = {| sent := [ResStatus 400; ResType "text/plain"; ResSend (VString "")];
          continued := false |}.
Proof.
  split.
  - exact (proj1 (proj2 (proj2 (@falsy_continues_only_when_called VUndefined []
                                   eq_refl)))).
  - exact (proj2 (proj2 (proj2 (@falsy_continues_only_when_called (VString "") []
                                   eq_refl)))).
Defined.

(** A truthy error that is neither a string nor an object (a number, [true],
    a function, a symbol) leaves the request without an answer: nothing is
    sent and [next] is not called. *)
Theorem unanswerable_error_stalls err res :
  truthy err = true ->
  answered err = false ->
  __blueprint_validate_function [Called err] res = {| sent := res; continued := false |}
  /\ __blueprint_sanitize [Called err] res = {| sent := res; continued := false |}
  /\ __blueprint_execute [Called err] res = {| sent := res; continued := false |}
  /\ __blueprint_execute [Thrown err] res = {| sent := res; continued := false |}.
Proof.
  intros Ht Ha.
  assert (Hh : handleError err res = res).
  { unfold answered in Ha. apply orb_false_iff in Ha. destruct Ha as [H1 H2].
    unfold handleError. rewrite H1, H2. reflexivity. }
  unfold __blueprint_validate_function, __blueprint_sanitize, __blueprint_execute.
  cbn [fold_left react sent continued]. rewrite Ht, Hh. repeat split.
Qed.

Lemma unanswerable_error_stalls_witness :
  __blueprint_execute [Called (VNumber 404)] [] = {| sent := []; continued := false |}.
Proof.
  exact (proj1 (proj2 (proj2 (@unanswerable_error_stalls (VNumber 404) []
                                 eq_refl eq_refl)))).
Defined.

(** The schema adapter on the two paths that work: when the checks pass it
    calls [next] and leaves the response alone; when [req.check] throws,
    the thrown value is answered by the error responder. *)
Theorem schema_adapter_passes_or_answers construct_function schema req res :
  (check req schema = Return tt ->
   truthy (validationErrors req) = false ->
   __blueprint_validate_schema construct_function schema req res
   = {| sent := res; continued := true |})
  /\ (forall ex,
         check req schema = Throw ex ->
         __blueprint_validate_schema construct_function schema req res
         = {| sent := handleError ex res; continued := false |}).
Proof.
  split.
  - intros Hc Hv. unfold __blueprint_validate_schema. rewrite Hc, Hv. reflexivity.
  - intros ex Hc. unfold __blueprint_validate_schema. rewrite Hc. reflexivity.
Qed.

Lemma schema_adapter_passes_or_answers_witness :
  __blueprint_validate_schema (fun _ _ => Return VUndefined) VUndefined
    {| check := fun _ => Return tt; validationErrors := VBool false |} []
  = {| sent := []; continued := true |}
  /\ __blueprint_validate_schema (fun _ _ => Return VUndefined) VUndefined
       {| check := fun _ => Throw (VString "no schema"); validationErrors := VNull |} []
     = {| sent := [ResStatus 400; ResType "text/plain"; ResSend (VString "no schema")];
          continued := false |}.
Proof.
  split.
  - exact (proj1 (@schema_adapter_passes_or_answers (fun _ _ => Return VUndefined)
                    VUndefined
                    {| check := fun _ => Return tt; validationErrors := VBool false |} [])
                 eq_refl eq_refl).
  - exact (proj2 (@schema_adapter_passes_or_answers (fun _ _ => Return VUndefined)
                    VUndefined
                    {| check := fun _ => Throw (VString "no schema");
                       validationErrors := VNull |} [])
                 (VString "no schema") eq_refl).
Defined.

(** ** Action references *)

Lemma split_at_cons s : exists p rest, split_at s = p :: rest.
Proof.
  destruct s as [| c s']; cbn [split_at]; [eexists; eexists; reflexivity |].
  destruct (Ascii.eqb c "@"); [eexists; eexists; reflexivity |].
  destruct (split_at s'); eexists; eexists; reflexivity.
Qed.

Lemma join_at_cons p q rest :
  join_at (p :: q :: rest) = (p ++ "@" ++ join_at (q :: rest))%string.
Proof. reflexivity. Qed.

Lemma split_at_join s : join_at (split_at s) = s.
Proof.
  induction s as [| c s' IH]; [reflexivity |].
  cbn [split_at]. destruct (Ascii.eqb_spec c "@") as [-> | Hne].
  - destruct (split_at_cons s') as (p & rest & Hs). rewrite Hs in *.
    rewrite join_at_cons, IH. reflexivity.
  - destruct (split_at_cons s') as (p & rest & Hs). rewrite Hs in *.
    destruct rest as [| q rest'].
    + cbn [join_at] in *. rewrite IH. reflexivity.
    + rewrite join_at_cons in *. rewrite <- IH. reflexivity.
Qed.

Lemma split_at_length s : length (split_at s) = S (count_at s).
Proof.
  induction s as [| c s' IH]; [reflexivity |].
  cbn [split_at count_at]. destruct (Ascii.eqb c "@").
  - cbn [length]. rewrite IH. reflexivity.
  - destruct (split_at_cons s') as (p & rest & Hs). rewrite Hs in *.
    cbn [length] in *. rewrite IH. reflexivity.
Qed.

Lemma split_at_parts s : Forall (fun p => count_at p = 0%nat) (split_at s).
Proof.
  induction s as [| c s' IH]; [repeat constructor |].
  cbn [split_at]. destruct (Ascii.eqb c "@") eqn:E.
  - constructor; [reflexivity | exact IH].
  - destruct (split_at_cons s') as (p & rest & Hs). rewrite Hs in *.
    inversion IH; subst. constructor; [| assumption].
    cbn [count_at]. rewrite E. assumption.
Qed.

(** Splitting an action reference loses nothing: joining the parts with
    the separator gives the reference back, there is one part more than
    there are separators, and no part holds a separator. *)
Theorem split_at_round_trip s :
  join_at (split_at s) = s
  /\ length (split_at s) = S (count_at s)
  /\ Forall (fun p => count_at p = 0%nat) (split_at s).
Proof.
  split; [apply split_at_join | split; [apply split_at_length | apply split_at_parts]].
Qed.

Lemma split_at_plain s : count_at s = 0%nat -> split_at s = [s].
Proof.
  induction s as [| c s' IH]; [reflexivity |].
  cbn [split_at count_at]. destruct (Ascii.eqb c "@"); [discriminate |].
  cbn [Nat.add]. intros H. rewrite (IH H). reflexivity.
Qed.

Lemma split_at_pair c m :
  count_at c = 0%nat -> split_at (c ++ "@" ++ m) = c :: split_at m.
Proof.
  induction c as [| a c' IH]; [reflexivity |].
  change (String a c' ++ "@" ++ m)%string with (String a (c' ++ "@" ++ m)).
  cbn [split_at count_at]. destruct (Ascii.eqb a "@"); [discriminate |].
  cbn [Nat.add]. intros H. rewrite (IH H). reflexivity.
Qed.

Section Resolving.

Variable controllers : string -> option controller.

Lemma resolveController_split action :
  resolveController controllers (VString action)
  = if (2 <=? count_at action)%nat
    then Throw (Error ("invalid action format [" ++ action ++ "]"))
    else resolved controllers (hd "" (split_at action))
                  (if (count_at action =? 1)%nat then nth 1 (split_at action) ""
                   else SINGLE_ACTION_CONTROLLER_METHOD).
Proof.
  unfold resolveController, resolved. rewrite split_at_length.
  destruct (count_at action) as [| [| n]]; reflexivity.
Qed.

(** A reference is rejected for its format exactly when it holds more
    than one separator. *)
Theorem resolveController_format action :
  (2 <= count_at action)%nat
  <-> resolveController controllers (VString action)
      = Throw (Error ("invalid action format [" ++ action ++ "]")).
Proof.
  rewrite resolveController_split. split.
  - intros H. apply Nat.leb_le in H. rewrite H. reflexivity.
  - destruct (2 <=? count_at action)%nat eqn:E; [intros _; apply Nat.leb_le; exact E |].
    unfold resolved. intros H.
    destruct (controllers _); [destruct (member_of _ _) |]; discriminate H.
Qed.

(** A reference [name@method] whose two parts hold no separator is
    looked up under exactly these names, and a reference without a
    separator under the reserved method [__invoke]: a registry that lacks
    the controller gives the error that names it, a controller that lacks
    the method the error that names both, and otherwise the member is
    returned. *)
Theorem resolveController_names controllerName methodName :
  count_at controllerName = 0%nat ->
  count_at methodName = 0%nat ->
  resolveController controllers (VString (controllerName ++ "@" ++ methodName))
  = resolved controllers controllerName methodName
  /\ resolveController controllers (VString controllerName)
     = resolved controllers controllerName SINGLE_ACTION_CONTROLLER_METHOD.
Proof.
  intros Hc Hm. unfold resolveController, resolved. 
  rewrite (@split_at_pair controllerName methodName Hc), (@split_at_plain methodName Hm), (@split_at_plain controllerName Hc).
  split; reflexivity.
Qed.

(** The action [makeAction] writes resolves to the method it was made
    for, as long as neither name holds a separator; a method name that
    holds one makes a reference that is rejected. *)
Theorem makeAction_resolves controllerName methodName options :
  count_at controllerName = 0%nat ->
  (count_at methodName = 0%nat ->
   resolveController controllers
     (get (makeAction controllerName methodName options) "action")
   = resolved controllers controllerName methodName)
  /\ ((1 <= count_at methodName)%nat ->
      resolveController controllers
        (get (makeAction controllerName methodName options) "action")
      = Throw (Error ("invalid action format ["
                      ++ (controllerName ++ "@" ++ methodName) ++ "]"))).
Proof.
  intros Hc.
  assert (Hget : get (makeAction controllerName methodName options) "action"
                 = VString (controllerName ++ "@" ++ methodName)).
  { unfold makeAction. destruct (truthy options); reflexivity. }
  rewrite Hget. split.
  - intros Hm. rewrite resolveController_split.
    assert (Hn : count_at (controllerName ++ "@" ++ methodName) = 1%nat).
    { pose proof (split_at_length (controllerName ++ "@" ++ methodName)) as Hl.
      rewrite (@split_at_pair controllerName methodName Hc),
        (@split_at_plain methodName Hm) in Hl.
      cbn [length] in Hl. lia. }
    rewrite Hn. cbn [Nat.leb Nat.eqb].
    rewrite (@split_at_pair controllerName methodName Hc),
      (@split_at_plain methodName Hm).
    reflexivity.
  - intros Hm. apply resolveController_format.
    pose proof (split_at_length (controllerName ++ "@" ++ methodName)) as Hl.
    rewrite (@split_at_pair controllerName methodName Hc) in Hl. cbn [length] in Hl.
    rewrite split_at_length in Hl. lia.
Qed.

End Resolving.

Lemma resolveController_names_witness :
  resolveController message_registry (VString "Ghost@doThing")
  = Throw (Error "controller Ghost not found")
  /\ resolveController message_registry (VString "Message")
     = Throw (Error "controller Message does not define method __invoke").
Proof.
  split.
  - exact (proj1 (@resolveController_names message_registry "Ghost" "doThing"
                    eq_refl eq_refl)).
  - exact (proj2 (@resolveController_names message_registry "Message" "post"
                    eq_refl eq_refl)).
Defined.

Lemma makeAction_resolves_witness :
  exists f,
    resolveController message_registry
      (get (makeAction "Message" "getAll" VUndefined) "action") = Return (Method f).
Proof.
  eexists.
  exact (proj1 (@makeAction_resolves message_registry "Message" "getAll" VUndefined
                  eq_refl) eq_refl).
Defined.

(** ** Parameters, once more *)

Lemma not_cached_not_in param b : is_cached param b = false -> ~ In param (_params b).
Proof.
  unfold is_cached. intros H Hin.
  assert (Hex : existsb (String.eqb param) (_params b) = true).
  { apply existsb_exists. exists param. split; [exact Hin | apply String.eqb_refl]. }
  congruence.
Qed.

Section ParameterInvariants.

Variable controllers : string -> option controller.

(** A call that throws never puts the name in the cache, so the parameter
    can still be registered by a later call.  Either the builder is as it
    was, or the throw is the router primitive's: it has received the one
    call it rejected, for a handler that is not a function, and nothing
    else has changed. *)
Theorem addParameter_failure_keeps_cache param opts override b :
  match addParameter controllers param opts override b with
  | (Throw ex, b') =>
      _params b' = _params b
      /\ arrays b' = arrays b
      /\ (b' = b
          \/ exists handler,
              isFunction handler = false
              /\ rejection (Param (slice 1 param) handler) = Some ex
              /\ _router b' = _router b ++ [Param (slice 1 param) handler])
  | (Return _, _) => True
  end.
Proof.
  destruct (is_cached param b && negb override) eqn:Hk.
  - apply andb_true_iff in Hk. destruct Hk as [Hc Ho].
    apply negb_true_iff in Ho. subst override.
    rewrite (addParameter_known controllers param opts b Hc). exact I.
  - pose proof (addParameter_settled controllers param opts override b Hk) as Hs.
    destruct (parameter_handler controllers param opts) as [handler | ex].
    + cbn zeta in Hs. destruct Hs as (b' & -> & Hr & Hp & Ha).
      destruct (is_nullish handler); [exact I |].
      unfold reply in *.
      destruct (rejection (Param (slice 1 param) handler)) as [ex |] eqn:Hrej;
        [| exact I].
      split; [exact Hp | split; [exact Ha |]].
      right. exists handler. split; [| split; [exact Hrej | exact Hr]].
      destruct (isFunction handler) eqn:Hf; [| reflexivity].
      cbn [rejection] in Hrej. rewrite Hf in Hrej. discriminate Hrej.
    + rewrite Hs. split; [reflexivity | split; [reflexivity | left; reflexivity]].
Qed.

(** The action of a parameter returns the number 5: the router primitive
    rejects it, and the name is not in the cache. *)
Example addParameter_rejected_handler :
  addParameter ticket_registry ":id" (VObject [("action", VString "Ticket@byId")])
               false new_builder
  = (Throw (Error "invalid param() call for id, got 5"),
     {| _router := [Param "id" (VNumber 5)]; _params := [];
        arrays := arrays new_builder |}).
Proof. reflexivity. Qed.

(** Whatever the call and however it ends, the cache keeps holding every
    name once, and the router primitive has been handed at most one more
    call, after those it had. *)
Theorem addParameter_keeps_cache_distinct param opts override b :
  NoDup (_params b) ->
  let b' := snd (addParameter controllers param opts override b) in
  NoDup (_params b')
  /\ exists added, _router b' = _router b ++ added /\ (length added <= 1)%nat.
Proof.
  intros Hnd. cbn zeta.
  destruct (is_cached param b && negb override) eqn:Hk.
  - apply andb_true_iff in Hk. destruct Hk as [Hc Ho].
    apply negb_true_iff in Ho. subst override.
    rewrite (addParameter_known controllers param opts b Hc). cbn [snd].
    split; [exact Hnd |]. exists []. rewrite app_nil_r. split; [reflexivity | cbn; lia].
  - pose proof (addParameter_settled controllers param opts override b Hk) as Hs.
    destruct (parameter_handler controllers param opts) as [handler | ex].
    + cbn zeta in Hs. destruct Hs as (b' & -> & Hr & Hp & _). cbn [snd]. split.
      * rewrite Hp.
        match goal with
        | |- context [match ?o with Return _ => _ | Throw _ => _ end] =>
            destruct o; [| exact Hnd]
        end.
        destruct (is_cached param b) eqn:Hc; [exact Hnd |].
        apply NoDup_app; [exact Hnd | repeat constructor; intros [] |].
        intros x Hx [<- | []]. exact (not_cached_not_in _ _ Hc Hx).
      * rewrite Hr. eexists. split; [reflexivity |].
        destruct (is_nullish handler); cbn; lia.
    + rewrite Hs. cbn [snd]. split; [exact Hnd |].
      exists []. rewrite app_nil_r. split; [reflexivity | cbn; lia].
Qed.

(** When the action of a parameter returns [null] or [undefined], the
    call returns without handing anything to the router primitive, yet
    the name is in the cache: any later call without override, whatever
    handler it brings, is ignored. *)
Theorem addParameter_without_handler_blocks_name param opts override b handler :
  is_cached param b && negb override = false ->
  parameter_handler controllers param opts = Return handler ->
  is_nullish handler = true ->
  exists b',
    addParameter controllers param opts override b = (Return tt, b')
    /\ _router b' = _router b
    /\ forall opts', addParameter controllers param opts' false b' = (Return tt, b').
Proof.
  intros Hk Hh Hn.
  pose proof (addParameter_settled controllers param opts override b Hk) as Hs.
  rewrite Hh in Hs. cbn zeta in Hs. rewrite Hn in Hs.
  destruct Hs as (b' & Hrun & Hr & _).
  exists b'. split; [exact Hrun |]. split.
  - rewrite Hr. apply app_nil_r.
  - intros opts'. apply addParameter_known.
    exact (addParameter_caches controllers param opts override b Hrun).
Qed.

End ParameterInvariants.

Lemma addParameter_keeps_cache_distinct_witness :
  NoDup (_params (snd (addParameter no_controllers ":id" (VFunction "load") false
                                    new_builder)))
  /\ exists added,
      _router (snd (addParameter no_controllers ":id" (VFunction "load") false
                                 new_builder))
      = _router new_builder ++ added /\ (length added <= 1)%nat.
Proof.
  exact (@addParameter_keeps_cache_distinct no_controllers ":id" (VFunction "load")
           false new_builder (NoDup_nil string)).
Defined.

Lemma addParameter_without_handler_blocks_name_witness :
  exists b',
    addParameter silent_registry ":id" (VObject [("action", VString "Silent@load")])
                 false new_builder = (Return tt, b')
    /\ _router b' = []
    /\ forall opts', addParameter silent_registry ":id" opts' false b' = (Return tt, b').
Proof.
  exact (@addParameter_without_handler_blocks_name silent_registry ":id"
           (VObject [("action", VString "Silent@load")]) false new_builder VUndefined
           eq_refl eq_refl eq_refl).
Defined.

(** ** Verb handlers, once more *)

Section VerbHandlerInvariants.

Variable controllers : string -> option controller.
Variable router_verb : string -> bool.
Variable inspect : value -> string.

Ltac split_cases :=
  repeat (cbv beta iota zeta;
          match goal with
          | |- context [match ?x with Some _ => _ | None => _ end] => destruct x
          | |- context [if ?c then _ else _] => destruct c
          | |- context [match resolveController ?c ?a with _ => _ end] =>
              destruct (resolveController c a)
          | |- context [match invoke ?m ?a with _ => _ end] => destruct (invoke m a)
          | |- context [match ?h with HookArray _ => _ | HookValue _ => _ end] =>
              destruct h
          end).


(** Verbs are matched without regard to case: two spellings with the same
    lower-case form either both fail or both succeed, and when they
    succeed they leave the builder in the same state, the registration
    being made under the lower-case form. *)
Theorem defineVerbHandler_ignores_case verb verb' path opts b :
  toLowerCase verb = toLowerCase verb' ->
  match defineVerbHandler controllers router_verb inspect verb path opts b,
        defineVerbHandler controllers router_verb inspect verb' path opts b with
  | (Return _, b1), (Return _, b2) => b1 = b2
  | (Throw _, _), (Throw _, _) => True
  | _, _ => False
  end.
Proof.
  intros Hcase. destruct opts as [act vw bef aft optv].
  cbv beta iota zeta delta
      [defineVerbHandler bind lift push contents spread read_array store_array
       router_call_ throw ret action view before after options].
  rewrite Hcase.
  split_cases; cbv beta iota zeta; try exact I; reflexivity.
Qed.

(** A node with a truthy action never renders: its view, whatever it is,
    plays no part. *)
Theorem defineVerbHandler_action_before_view verb path act vw vw' bef aft optv :
  truthy act = true ->
  defineVerbHandler controllers router_verb inspect verb path
    {| action := act; view := vw; before := bef; after := aft; options := optv |}
  = defineVerbHandler controllers router_verb inspect verb path
      {| action := act; view := vw'; before := bef; after := aft; options := optv |}.
Proof.
  intros Ht.
  assert (Hu : is_undefined act = false) by (destruct act; try reflexivity; discriminate Ht).
  unfold defineVerbHandler. cbn [action view before after options].
  rewrite Hu, Ht. reflexivity.
Qed.

End VerbHandlerInvariants.

(** A node whose [after] is a string: the router primitive rejects the
    pipeline, after the handler of the action has been pushed onto the
    [before] array of the node. *)
Example defineVerbHandler_rejected_hook :
  let run := defineVerbHandler message_registry http_verbs (fun _ => "") "get"
                               "/messages" audited_node message_builder in
  (exists message, fst run = Throw (Error message))
  /\ _router (snd run)
     = [Route "get" "/messages"
              [Given (VFunction "auth"); Given (VFunction "list");
               Given (VString "audit")]]
  /\ arrays message_builder 0%nat = [Given (VFunction "auth")]
  /\ arrays (snd run) 0%nat = [Given (VFunction "auth"); Given (VFunction "list")].
Proof. cbv zeta. split; [eexists | split; [| split]]; reflexivity. Qed.

Lemma defineVerbHandler_ignores_case_witness :
  snd (defineVerbHandler message_registry http_verbs (fun _ => "") "GET" "/messages"
                         get_node message_builder)
  = snd (defineVerbHandler message_registry http_verbs (fun _ => "") "get" "/messages"
                           get_node message_builder).
Proof.
  pose proof (@defineVerbHandler_ignores_case message_registry http_verbs (fun _ => "")
                "GET" "get" "/messages" get_node message_builder eq_refl) as H.
  cbv in H |- *. exact H.
Defined.

Lemma defineVerbHandler_action_before_view_witness :
  defineVerbHandler message_registry http_verbs (fun _ => "") "get" "/messages"
    {| action := VString "Message@getAll"; view := VString "index.pug";
       before := None; after := HookValue VUndefined; options := VUndefined |}
  = defineVerbHandler message_registry http_verbs (fun _ => "") "get" "/messages"
      {| action := VString "Message@getAll"; view := VUndefined;
         before := None; after := HookValue VUndefined; options := VUndefined |}.
Proof.
  exact (@defineVerbHandler_action_before_view message_registry http_verbs (fun _ => "")
           "get" "/messages" (VString "Message@getAll") (VString "index.pug") VUndefined
           None (HookValue VUndefined) VUndefined eq_refl).
Defined.

(** ** Resources, once more *)

Section ResourceGuards.

Variable controllers : string -> option controller.
Variable resume : value -> string -> M unit.

(** A resource whose controller has no [resourceId], or an empty one, is
    rejected before anything is expanded: an error is thrown, the call of
    line 357 is not made, and the builder is left as it was, whatever
    else the node says. *)
Theorem defineResource_needs_resourceId path opts name ctrl b :
  controller_name opts = Some name ->
  controllers name = Some ctrl ->
  nonempty (resourceId ctrl) = false ->
  exists message,
    defineResource controllers resume path opts b = (Throw (Error message), b).
Proof.
  intros Hn Hc Hr. unfold defineResource. rewrite Hn.
  destruct (negb (nonempty (Some name))); [eexists; reflexivity |].
  rewrite Hc. destruct (actions ctrl); [| eexists; reflexivity].
  rewrite Hr. eexists; reflexivity.
Qed.

End ResourceGuards.

Lemma defineResource_needs_resourceId_witness :
  exists message,
    defineResource tag_registry (fun spec path => router_call_ (Use path spec))
                   "/tags"
                   {| controller_name := Some "Tag"; allow := None; deny := None;
                      resource_opts := VUndefined |} new_builder
    = (Throw (Error message), new_builder).
Proof.
  exact (@defineResource_needs_resourceId tag_registry
           (fun spec path => router_call_ (Use path spec)) "/tags"
           {| controller_name := Some "Tag"; allow := None; deny := None;
              resource_opts := VUndefined |} "Tag" tag_controller new_builder
           eq_refl eq_refl eq_refl).
Defined.

(** The controller [Tag] has its actions, so the error is the one of line
    289. *)
Example missing_resourceId_message :
  actions tag_controller = Some crud_actions
  /\ defineResource tag_registry (fun spec path => router_call_ (Use path spec))
                    "/tags"
                    {| controller_name := Some "Tag"; allow := None; deny := None;
                       resource_opts := VUndefined |} new_builder
     = (Throw (Error "Tag must define resourceId property"), new_builder).
Proof. split; reflexivity. Qed.

Lemma remove_first_filter x l :
  NoDup l -> remove_first x l = filter (fun y => negb (y =? x)) l.
Proof.
  induction l as [| y rest IH]; intros Hnd; [reflexivity |].
  inversion Hnd as [| ? ? Hy Hrest]; subst.
  cbn [remove_first filter]. destruct (String.eqb_spec y x) as [-> | Hne]; cbn [negb].
  - symmetry. apply forallb_filter_id. apply forallb_forall. intros z Hz.
    destruct (String.eqb_spec z x) as [-> | _]; [contradiction | reflexivity].
  - rewrite (IH Hrest). reflexivity.
Qed.

Lemma filter_twice {A} (f g : A -> bool) l :
  filter f (filter g l) = filter (fun x => g x && f x) l.
Proof.
  induction l as [| x rest IH]; [reflexivity |].
  cbn [filter]. destruct (g x); cbn [filter andb]; [destruct (f x) |]; rewrite IH;
    reflexivity.
Qed.

Lemma deny_loop_filter denied : forall allowed,
  NoDup allowed ->
  NoDup denied ->
  incl denied allowed ->
  fold_left (fun allowed name => splice allowed (indexOf allowed name)) denied allowed
  = filter (not_denied denied) allowed.
Proof.
  induction denied as [| d rest IH]; intros allowed Hnd Hdenied Hincl.
  - cbn [fold_left]. symmetry. apply forallb_filter_id. apply forallb_forall.
    intros; reflexivity.
  - cbn [fold_left]. inversion Hdenied as [| ? ? Hd Hrest]; subst.
    assert (Hin : In d allowed) by (apply Hincl; left; reflexivity).
    rewrite (splice_known _ _ Hin), (remove_first_filter d Hnd).
    rewrite IH.
    + rewrite filter_twice. apply filter_ext. intros y.
      unfold not_denied. cbn [existsb].
      rewrite negb_orb. reflexivity.
    + apply NoDup_filter. exact Hnd.
    + exact Hrest.
    + intros x Hx. apply filter_In. split; [apply Hincl; right; exact Hx |].
      destruct (String.eqb_spec x d) as [-> | _]; [contradiction | reflexivity].
Qed.

(** With a deny list and no allow list, when the denied names are keys of
    the actions and none is listed twice, the allowed names are the keys
    of the actions in their order, without the denied ones. *)
Theorem deny_filters_the_keys actions opts denied :
  allow opts = None ->
  deny opts = Some denied ->
  NoDup (map fst actions) ->
  NoDup denied ->
  incl denied (map fst actions) ->
  allowed_actions actions opts = filter (not_denied denied) (map fst actions).
Proof.
  intros Ha Hd Hkeys Hdenied Hincl. unfold allowed_actions. rewrite Ha, Hd.
  apply deny_loop_filter; assumption.
Qed.

Lemma deny_filters_the_keys_witness :
  allowed_actions crud_actions (deny_only ["update"; "create"])
  = ["getAll"; "get"; "delete"].
Proof.
  assert (Hkeys : NoDup (map fst crud_actions)).
  { repeat constructor; cbn; intros H;
      repeat (destruct H as [H | H]; [discriminate H |]); exact H. }
  assert (Hdenied : NoDup ["update"; "create"]).
  { repeat constructor; cbn; intros H;
      repeat (destruct H as [H | H]; [discriminate H |]); exact H. }
  assert (Hincl : incl ["update"; "create"] (map fst crud_actions)).
  { intros x [<- | [<- | []]]; cbn; tauto. }
  exact (@deny_filters_the_keys crud_actions (deny_only ["update"; "create"])
           ["update"; "create"] eq_refl eq_refl Hkeys Hdenied Hincl).
Defined.

Section Expanding.

Variable controllerName : string.
Variable opts : resource_options.

Lemma expand_from_ignores_unknown actions allowed : forall st,
  fold_left (expand_action controllerName opts actions) allowed st
  = fold_left (expand_action controllerName opts actions)
              (filter (is_action actions) allowed) st.
Proof.
  induction allowed as [| name rest IH]; intros st; [reflexivity |].
  cbn [fold_left filter]. unfold is_action at 1.
  destruct (lookup actions name) as [entry |] eqn:Hl; cbn [present orb].
  - cbn [fold_left]. apply IH.
  - destruct (inherited name) eqn:Hi; [cbn [fold_left]; apply IH |].
    rewrite <- IH. f_equal. unfold expand_action. rewrite Hl, Hi. reflexivity.
Qed.

(** With an allow list and no deny list, the allowed names are the list as
    given, in its order.  A name in it that is neither a key of the
    actions nor the name of a member every object inherits ([constructor],
    [toString], ...) is passed over in silence: the expansion is that of
    the list without such names.  An inherited name that is no key is not
    passed over: it is expanded as a definition without path, verb and
    method, bound at the collective key [undefined]. *)
Theorem allow_ignores_unknown_names actions allowed :
  allow opts = Some allowed ->
  deny opts = None ->
  allowed_actions actions opts = allowed
  /\ expand controllerName opts actions (allowed_actions actions opts)
     = expand controllerName opts actions (filter (is_action actions) allowed)
  /\ forall name st,
      lookup actions name = None ->
      expand_action controllerName opts actions st name
      = if inherited name
        then (assign (fst st) "undefined"
                     (makeAction controllerName "undefined" (resource_opts opts)),
              snd st)
        else st.
Proof.
  intros Ha Hd.
  assert (H : allowed_actions actions opts = allowed).
  { unfold allowed_actions. rewrite Ha, Hd. reflexivity. }
  split; [exact H |]. split.
  - rewrite H. unfold expand. apply expand_from_ignores_unknown.
  - intros name [spec singleSpec] Hl. unfold expand_action. rewrite Hl.
    destruct (inherited name); reflexivity.
Qed.

(** The expanded specification is the collective spec with the
    single-resource spec held at [/:<resourceId>]: that key reads the
    single-resource spec, whatever the collective spec had there, and
    every other key reads as in the collective spec. *)
Theorem resource_spec_nests_single resourceId actions :
  let st := expand controllerName opts actions (allowed_actions actions opts) in
  get (resource_spec controllerName resourceId opts actions) ("/:" ++ resourceId)
  = VObject (snd st)
  /\ forall k, k <> ("/:" ++ resourceId)%string ->
               get (resource_spec controllerName resourceId opts actions) k
               = get (VObject (fst st)) k.
Proof.
  cbn zeta. unfold resource_spec.
  destruct (expand controllerName opts actions (allowed_actions actions opts))
    as [spec singleSpec].
  cbn [fst snd get]. split.
  - rewrite lookup_assign_same. reflexivity.
  - intros k Hk. rewrite lookup_assign_other by congruence. reflexivity.
Qed.

Lemma slot_eqb_false s t : slot_eqb s t = false -> s <> t.
Proof. intros H ->. rewrite slot_eqb_refl in H. discriminate H. Qed.

Lemma processAction_leaves_key k d st :
  leaves_key k d = true ->
  lookup (fst (processAction controllerName opts d st)) k = lookup (fst st) k.
Proof.
  unfold leaves_key. intros H. apply andb_true_iff in H. destruct H as [H1 H2].
  apply negb_true_iff in H1, H2. apply slot_eqb_false in H1, H2.
  destruct st as [spec singleSpec]. unfold processAction, target in *.
  destruct (nonempty (path d)).
  - destruct (startsWith _ SINGLE_RESOURCE_BASE_PATH).
    + destruct (String.length _ =? 0)%nat; reflexivity.
    + cbn [fst]. rewrite !lookup_assign_other by congruence. reflexivity.
  - cbn [fst]. rewrite lookup_assign_other by congruence. reflexivity.
Qed.

Lemma fold_leaves_key k later : forall st,
  forallb (leaves_key k) later = true ->
  lookup (fst (fold_left (fun st d => processAction controllerName opts d st) later st)) k
  = lookup (fst st) k.
Proof.
  induction later as [| d rest IH]; intros st H; [reflexivity |].
  cbn [forallb] in H. apply andb_true_iff in H. destruct H as [Hd Hrest].
  cbn [fold_left]. rewrite (IH _ Hrest). apply processAction_leaves_key. exact Hd.
Qed.

(** Of the definitions written to a verb of the collection root, the last
    one wins: whatever was expanded before it, the verb reads the action
    made for it, as long as no later definition is written to the same
    verb or to a literal path spelled like it. *)
Theorem last_definition_wins earlier a later v :
  target a = AtRoot v ->
  forallb (leaves_key v) later = true ->
  lookup (fst (fold_left (fun st d => processAction controllerName opts d st)
                         (earlier ++ a :: later) ([], []))) v
  = Some (makeAction controllerName (method a) (resource_opts opts)).
Proof.
  intros Ht Hlater. rewrite fold_left_app. cbn [fold_left].
  rewrite (fold_leaves_key _ _ _ Hlater).
  match goal with
  | |- context [fold_left ?f earlier ?i] => destruct (fold_left f earlier i)
      as [spec singleSpec]
  end.
  pose proof (target_verb a) as Hv. rewrite Ht in Hv. subst v.
  unfold processAction. unfold target in Ht.
  destruct (nonempty (path a)).
  - destruct (startsWith _ SINGLE_RESOURCE_BASE_PATH);
      [destruct (String.length _ =? 0)%nat |]; discriminate Ht.
  - cbn [fst]. apply lookup_assign_same.
Qed.

End Expanding.

Lemma allow_ignores_unknown_names_witness :
  let opts := {| controller_name := Some "Person";
                 allow := Some ["get"; "count"; "constructor"];
                 deny := None; resource_opts := VUndefined |} in
  allowed_actions crud_actions opts = ["get"; "count"; "constructor"]
  /\ expand "Person" opts crud_actions (allowed_actions crud_actions opts)
     = expand "Person" opts crud_actions ["get"; "constructor"]
  /\ expand "Person" opts crud_actions (allowed_actions crud_actions opts)
     = ([("undefined", VObject [("action", VString "Person@undefined")])],
        [("get", VObject [("action", VString "Person@get")])]).
Proof.
  pose proof (@allow_ignores_unknown_names "Person"
                {| controller_name := Some "Person";
                   allow := Some ["get"; "count"; "constructor"];
                   deny := None; resource_opts := VUndefined |}
                crud_actions ["get"; "count"; "constructor"] eq_refl eq_refl) as H.
  split; [exact (proj1 H) | split; [exact (proj1 (proj2 H)) | reflexivity]].
Defined.

Lemma last_definition_wins_witness :
  lookup (fst (fold_left (fun st d => processAction "Person" no_lists d st)
                         [{| verb := "post"; path := None; method := "create" |};
                          {| verb := "post"; path := None; method := "upsert" |};
                          {| verb := "get"; path := Some "/count"; method := "count" |}]
                         ([], []))) "post"
  = Some (VObject [("action", VString "Person@upsert")]).
Proof.
  exact (@last_definition_wins "Person" no_lists
           [{| verb := "post"; path := None; method := "create" |}]
           {| verb := "post"; path := None; method := "upsert" |}
           [{| verb := "get"; path := Some "/count"; method := "count" |}]
           "post" eq_refl eq_refl).
Defined.

(** ** Paths *)

Lemma append_assoc_ (a b c : string) : ((a ++ b) ++ c = a ++ b ++ c)%string.
Proof. induction a as [| x a' IH]; cbn; [reflexivity | rewrite IH; reflexivity]. Qed.

Lemma append_empty_r (a : string) : (a ++ "" = a)%string.
Proof. induction a as [| x a' IH]; cbn; [reflexivity | rewrite IH; reflexivity]. Qed.

Lemma strip_slash_ends s :
  endsWithChar s "/" = true -> s = (strip_slash s ++ "/")%string.
Proof.
  induction s as [| c rest IH]; [discriminate |].
  destruct rest as [| d rest'].
  - cbn. destruct (Ascii.eqb_spec c "/") as [-> | _]; [reflexivity | discriminate].
  - intros H. change (endsWithChar (String d rest') "/" = true) in H.
    change (strip_slash (String c (String d rest')))
      with (String c (strip_slash (String d rest'))).
    cbn [String.append]. rewrite <- (IH H). reflexivity.
Qed.

Lemma strip_slash_keeps s :
  endsWithChar s "/" = false -> strip_slash s = s.
Proof.
  induction s as [| c rest IH]; [reflexivity |].
  destruct rest as [| d rest'].
  - cbn. destruct (Ascii.eqb c "/"); [discriminate | reflexivity].
  - intros H. change (endsWithChar (String d rest') "/" = false) in H.
    change (strip_slash (String c (String d rest')))
      with (String c (strip_slash (String d rest'))).
    rewrite (IH H). reflexivity.
Qed.

(** A nested key is joined to the current path with exactly one slash:
    the path loses the slash it may end with, and the key, which begins
    with one, follows. *)
Theorem inner_path_one_slash currPath rest :
  inner_path currPath (String "/" rest) = (strip_slash currPath ++ "/" ++ rest)%string.
Proof.
  unfold inner_path. destruct (endsWithChar currPath "/") eqn:E.
  - cbn [slice]. rewrite (strip_slash_ends _ E) at 1.
    rewrite append_assoc_. reflexivity.
  - rewrite (strip_slash_keeps _ E). reflexivity.
Qed.

Lemma strip_slash_append a b :
  b <> "" -> strip_slash (a ++ b) = (a ++ strip_slash b)%string.
Proof.
  intros Hb. induction a as [| c a' IH]; [reflexivity |].
  cbn [String.append]. destruct (a' ++ b)%string as [| d t] eqn:E.
  - destruct a'; cbn in E; [contradiction | discriminate].
  - change (strip_slash (String c (String d t))) with (String c (strip_slash (String d t))).
    rewrite IH. reflexivity.
Qed.

(** Joining is associative on keys: nesting a key under a key under a
    path gives the path that the joined keys give under it. *)
Theorem inner_path_assoc currPath rest1 rest2 :
  inner_path (inner_path currPath (String "/" rest1)) (String "/" rest2)
  = inner_path currPath (inner_path (String "/" rest1) (String "/" rest2)).
Proof.
  rewrite !inner_path_one_slash.
  assert (Hk : exists t, (strip_slash (String "/" rest1) ++ "/" ++ rest2)%string
                         = String "/" t).
  { destruct rest1; cbn; eexists; reflexivity. }
  destruct Hk as (t & Hk). rewrite Hk, inner_path_one_slash.
  change ("/" ++ t)%string with (String "/" t). rewrite <- Hk.
  change ("/" ++ rest1)%string with (String "/" rest1).
  rewrite strip_slash_append by discriminate.
  rewrite !append_assoc_. reflexivity.
Qed.

(** ** The polyfill of [endsWith] *)

Lemma length_append_ (a b : string) :
  String.length (a ++ b) = (String.length a + String.length b)%nat.
Proof. induction a as [| x a' IH]; cbn; [reflexivity | rewrite IH; reflexivity]. Qed.

Lemma prefix_split p s : String.prefix p s = true -> exists t, s = (p ++ t)%string.
Proof.
  revert s. induction p as [| c p' IH]; intros s H.
  - exists s. reflexivity.
  - destruct s as [| d s']; [discriminate H |]. cbn in H.
    destruct (ascii_dec c d) as [-> | _]; [| discriminate H].
    destruct (IH s' H) as (t & ->). exists t. reflexivity.
Qed.

Lemma prefix_append p t : String.prefix p (p ++ t) = true.
Proof.
  induction p as [| c p' IH]; [destruct t; reflexivity |].
  cbn. destruct (ascii_dec c c) as [_ | Hne]; [exact IH | contradiction].
Qed.

Lemma slice_append a b : slice (String.length a) (a ++ b) = b.
Proof. induction a as [| x a' IH]; [destruct b; reflexivity | exact IH]. Qed.

Lemma slice_length n : forall s, String.length (slice n s) = (String.length s - n)%nat.
Proof.
  induction n as [| n' IH]; intros s; [cbn; lia |].
  destruct s as [| c s']; [reflexivity | cbn; apply IH].
Qed.

Lemma slice_slice n : forall m s, slice m (slice n s) = slice (n + m) s.
Proof.
  induction n as [| n' IH]; intros m s; [reflexivity |].
  destruct s as [| c s']; [destruct m; reflexivity | cbn; apply IH].
Qed.

Lemma slice_parts n : forall s,
  (n <= String.length s)%nat -> exists a, s = (a ++ slice n s)%string.
Proof.
  induction n as [| n' IH]; intros s H; [exists ""; reflexivity |].
  destruct s as [| c s']; [cbn in H; lia |].
  cbn in H. destruct (IH s') as (a & Ha); [lia |].
  exists (String c a). cbn. rewrite <- Ha. reflexivity.
Qed.

Lemma index_at_here search s k :
  String.prefix search s = true -> index_at search s k = Z.of_nat k.
Proof. intros H. destruct s; cbn [index_at]; rewrite H; reflexivity. Qed.

Lemma index_at_found search : forall s k,
  index_at search s k <> (-1)%Z ->
  exists j, String.prefix search (slice j s) = true.
Proof.
  induction s as [| c s' IH]; intros k H.
  - cbn [index_at] in H. destruct (String.prefix search "") eqn:E; [| contradiction].
    exists 0%nat. exact E.
  - cbn [index_at] in H. destruct (String.prefix search (String c s')) eqn:E.
    + exists 0%nat. exact E.
    + destruct (IH (S k) H) as (j & Hj). exists (S j). exact Hj.
Qed.

(** The [endsWith] that is installed where the platform has none answers
    as the name says: true exactly when the string is some string followed
    by the suffix, the empty suffix and a suffix longer than the string
    included. *)
Theorem endsWith_is_suffix s suffix :
  endsWith s suffix = true <-> exists before, s = (before ++ suffix)%string.
Proof.
  unfold endsWith, string_indexOf. split.
  - intros H. apply negb_true_iff in H. apply Z.eqb_neq in H.
    apply index_at_found in H. destruct H as (j & Hj).
    rewrite slice_slice in Hj. apply prefix_split in Hj. destruct Hj as (t & Ht).
    pose proof (f_equal String.length Ht) as Hlen.
    rewrite slice_length, length_append_ in Hlen.
    set (len := String.length s) in *. set (slen := String.length suffix) in *.
    assert (Hstart : Z.to_nat (Z.min (Z.max (Z.of_nat len - Z.of_nat slen) 0)
                                     (Z.of_nat len)) = (len - slen)%nat) by lia.
    rewrite Hstart in Ht, Hlen.
    destruct slen as [| n] eqn:Es.
    + exists s. destruct suffix; [| discriminate Es]. symmetry. apply append_empty_r.
    + assert (Hj0 : j = 0%nat) by lia. assert (Ht0 : String.length t = 0%nat) by lia.
      destruct t; [| discriminate Ht0]. subst j.
      rewrite Nat.add_0_r, append_empty_r in Ht.
      destruct (@slice_parts (len - S n) s) as (a & Ha); [subst len; lia |].
      exists a. rewrite <- Ht. exact Ha.
  - intros (before & ->). apply negb_true_iff. apply Z.eqb_neq.
    rewrite length_append_.
    replace (Z.to_nat _) with (String.length before) by lia.
    rewrite slice_append, index_at_here; [lia |].
    rewrite <- (append_empty_r suffix) at 2. apply prefix_append.
Qed.

(** On a path, it is the test for the final slash that joining uses. *)
Lemma endsWith_slash s : endsWith s "/" = endsWithChar s "/".
Proof.
  destruct (endsWithChar s "/") eqn:E.
  - apply endsWith_is_suffix. exists (strip_slash s). apply strip_slash_ends. exact E.
  - destruct (endsWith s "/") eqn:E'; [| reflexivity].
    apply endsWith_is_suffix in E'. destruct E' as (before & ->).
    exfalso. clear -E. induction before as [| c b IH]; [discriminate E |].
    apply IH. cbn [String.append] in E.
    destruct (b ++ "/")%string eqn:Eb; [destruct b; discriminate Eb | exact E].
Qed.

(** ** The traversal of a specification *)

Lemma extends_refl b : extends b b.
Proof. split; [exists []; symmetry; apply app_nil_r | tauto]. Qed.

Lemma extends_trans b1 b2 b3 : extends b1 b2 -> extends b2 b3 -> extends b1 b3.
Proof.
  intros [[a1 H1] N1] [[a2 H2] N2]. split; [| tauto].
  exists (a1 ++ a2). rewrite H2, H1, app_assoc. reflexivity.
Qed.

Lemma bind_extends {A B} (m : M A) (k : A -> M B) b :
  extends b (snd (m b)) ->
  (forall a b1, extends b1 (snd (k a b1))) ->
  extends b (snd (bind m k b)).
Proof.
  intros Hm Hk. unfold bind. destruct (m b) as [[a | ex] b1]; cbn [snd] in *.
  - exact (extends_trans Hm (Hk a b1)).
  - exact Hm.
Qed.

(** Induction on specifications, through the properties of an object. *)
Fixpoint spec_induction (P : spec -> Prop)
         (on_mount : forall handlers, P (Mount handlers))
         (on_keys : forall props,
             Forall (fun kv => P (as_spec_of (snd kv))) props -> P (Keys props))
         (on_neither : forall v, P (Neither v))
         (s : spec) {struct s} : P s :=
  match s with
  | Mount handlers => on_mount handlers
  | Keys props =>
      on_keys props
        ((fix each (ps : list (string * property))
            : Forall (fun kv => P (as_spec_of (snd kv))) ps :=
            match ps with
            | [] => Forall_nil _
            | kv :: rest =>
                @Forall_cons _ (fun kv => P (as_spec_of (snd kv))) kv rest
                  (match kv as kv0 return P (as_spec_of (snd kv0)) with
                   | (_, Property _ inner _ _) =>
                       spec_induction P on_mount on_keys on_neither inner
                   end)
                  (each rest)
            end) props)
  | Neither v => on_neither v
  end.

Section TraversalProperties.

Variable controllers : string -> option controller.
Variable router_verb : string -> bool.
Variable inspect : value -> string.
Variable _basePath : string.
Variable resume : value -> string -> M unit.

Local Notation "'wire'" :=
  (addSpecification controllers router_verb inspect _basePath resume).
Local Notation "'each_key'" :=
  (process_keys controllers router_verb inspect _basePath resume).
Local Notation "'head_key'" := (head_step controllers router_verb inspect resume).

Lemma addSpecification_Keys props currPath :
  wire (Keys props) currPath
  = (let currPath := if currPath =? "" then _basePath else currPath in
     head_key currPath props ;; each_key currPath props).
Proof.
  cbn [addSpecification]. cbv zeta. unfold head_step.
  set (p := if currPath =? "" then _basePath else currPath).
  f_equal.
  induction props as [| [key prop] rest IH]; [reflexivity |].
  cbn [process_keys]. rewrite <- IH. unfold process_key.
  destruct prop as [v inner vo ro]. reflexivity.
Qed.

Lemma keys_skip_head currPath props b :
  each_key currPath props b = each_key currPath (filter not_head props) b.
Proof.
  revert b. induction props as [| [key prop] rest IH]; intros b; [reflexivity |].
  cbn [filter]. unfold not_head at 1. cbn [fst].
  destruct (key =? "head") eqn:E; cbn [negb].
  - cbn [process_keys]. unfold process_key. rewrite E. unfold bind, ret. apply IH.
  - cbn [process_keys]. unfold bind.
    destruct (process_key _ _ _ _ _ _ _ _ b) as [[u | ex] b1]; [apply IH | reflexivity].
Qed.

Lemma head_then_others props head currPath b :
  lookup props "head" = Some head ->
  truthy (as_value_of head) = true ->
  wire (Keys props) currPath b
  = (let path := if currPath =? "" then _basePath else currPath in
     processVerb controllers router_verb inspect resume "head" path head ;;
     each_key path (filter not_head props)) b.
Proof.
  intros Hl Ht. rewrite addSpecification_Keys. cbv zeta. unfold bind, head_step.
  rewrite Hl, Ht.
  match goal with
  | |- (let (o, b') := ?m in _) = _ => destruct m as [[u | ex] b1]
  end; [| reflexivity].
  apply keys_skip_head.
Qed.

Lemma defineVerbHandler_extends verb path opts b :
  extends b (snd (defineVerbHandler controllers router_verb inspect verb path opts b)).
Proof.
  destruct opts as [act vw bef aft optv].
  cbv beta iota zeta delta
      [defineVerbHandler bind lift push contents spread read_array store_array
       router_call_ throw ret action view before after options].
  repeat (cbv beta iota zeta;
          match goal with
          | |- context [match ?x with Some _ => _ | None => _ end] => destruct x
          | |- context [if ?c then _ else _] => destruct c
          | |- context [match resolveController ?c ?a with _ => _ end] =>
              destruct (resolveController c a)
          | |- context [match invoke ?m ?a with _ => _ end] => destruct (invoke m a)
          | |- context [match ?h with HookArray _ => _ | HookValue _ => _ end] =>
              destruct h
          end);
    cbv beta iota zeta; cbn [snd]; (split; [| cbn [_params]; tauto]);
    cbn [_router];
    first [ exists []; symmetry; apply app_nil_r | eexists; reflexivity ].
Qed.

Lemma addParameter_extends param opts override b :
  extends b (snd (addParameter controllers param opts override b)).
Proof.
  split.
  - destruct (is_cached param b && negb override) eqn:Hk.
    + apply andb_true_iff in Hk. destruct Hk as [Hc Ho].
      apply negb_true_iff in Ho. subst override.
      rewrite (addParameter_known controllers param opts b Hc).
      exists []. symmetry. apply app_nil_r.
    + pose proof (addParameter_settled controllers param opts override b Hk) as Hs.
      destruct (parameter_handler controllers param opts) as [handler | ex].
      * destruct Hs as (b' & -> & Hr & _). cbn [snd]. rewrite Hr. eexists. reflexivity.
      * rewrite Hs. exists []. symmetry. apply app_nil_r.
  - intros Hnd.
    destruct (is_cached param b && negb override) eqn:Hk.
    + apply andb_true_iff in Hk. destruct Hk as [Hc Ho].
      apply negb_true_iff in Ho. subst override.
      rewrite (addParameter_known controllers param opts b Hc). exact Hnd.
    + pose proof (addParameter_settled controllers param opts override b Hk) as Hs.
      destruct (parameter_handler controllers param opts) as [handler | ex].
      * cbn zeta in Hs. destruct Hs as (b' & -> & _ & Hp & _). cbn [snd]. rewrite Hp.
        match goal with
        | |- context [match ?o with Return _ => _ | Throw _ => _ end] =>
            destruct o; [| exact Hnd]
        end.
        destruct (is_cached param b) eqn:Hc; [exact Hnd |].
        apply NoDup_app; [exact Hnd | repeat constructor; intros [] |].
        intros x Hx [<- | []]. exact (not_cached_not_in _ _ Hc Hx).
      * rewrite Hs. exact Hnd.
Qed.

Section Growing.

Hypothesis resume_extends : forall spec path b, extends b (snd (resume spec path b)).

Lemma defineResource_extends path opts b :
  extends b (snd (defineResource controllers resume path opts b)).
Proof.
  unfold defineResource, throw.
  repeat match goal with
         | |- context [if ?c then _ else _] => destruct c
         | |- context [match ?x with Some _ => _ | None => _ end] => destruct x
         end; cbn [snd]; first [apply extends_refl | apply resume_extends].
Qed.

Lemma processVerb_extends verb currPath opts b :
  extends b (snd (processVerb controllers router_verb inspect resume verb currPath opts b)).
Proof.
  unfold processVerb. destruct (verb =? "resource");
    [apply defineResource_extends | apply defineVerbHandler_extends].
Qed.

Lemma router_call_extends c b : extends b (snd (router_call_ c b)).
Proof. split; [eexists; reflexivity | cbn; tauto]. Qed.

Lemma wire_extends spec : forall currPath b,
  extends b (snd (wire spec currPath b)).
Proof.
  induction spec as [handlers | props IH | v] using spec_induction;
    intros currPath b.
  - cbn [addSpecification]. apply router_call_extends.
  - rewrite addSpecification_Keys. cbv zeta.
    set (p := if currPath =? "" then _basePath else currPath). clearbody p.
    apply bind_extends.
    + unfold head_step. destruct (lookup props "head") as [h |];
        [destruct (truthy (as_value_of h)) |];
        first [apply processVerb_extends | apply extends_refl].
    + intros _ b1. clear b. revert b1.
      induction props as [| [key prop] rest IHrest]; intros b1;
        [apply extends_refl |].
      inversion IH as [| ? ? Hprop Hrest]; subst.
      cbn [process_keys]. apply bind_extends; [| intros _ b2; exact (IHrest Hrest b2)].
      unfold process_key.
      destruct (key =? "head"); [apply extends_refl |].
      destruct (key =? "use"); [apply router_call_extends |].
      destruct (starts_with_char "/" key).
      * destruct prop as [pv inner vo ro]. cbn [snd as_spec_of] in Hprop. apply Hprop.
      * destruct (starts_with_char ":" key);
          [apply addParameter_extends | apply processVerb_extends].
  - cbn [addSpecification]. apply extends_refl.
Qed.

Lemma process_keys_extends currPath props : forall b,
  extends b (snd (each_key currPath props b)).
Proof.
  induction props as [| [key prop] rest IH]; intros b; [apply extends_refl |].
  cbn [process_keys]. apply bind_extends; [| intros _ b2; exact (IH b2)].
  unfold process_key.
  destruct (key =? "head"); [apply extends_refl |].
  destruct (key =? "use"); [apply router_call_extends |].
  destruct (starts_with_char "/" key).
  - destruct prop as [pv inner vo ro]. apply wire_extends.
  - destruct (starts_with_char ":" key);
      [apply addParameter_extends | apply processVerb_extends].
Qed.

(** Wiring only ever adds: whatever the specification and however the
    traversal ends, normally or by an error midway, the calls the router
    primitive had received are still there, followed by the new ones, and
    the cache of parameter names holds no name twice. *)
Theorem addSpecification_only_adds spec : forall currPath b,
  extends b (snd (wire spec currPath b)).
Proof. exact (wire_extends spec). Qed.

(** The [head] key is handled first, wherever the object has it: wiring an
    object with a [head] node runs the wiring of that node on the builder
    as it finds it, and only then the other keys, in their order, on the
    builder the [head] node leaves; when the [head] node throws no other
    key is handled.  So every call the router primitive receives for
    another key comes after those it received for [head]. *)
Theorem head_is_processed_first props head currPath b :
  lookup props "head" = Some head ->
  truthy (as_value_of head) = true ->
  let path := if currPath =? "" then _basePath else currPath in
  let wire_head := processVerb controllers router_verb inspect resume "head" path head in
  wire (Keys props) currPath b
  = (wire_head ;; each_key path (filter not_head props)) b
  /\ (forall ex b1, wire_head b = (Throw ex, b1) ->
                    wire (Keys props) currPath b = (Throw ex, b1))
  /\ exists added,
      _router (snd (wire (Keys props) currPath b))
      = _router (snd (wire_head b)) ++ added.
Proof.
  intros Hl Ht path wire_head.
  pose proof (head_then_others props currPath b Hl Ht) as Heq. cbv zeta in Heq.
  fold path in Heq. fold wire_head in Heq.
  split; [exact Heq | split].
  - intros ex b1 Hthrow. rewrite Heq. unfold bind. rewrite Hthrow. reflexivity.
  - rewrite Heq. unfold bind.
    destruct (wire_head b) as [[u | ex] b1]; cbn [snd].
    + exact (proj1 (process_keys_extends path (filter not_head props) b1)).
    + exists []. symmetry. apply app_nil_r.
Qed.

End Growing.

Lemma inner_path_not_empty currPath rest :
  (inner_path currPath (String "/" rest) =? "") = false.
Proof.
  rewrite inner_path_one_slash.
  destruct (strip_slash currPath); reflexivity.
Qed.

Lemma slash_key_dispatch rest (p : property) currPath :
  process_key controllers router_verb inspect resume wire currPath (String "/" rest) p
  = wire (as_spec_of p) (inner_path currPath (String "/" rest)).
Proof.
  unfold process_key. destruct p as [v inner vo ro]. reflexivity.
Qed.

(** Nesting composes: an object under a key under a key is wired as the
    same object under the two keys joined, from any current path. *)
Theorem nested_keys_join rest1 rest2 v vo ro p currPath b :
  wire (Keys [(String "/" rest1,
               Property v (Keys [(String "/" rest2, p)]) vo ro)]) currPath b
  = wire (Keys [(inner_path (String "/" rest1) (String "/" rest2), p)]) currPath b.
Proof.
  assert (Hk : exists t, inner_path (String "/" rest1) (String "/" rest2) = String "/" t).
  { rewrite inner_path_one_slash. destruct rest1; cbn; eexists; reflexivity. }
  destruct Hk as (t & Hk).
  assert (Hpath : forall q, inner_path q (String "/" t)
                            = inner_path (inner_path q (String "/" rest1))
                                         (String "/" rest2)).
  { intros q. rewrite <- Hk. symmetry. apply inner_path_assoc. }
  rewrite Hk. rewrite !addSpecification_Keys.
  cbv zeta. set (q := if currPath =? "" then _basePath else currPath).
  unfold head_step. cbn [lookup String.eqb Ascii.eqb Bool.eqb process_keys].
  rewrite !slash_key_dispatch. cbn [as_spec_of].
  rewrite addSpecification_Keys. cbv zeta. rewrite inner_path_not_empty.
  unfold head_step. cbn [lookup String.eqb Ascii.eqb Bool.eqb process_keys].
  rewrite slash_key_dispatch, Hpath.
  unfold bind, ret.
  match goal with
  | |- context [addSpecification ?c ?r ?i ?bp ?rs ?s ?pp b] =>
      destruct (addSpecification c r i bp rs s pp b) as [[u | ex] b1]
  end; reflexivity.
Qed.

End TraversalProperties.

Lemma addSpecification_only_adds_witness :
  extends message_builder
          (snd (addSpecification message_registry http_verbs (fun _ => "") "/"
                  (fun _ _ => ret tt)
                  (Keys [("get", Property VUndefined (Neither VUndefined) get_node
                                          no_lists);
                         (":id", Property (VFunction "load") (Neither VUndefined)
                                          silent_node no_lists);
                         ("trace", Property VUndefined (Neither VUndefined) silent_node
                                            no_lists)])
                  "" message_builder)).
Proof.
  exact (@addSpecification_only_adds message_registry http_verbs (fun _ => "") "/"
           (fun _ _ => ret tt) (fun _ _ b => extends_refl b) _ "" message_builder).
Defined.

(** ** Mounting routers *)

(** Induction on values, through the elements of an array and the
    properties of an object. *)
Fixpoint value_induction (P : value -> Prop)
         (on_other : forall v, is_container v = false -> P v)
         (on_array : forall items, Forall P items -> P (VArray items))
         (on_object : forall props,
             Forall (fun kv => P (snd kv)) props -> P (VObject props))
         (v : value) {struct v} : P v :=
  match v with
  | VArray items =>
      on_array items
        ((fix each (vs : list value) : Forall P vs :=
            match vs with
            | [] => Forall_nil _
            | x :: rest =>
                @Forall_cons _ P x rest
                  (value_induction on_other on_array on_object x) (each rest)
            end) items)
  | VObject props =>
      on_object props
        ((fix each (ps : list (string * value)) : Forall (fun kv => P (snd kv)) ps :=
            match ps with
            | [] => Forall_nil _
            | kv :: rest =>
                @Forall_cons _ (fun kv => P (snd kv)) kv rest
                  (value_induction on_other on_array on_object (snd kv)) (each rest)
            end) props)
  | VUndefined => on_other VUndefined eq_refl
  | VNull => on_other VNull eq_refl
  | VBool b => on_other (VBool b) eq_refl
  | VNumber n => on_other (VNumber n) eq_refl
  | VString s => on_other (VString s) eq_refl
  | VSymbol d => on_other (VSymbol d) eq_refl
  | VFunction n => on_other (VFunction n) eq_refl
  | VError m => on_other (VError m) eq_refl
  | VBlueprintError k c m d => on_other (VBlueprintError k c m d) eq_refl
  end.

Lemma mount_accepted v b :
  accepted (Mounted v) = true ->
  router_call_ (Mounted v) b
  = (Return tt, {| _router := _router b ++ [Mounted v];
                   _params := _params b; arrays := arrays b |}).
Proof.
  unfold accepted, router_call_, reply. destruct (rejection (Mounted v)); [discriminate |].
  reflexivity.
Qed.

Lemma addRouters_mounts routers : mounts routers.
Proof.
  induction routers as [v Hv | items IH | props IH] using value_induction;
    unfold mounts.
  - intros Ht _ b. destruct v; try discriminate Hv; try discriminate Ht;
      try (exists b; cbn; rewrite app_nil_r; repeat split; fail).
    cbn [no_text] in Ht. cbn [addRouters]. rewrite Ht.
    exists b. cbn. rewrite app_nil_r. repeat split.
  - cbn [addRouters leaves no_text].
    induction items as [| v rest IHrest]; intros Ht Hl b.
    + exists b. cbn. rewrite app_nil_r. repeat split.
    + inversion IH as [| ? ? Hv Hrest]; subst.
      cbn [forallb flat_map] in Ht, Hl.
      apply andb_true_iff in Ht. destruct Ht as [Htv Htr].
      rewrite forallb_app in Hl. apply andb_true_iff in Hl. destruct Hl as [Hlv Hlr].
      assert (Hstep : exists b1,
                 (if isFunction v || isArray v then router_call_ (Mounted v)
                  else addRouters v) b = (Return tt, b1)
                 /\ _router b1
                    = _router b ++ map Mounted (if isFunction v || isArray v
                                                then [v] else leaves v)
                 /\ _params b1 = _params b /\ arrays b1 = arrays b).
      { destruct (isFunction v || isArray v) eqn:Hm.
        - cbn [forallb] in Hlv. rewrite andb_true_r in Hlv.
          rewrite (mount_accepted v b Hlv). eexists. split; [reflexivity |].
          repeat split.
        - cbn [orb] in Htv. exact (Hv Htv Hlv b). }
      destruct Hstep as (b1 & Hrun1 & Hr1 & Hp1 & Ha1).
      destruct (IHrest Hrest Htr Hlr b1) as (b2 & Hrun2 & Hr2 & Hp2 & Ha2).
      exists b2. split; [unfold bind; rewrite Hrun1; exact Hrun2 |].
      cbn [flat_map]. rewrite map_app, app_assoc, <- Hr1, Hr2, Hp2, Hp1, Ha2, Ha1.
      repeat split.
  - cbn [addRouters leaves no_text].
    induction props as [| [key v] rest IHrest]; intros Ht Hl b.
    + exists b. cbn. rewrite app_nil_r. repeat split.
    + inversion IH as [| ? ? Hv Hrest]; subst. cbn [snd] in Hv.
      cbn [forallb flat_map snd] in Ht, Hl.
      apply andb_true_iff in Ht. destruct Ht as [Htv Htr].
      rewrite forallb_app in Hl. apply andb_true_iff in Hl. destruct Hl as [Hlv Hlr].
      assert (Hstep : exists b1,
                 (if isFunction v || isArray v then router_call_ (Mounted v)
                  else addRouters v) b = (Return tt, b1)
                 /\ _router b1
                    = _router b ++ map Mounted (if isFunction v || isArray v
                                                then [v] else leaves v)
                 /\ _params b1 = _params b /\ arrays b1 = arrays b).
      { destruct (isFunction v || isArray v) eqn:Hm.
        - cbn [forallb] in Hlv. rewrite andb_true_r in Hlv.
          rewrite (mount_accepted v b Hlv). eexists. split; [reflexivity |].
          repeat split.
        - cbn [orb] in Htv. exact (Hv Htv Hlv b). }
      destruct Hstep as (b1 & Hrun1 & Hr1 & Hp1 & Ha1).
      destruct (IHrest Hrest Htr Hlr b1) as (b2 & Hrun2 & Hr2 & Hp2 & Ha2).
      exists b2. split; [unfold bind; rewrite Hrun1; exact Hrun2 |].
      cbn [flat_map snd]. rewrite map_app, app_assoc, <- Hr1, Hr2, Hp2, Hp1, Ha2, Ha1.
      repeat split.
Qed.

(** When every leaf of the mapping is something the router primitive takes
    (a function, or an array of functions whose first leaf is a function)
    and neither a string with a character in it nor an error of the errors
    module is descended into, [addRouters] returns; it has mounted every leaf once, in the order of the keys and
    depth first, whatever the names and however deep the leaf, and has
    touched nothing but the router primitive. *)
Theorem addRouters_mounts_every_leaf routers b :
  no_text routers = true ->
  forallb (fun h => accepted (Mounted h)) (leaves routers) = true ->
  exists b',
    addRouters routers b = (Return tt, b')
    /\ getRouter b' = getRouter b ++ map Mounted (leaves routers)
    /\ _params b' = _params b
    /\ arrays b' = arrays b.
Proof. intros Ht Hl. exact (addRouters_mounts routers Ht Hl b). Qed.

Lemma addRouters_mounts_every_leaf_witness :
  exists b',
    addRouters (VObject [("api", VObject [("v1", VFunction "users");
                                          ("v2", VArray [VFunction "auth";
                                                         VFunction "orders"])]);
                         ("version", VNumber 2);
                         ("admin", VFunction "admin")]) new_builder
    = (Return tt, b')
    /\ getRouter b'
       = [Mounted (VFunction "users");
          Mounted (VArray [VFunction "auth"; VFunction "orders"]);
          Mounted (VFunction "admin")]
    /\ _params b' = []
    /\ arrays b' = arrays new_builder.
Proof.
  exact (@addRouters_mounts_every_leaf
           (VObject [("api", VObject [("v1", VFunction "users");
                                      ("v2", VArray [VFunction "auth";
                                                     VFunction "orders"])]);
                     ("version", VNumber 2);
                     ("admin", VFunction "admin")]) new_builder eq_refl eq_refl).
Defined.

(** A leaf the router primitive does not take makes [addRouters] throw what
    the router primitive throws, and a name bound to a string makes it
    throw the engine's error; the leaves before it have been mounted. *)
Example addRouters_rejected_leaf :
  (exists message,
      addRouters (VObject [("users", VFunction "users"); ("orders", VArray [])])
                 new_builder
      = (Throw (Error message),
         {| _router := [Mounted (VFunction "users"); Mounted (VArray [])];
            _params := []; arrays := arrays new_builder |}))
  /\ addRouters (VObject [("users", VFunction "users"); ("name", VString "api")])
                new_builder
     = (Throw (Error "Maximum call stack size exceeded"),
        {| _router := [Mounted (VFunction "users")];
           _params := []; arrays := arrays new_builder |}).
Proof. split; [eexists |]; reflexivity. Qed.

Lemma head_is_processed_first_witness :
  _router (snd (addSpecification message_registry http_verbs (fun _ => "") "/"
                  (fun _ _ => ret tt) (Keys get_then_head) "/messages" new_builder))
  = [Route "head" "/messages" [Given (VFunction "list")];
     Route "get" "/messages" [Given (VFunction "list")]].
Proof.
  rewrite (proj1 (@head_is_processed_first message_registry http_verbs (fun _ => "") "/"
                    (fun _ _ => ret tt) (fun _ _ b => extends_refl b) get_then_head
                    (Property (VObject [("action", VString "Message@getAll")])
                              (Neither VUndefined) head_node no_lists)
                    "/messages" new_builder eq_refl eq_refl)).
  reflexivity.
Defined.

(* ================================================================== *)
(** * The expansion of a resource, from the node to the router *)

(** ** Where the expanded specification holds a definition *)

Section Bindings.

Variable controllerName : string.
Variable opts : resource_options.

Let made (a : action_def) : value :=
  makeAction controllerName (method a) (resource_opts opts).

Lemma binding_written a st :
  all_objects (snd st) = true ->
  binding (processAction controllerName opts a st) a = made a.
Proof.
  destruct st as [spec singleSpec]. cbn [snd]. intros Hobj.
  rewrite processAction_target by exact Hobj. fold (made a).
  unfold binding. destruct (target a) as [v | p | v | part v]; cbn [fst snd get].
  - rewrite lookup_assign_same. reflexivity.
  - rewrite lookup_assign_same. cbn [get lookup]. rewrite String.eqb_refl. reflexivity.
  - rewrite lookup_assign_same. reflexivity.
  - rewrite lookup_assign_same. cbn [get]. rewrite lookup_assign_same. reflexivity.
Qed.

Lemma eqb_false_ne (x y : string) : (x =? y) = false -> x <> y.
Proof. intros H ->. rewrite String.eqb_refl in H. discriminate H. Qed.

Lemma binding_kept a d st :
  keeps a d = true ->
  all_objects (snd st) = true ->
  binding (processAction controllerName opts d st) a = binding st a.
Proof.
  destruct st as [spec singleSpec]. cbn [snd]. intros Hk Hobj.
  rewrite processAction_target by exact Hobj.
  unfold binding, keeps, leaves_key in *.
  destruct (target a) as [v | p | v | part v];
    destruct (target d) as [w | q | w | part' w];
    cbn [fst snd get slot_eqb negb andb] in *; try reflexivity.
  - rewrite andb_true_r in Hk. apply negb_true_iff, eqb_false_ne in Hk.
    rewrite lookup_assign_other by exact Hk. reflexivity.
  - apply negb_true_iff, eqb_false_ne in Hk.
    rewrite lookup_assign_other by exact Hk. reflexivity.
  - rewrite andb_true_r in Hk. apply negb_true_iff, eqb_false_ne in Hk.
    rewrite lookup_assign_other by exact Hk. reflexivity.
  - apply negb_true_iff, eqb_false_ne in Hk.
    rewrite lookup_assign_other by exact Hk. reflexivity.
  - apply negb_true_iff, eqb_false_ne in Hk.
    rewrite lookup_assign_other by exact Hk. reflexivity.
  - apply negb_true_iff, eqb_false_ne in Hk.
    rewrite lookup_assign_other by exact Hk. reflexivity.
  - apply negb_true_iff, eqb_false_ne in Hk.
    rewrite lookup_assign_other by exact Hk. reflexivity.
  - apply negb_true_iff in Hk.
    destruct (String.eqb_spec part' part) as [-> | Hne].
    + cbn [andb] in Hk. apply eqb_false_ne in Hk.
      rewrite lookup_assign_same.
      destruct (lookup singleSpec part) as [x |] eqn:Hl.
      * pose proof (all_objects_lookup _ _ Hobj Hl) as Hx.
        destruct x; try discriminate Hx. cbn [get].
        rewrite lookup_assign_other by exact Hk. reflexivity.
      * cbn [get lookup assign].
        destruct (w =? v) eqn:E; [apply String.eqb_eq in E; contradiction | reflexivity].
    + rewrite lookup_assign_other by exact Hne. reflexivity.
Qed.

Lemma fold_objects defs : forall st,
  all_objects (fst st) = true ->
  all_objects (snd st) = true ->
  all_objects (fst (fold_left (fun st d => processAction controllerName opts d st)
                              defs st)) = true
  /\ all_objects (snd (fold_left (fun st d => processAction controllerName opts d st)
                                 defs st)) = true.
Proof.
  induction defs as [| d rest IH]; intros st H1 H2; [split; assumption |].
  cbn [fold_left].
  destruct (processAction_objects controllerName opts d st H1 H2) as [H1' H2'].
  exact (IH _ H1' H2').
Qed.

Lemma fold_keeps a later : forall st,
  all_objects (fst st) = true ->
  all_objects (snd st) = true ->
  forallb (keeps a) later = true ->
  binding (fold_left (fun st d => processAction controllerName opts d st) later st) a
  = binding st a.
Proof.
  induction later as [| d rest IH]; intros st H1 H2 Hk; [reflexivity |].
  cbn [fold_left forallb] in *. apply andb_true_iff in Hk. destruct Hk as [Hd Hrest].
  destruct (processAction_objects controllerName opts d st H1 H2) as [H1' H2'].
  rewrite (IH _ H1' H2' Hrest). exact (binding_kept a d st Hd H2).
Qed.

End Bindings.



(** A later definition is written over an earlier one, and the key of the
    nested spec over a literal path spelled like it: the definition at
    [/:personId] of a controller whose [resourceId] is [personId] is not
    in the expanded specification. *)
Example binding_written_over :
  resource_spec "Person" "personId" no_lists
                [("get", Single {| verb := "get"; path := Some "/:personId";
                                   method := "get" |})]
  = VObject [("/:personId", VObject [])]
  /\ get (resource_spec "Person" "personId" no_lists two_posts) "post"
     = VObject [("action", VString "Person@upsert")].
Proof. split; reflexivity. Qed.

(** ** From the expanded specification to the router *)

Lemma lookup_read props k :
  lookup (map (fun kv => (fst kv, read_property (snd kv))) props) k
  = option_map read_property (lookup props k).
Proof.
  induction props as [| [k' v] rest IH]; cbn [map lookup fst snd option_map];
    [reflexivity |].
  destruct (k' =? k); [reflexivity | exact IH].
Qed.

Lemma read_object props :
  read (VObject props)
  = Keys (map (fun kv => (fst kv, read_property (snd kv))) props).
Proof. reflexivity. Qed.

Lemma slash_key key :
  starts_with_char "/" key = true -> exists rest, key = String "/" rest.
Proof.
  destruct key as [| c rest]; [discriminate |]. cbn. intros H.
  apply Ascii.eqb_eq in H. subst c. exists rest. reflexivity.
Qed.

Section Registering.

Variable controllers : string -> option controller.
Variable router_verb : string -> bool.
Variable inspect : value -> string.
Variable _basePath : string.
Variable resume : value -> string -> M unit.

Local Notation "'wire'" :=
  (addSpecification controllers router_verb inspect _basePath resume).
Local Notation "'each_key'" :=
  (process_keys controllers router_verb inspect _basePath resume).
Local Notation "'keyed'" :=
  (fun kv : string * value =>
     if starts_with_char "/" (fst kv) then verbs_and_paths (snd kv)
     else is_verb_key (fst kv)).

Lemma keys_register path : forall ps,
  Forall (fun kv => wiring controllers router_verb inspect _basePath resume (snd kv)) ps ->
  forallb keyed ps = true ->
  path <> "" ->
  (forall c, In c (flat_map (key_calls path) ps) ->
             registers controllers router_verb inspect resume c) ->
  forall b,
  exists b',
    each_key path (map (fun kv => (fst kv, read_property (snd kv))) ps) b
    = (Return tt, b')
    /\ _router b' = _router b ++ flat_map (route_for controllers)
                                          (flat_map (key_calls path) ps)
    /\ _params b' = _params b
    /\ (forall a, arrays b' a = arrays b a).
Proof.
  induction ps as [| [key v] rest IH]; intros HF Hk Hpath Hreg b.
  - exists b. cbn. rewrite app_nil_r. split; [reflexivity |].
    split; [reflexivity | split; reflexivity].
  - inversion HF as [| ? ? Hv Hrest]; subst. cbn [snd] in Hv.
    cbn [forallb fst snd] in Hk. apply andb_true_iff in Hk. destruct Hk as [Hkv Hkr].
    cbn [flat_map] in Hreg.
    assert (Hstep : exists b1,
               process_key controllers router_verb inspect resume wire path key
                           (read_property v) b = (Return tt, b1)
               /\ _router b1 = _router b ++ flat_map (route_for controllers)
                                                     (key_calls path (key, v))
               /\ _params b1 = _params b
               /\ (forall a, arrays b1 a = arrays b a)).
    { unfold process_key. destruct (key =? "head") eqn:Eh.
      - exists b. unfold key_calls. cbn [fst]. rewrite Eh. cbn [orb flat_map].
        rewrite app_nil_r. split; [reflexivity |].
        split; [reflexivity | split; reflexivity].
      - destruct (key =? "use") eqn:Eu.
        { apply String.eqb_eq in Eu. subst key. cbn in Hkv. discriminate Hkv. }
        destruct (starts_with_char "/" key) eqn:Es.
        + unfold read_property.
          destruct (slash_key key Es) as (tl & ->).
          assert (Hinner : inner_path path (String "/" tl) <> "").
          { intros E. pose proof (inner_path_not_empty path tl) as Hn.
            rewrite E in Hn. discriminate Hn. }
          rewrite key_calls_path by exact Es.
          apply (Hv Hkv (inner_path path (String "/" tl)) b Hinner).
          intros c Hc. apply Hreg. apply in_or_app. left.
          rewrite key_calls_path by exact Es. exact Hc.
        + assert (Hcolon : starts_with_char ":" key = false).
          { unfold is_verb_key in Hkv. apply andb_true_iff in Hkv.
            destruct Hkv as [_ H]. apply negb_true_iff in H. exact H. }
          rewrite Hcolon.
          assert (Hne : key <> "head") by (apply eqb_false_ne; exact Eh).
          rewrite key_calls_verb by assumption.
          destruct (Hreg (key, path, v)) with (b := b) as (b1 & Hrun & Hr & Hp & Ha).
          { apply in_or_app. left. rewrite key_calls_verb by assumption.
            left. reflexivity. }
          cbn [fst snd] in Hrun. exists b1. split; [exact Hrun |].
          cbn [flat_map]. rewrite app_nil_r. split; [exact Hr | split; assumption]. }
    destruct Hstep as (b1 & Hrun1 & Hr1 & Hp1 & Ha1).
    destruct (IH Hrest Hkr Hpath) with (b := b1) as (b2 & Hrun2 & Hr2 & Hp2 & Ha2).
    { intros c Hc. apply Hreg. apply in_or_app. right. exact Hc. }
    exists b2. cbn [map process_keys fst snd]. unfold bind. rewrite Hrun1.
    split; [exact Hrun2 |]. cbn [flat_map]. rewrite flat_map_app, app_assoc, <- Hr1.
    split; [exact Hr2 | split; [congruence |]].
    intros a. rewrite Ha2. apply Ha1.
Qed.

Lemma wire_calls v : wiring controllers router_verb inspect _basePath resume v.
Proof.
  induction v as [v Hv | items IH | props IH] using value_induction; unfold wiring.
  - intros Hk. destruct v; try discriminate Hk; discriminate Hv.
  - intros Hk. discriminate Hk.
  - intros Hk path b Hpath Hreg.
    rewrite read_object, addSpecification_Keys. cbv zeta.
    destruct (String.eqb_spec path "") as [E | _]; [contradiction |].
    rewrite verb_calls_object in *.
    assert (Hhead : exists b1,
               head_step controllers router_verb inspect resume path
                         (map (fun kv => (fst kv, read_property (snd kv))) props) b
               = (Return tt, b1)
               /\ _router b1 = _router b ++ flat_map (route_for controllers)
                                                     (head_calls props path)
               /\ _params b1 = _params b
               /\ (forall a, arrays b1 a = arrays b a)).
    { unfold head_step. rewrite lookup_read.
      assert (Hin : forall c, In c (head_calls props path) ->
                              registers controllers router_verb inspect resume c).
      { intros c Hc. apply Hreg. apply in_or_app. left. exact Hc. }
      unfold head_calls in *. cbn [get] in *.
      destruct (lookup props "head") as [h |]; cbn [option_map].
      - unfold read_property at 1. cbn [as_value_of].
        destruct (truthy h).
        + destruct (Hin ("head", path, h)) with (b := b) as (b1 & Hrun & Hr & Hp & Ha);
            [left; reflexivity |].
          cbn [fst snd] in Hrun. exists b1. split; [exact Hrun |].
          cbn [flat_map]. rewrite app_nil_r. split; [exact Hr | split; assumption].
        + exists b. cbn. rewrite app_nil_r. split; [reflexivity |].
          split; [reflexivity | split; reflexivity].
      - cbn [truthy]. exists b. cbn. rewrite app_nil_r. split; [reflexivity |].
        split; [reflexivity | split; reflexivity]. }
    destruct Hhead as (b1 & Hrun1 & Hr1 & Hp1 & Ha1).
    destruct (@keys_register path props IH Hk Hpath) with (b := b1)
      as (b2 & Hrun2 & Hr2 & Hp2 & Ha2).
    { intros c Hc. apply Hreg. apply in_or_app. right. exact Hc. }
    exists b2. unfold bind. rewrite Hrun1. split; [exact Hrun2 |].
    rewrite flat_map_app, app_assoc, <- Hr1.
    split; [exact Hr2 | split; [congruence |]].
    intros a. rewrite Ha2. apply Ha1.
Qed.

(** A definition that can be wired is registered wherever its object is
    found. *)
Lemma made_registers controllerName options a p :
  wires controllers router_verb controllerName options a ->
  registers controllers router_verb inspect resume
            (verb a, p, makeAction controllerName (method a) options)
  /\ length (route_for controllers
                       (verb a, p, makeAction controllerName (method a) options)) = 1%nat.
Proof.
  intros (Hv & Hres & Hact). destruct (Hact p) as (r & Hr & Hw & Hacc). cbv zeta in *.
  set (node := verb_view (makeAction controllerName (method a) options)) in *.
  assert (Hroute : route_for controllers
                             (verb a, p, makeAction controllerName (method a) options)
                   = [Route (toLowerCase (verb a)) p
                            (validation r ++ sanitization r ++ execution r node)]).
  { unfold route_for. fold node. rewrite Hr. reflexivity. }
  split; [| rewrite Hroute; reflexivity].
  intros b. cbn [fst snd]. unfold processVerb. rewrite Hres.
  unfold read_property. cbn [as_verb_of]. fold node. rewrite Hroute.
  assert (Hd : is_undefined (action node) && is_undefined (view node) = false).
  { unfold node, verb_view, makeAction. cbn [action].
    destruct (truthy options); reflexivity. }
  assert (Hs : shares_array node = false) by reflexivity.
  assert (Hbefore : hooks_before node b = []) by reflexivity.
  assert (Hafter : hooks_after node b = []).
  { unfold hooks_after, node, verb_view, makeAction. cbn [after].
    destruct (truthy options); reflexivity. }
  destruct (@pipeline_order controllers router_verb inspect (verb a) p node r b
              Hv Hd Hr Hw Hs) as (b' & Hrun & Hrt & Hp & Harr).
  cbv zeta in Hrun, Hrt. rewrite Hbefore, Hafter in Hrun, Hrt.
  cbn [app] in Hrun, Hrt. rewrite app_nil_r in Hrun, Hrt.
  assert (Hlen : (0 <? length (validation r ++ sanitization r ++ execution r node))%nat
                 = true).
  { apply Nat.ltb_lt. rewrite !length_app.
    assert (Hex : (0 < length (execution r node))%nat).
    { unfold action_result in Hr.
      destruct (truthy (action node)) eqn:Ta.
      - destruct (resolveController controllers (action node)); [| discriminate Hr].
        destruct (invoke _ _); [| discriminate Hr].
        inversion Hr; subst r. cbn [execution].
        destruct (is_middleware _); cbn; lia.
      - unfold node, verb_view, makeAction in Ta. cbn [action] in Ta.
        destruct (truthy options); cbn in Ta;
          destruct controllerName; discriminate Ta. }
    lia. }
  rewrite Hlen in Hrun, Hrt.
  assert (Hreply : reply (Route (toLowerCase (verb a)) p
                                (validation r ++ sanitization r ++ execution r node))
                   = Return tt).
  { unfold reply. unfold accepted in Hacc.
    destruct (rejection _); [discriminate Hacc | reflexivity]. }
  rewrite Hreply in Hrun.
  exists b'. split; [exact Hrun | split; [exact Hrt | split; [exact Hp |]]].
  intros a0. rewrite Harr. reflexivity.
Qed.

End Registering.

(** ** The calls of an expanded specification *)

Lemma keyed_assign props k v :
  verbs_and_paths (VObject props) = true ->
  (if starts_with_char "/" k then verbs_and_paths v else is_verb_key k) = true ->
  verbs_and_paths (VObject (assign props k v)) = true.
Proof.
  cbn [verbs_and_paths]. intros H Hv.
  induction props as [| [k' v'] rest IH]; cbn [assign forallb fst snd].
  - rewrite Hv. reflexivity.
  - cbn [forallb fst snd] in H. apply andb_true_iff in H. destruct H as [H1 H2].
    destruct (k' =? k); cbn [forallb fst snd].
    + rewrite Hv. exact H2.
    + rewrite H1. exact (IH H2).
Qed.

Lemma keyed_lookup props k v :
  verbs_and_paths (VObject props) = true ->
  lookup props k = Some v ->
  starts_with_char "/" k = true ->
  verbs_and_paths v = true.
Proof.
  cbn [verbs_and_paths].
  induction props as [| [k' v'] rest IH]; cbn [lookup forallb fst snd];
    [discriminate |].
  intros H Hl Hs. apply andb_true_iff in H. destruct H as [H1 H2].
  destruct (String.eqb_spec k' k) as [-> | Hne].
  - inversion Hl; subst. rewrite Hs in H1. exact H1.
  - exact (IH H2 Hl Hs).
Qed.

Lemma head_calls_assign props k v p c :
  In c (head_calls (assign props k v) p) ->
  In c (head_calls props p) \/ (k = "head" /\ c = ("head", p, v)).
Proof.
  unfold head_calls. cbn [get]. destruct (String.eqb_spec k "head") as [-> | Hne].
  - rewrite lookup_assign_same. destruct (truthy v); [| intros []].
    intros [<- | []]. right. split; reflexivity.
  - rewrite lookup_assign_other by exact Hne. intros H. left. exact H.
Qed.

Lemma key_calls_assign props k v p c :
  In c (flat_map (key_calls p) (assign props k v)) ->
  In c (flat_map (key_calls p) props) \/ In c (key_calls p (k, v)).
Proof.
  induction props as [| [k' v'] rest IH]; cbn [assign flat_map].
  - rewrite app_nil_r. intros H. right. exact H.
  - destruct (k' =? k); cbn [flat_map]; intros H; apply in_app_or in H;
      destruct H as [H | H].
    + right. exact H.
    + left. apply in_or_app. right. exact H.
    + left. apply in_or_app. left. exact H.
    + destruct (IH H) as [H' | H'];
        [left; apply in_or_app; right; exact H' | right; exact H'].
Qed.

Lemma calls_assign_in props k v p c :
  In c (verb_calls (VObject (assign props k v)) p) ->
  In c (verb_calls (VObject props) p)
  \/ In c (key_calls p (k, v))
  \/ (k = "head" /\ c = ("head", p, v)).
Proof.
  rewrite !verb_calls_object. intros H. apply in_app_or in H. destruct H as [H | H].
  - destruct (head_calls_assign _ _ _ _ _ H) as [H' | H'];
      [left; apply in_or_app; left; exact H' | right; right; exact H'].
  - destruct (key_calls_assign _ _ _ _ _ H) as [H' | H'];
      [left; apply in_or_app; right; exact H' | right; left; exact H'].
Qed.

Lemma calls_of_part props k old p c :
  lookup props k = Some old ->
  starts_with_char "/" k = true ->
  In c (verb_calls old (inner_path p k)) ->
  In c (verb_calls (VObject props) p).
Proof.
  intros Hl Hs Hc. rewrite verb_calls_object. apply in_or_app. right.
  induction props as [| [k' v'] rest IH]; [discriminate Hl |].
  cbn [lookup] in Hl. cbn [flat_map]. apply in_or_app.
  destruct (String.eqb_spec k' k) as [-> | Hne].
  - inversion Hl; subst. left. rewrite key_calls_path by exact Hs. exact Hc.
  - right. exact (IH Hl).
Qed.

Lemma verb_call_of_key k v p c :
  is_verb_key k = true ->
  In c (key_calls p (k, v)) \/ (k = "head" /\ c = ("head", p, v)) ->
  c = (k, p, v).
Proof.
  intros Hk [H | [-> ->]]; [| reflexivity].
  destruct (String.eqb_spec k "head") as [-> | Hne].
  - cbn in H. destruct H.
  - rewrite key_calls_verb in H by assumption. destruct H as [<- | []]. reflexivity.
Qed.

(** The calls of a fresh key that begins with a slash come after those the
    object had. *)
Lemma calls_assign_fresh_path_list props k v currPath :
  starts_with_char "/" k = true ->
  lookup props k = None ->
  verb_calls (VObject (assign props k v)) currPath
  = verb_calls (VObject props) currPath ++ verb_calls v (inner_path currPath k).
Proof.
  intros Hk Hfresh. rewrite !verb_calls_object.
  rewrite assign_fresh by exact Hfresh. rewrite flat_map_app. cbn [flat_map].
  rewrite app_nil_r, key_calls_path by exact Hk. rewrite <- app_assoc. f_equal.
  unfold head_calls. cbn [get]. rewrite lookup_app.
  destruct (lookup props "head") as [h |]; [reflexivity |].
  cbn [lookup]. destruct (String.eqb_spec k "head") as [-> | _]; [discriminate Hk |].
  reflexivity.
Qed.

Lemma append_assoc' (a b c : string) : ((a ++ b) ++ c = a ++ (b ++ c))%string.
Proof. induction a as [| x a IH]; cbn; [reflexivity | rewrite IH; reflexivity]. Qed.

Lemma prefix_inner_path p k q :
  String.prefix (inner_path p k) q = true -> String.prefix p q = true.
Proof.
  intros H. apply prefix_split in H. destruct H as (s & ->).
  unfold inner_path. rewrite append_assoc'. apply prefix_append.
Qed.

Lemma prefix_refl p : String.prefix p p = true.
Proof.
  induction p as [| c p IH]; cbn; [reflexivity |].
  destruct (Ascii.ascii_dec c c) as [_ | Hne]; [exact IH | contradiction].
Qed.

(** Every call of a traversal is made at the path it started from or
    below it. *)
Lemma verb_calls_under v : forall p c,
  In c (verb_calls v p) -> String.prefix p (snd (fst c)) = true.
Proof.
  induction v as [v Hv | items IH | props IH] using value_induction; intros p c Hc.
  - destruct v; try discriminate Hv; destruct Hc.
  - destruct Hc.
  - rewrite verb_calls_object in Hc. apply in_app_or in Hc. destruct Hc as [Hc | Hc].
    + unfold head_calls in Hc. destruct (truthy _); [| destruct Hc].
      destruct Hc as [<- | []]. apply prefix_refl.
    + apply in_flat_map in Hc. destruct Hc as ([k x] & Hin & Hc).
      rewrite Forall_forall in IH. specialize (IH (k, x) Hin). cbn [snd] in IH.
      unfold key_calls in Hc. cbn [fst snd] in Hc.
      destruct ((k =? "head") || (k =? "use")); [destruct Hc |].
      destruct (starts_with_char "/" k).
      * apply (prefix_inner_path p k). exact (IH _ _ Hc).
      * destruct (starts_with_char ":" k); [destruct Hc |].
        destruct Hc as [<- | []]. apply prefix_refl.
Qed.

Section Sourcing.

Variable controllerName : string.
Variable resourceId : string.
Variable opts : resource_options.

Let made (a : action_def) : value :=
  makeAction controllerName (method a) (resource_opts opts).

Let from (seen : list action_def) (v : value) : Prop :=
  sourced controllerName opts seen v.

Lemma sourced_more seen a v : from seen v -> from (seen ++ [a]) v.
Proof.
  intros H p c Hc. destruct (H p c Hc) as (a' & Hin & Hv & Hm).
  exists a'. split; [apply in_or_app; left; exact Hin | split; assumption].
Qed.

Lemma sourced_last seen a (k p : string) c :
  k = verb a -> c = (k, p, made a) ->
  exists a', In a' (seen ++ [a]) /\ fst (fst c) = verb a' /\ snd c = made a'.
Proof.
  intros -> ->. exists a. split; [apply in_or_app; right; left; reflexivity |].
  split; reflexivity.
Qed.

Lemma routable_verb a : routable resourceId a = true -> is_verb_key (verb a) = true.
Proof.
  unfold routable. intros H. apply andb_true_iff in H. destruct H as [H _].
  apply andb_true_iff in H. tauto.
Qed.

Lemma verb_key_not_slash k : is_verb_key k = true -> starts_with_char "/" k = false.
Proof.
  intros H. destruct (starts_with_char "/" k) eqn:E; [| reflexivity].
  exfalso. exact (verb_key_no_slash _ H E).
Qed.

Lemma slash_not_head k : starts_with_char "/" k = true -> k = "head" -> False.
Proof. intros H ->. discriminate H. Qed.

Lemma wired_nil : wired controllerName opts [] ([], []).
Proof.
  unfold wired. cbn [fst snd]. split; [reflexivity | split; [reflexivity |]].
  split; [| split; [| reflexivity]]; intros p c Hc; destruct Hc.
Qed.

Lemma wired_step seen a st :
  routable resourceId a = true ->
  wired controllerName opts seen st ->
  wired controllerName opts (seen ++ [a]) (processAction controllerName opts a st).
Proof.
  intros Ha (K1 & K2 & S1 & S2 & Hobj).
  destruct st as [spec singleSpec]. cbn [fst snd] in *.
  rewrite processAction_target by exact Hobj. fold (made a).
  pose proof (routable_slot resourceId a Ha) as Hok.
  pose proof (target_verb a) as Htv.
  pose proof (routable_verb a Ha) as Hverb.
  pose proof (verb_key_not_slash _ Hverb) as Hns.
  fold (from seen (VObject spec)) in S1. fold (from seen (VObject singleSpec)) in S2.
  unfold wired.
  destruct (target a) as [v | p0 | v | part v]; cbn [slot_ok] in Hok; cbn [fst snd].
  - subst v. split; [| split; [exact K2 | split; [| split; [| exact Hobj]]]].
    + apply keyed_assign; [exact K1 | rewrite Hns; exact Hverb].
    + intros p c Hc. apply calls_assign_in in Hc. destruct Hc as [Hc | Hc].
      * exact (sourced_more a S1 p c Hc).
      * apply (@sourced_last seen a (verb a) p c eq_refl).
        exact (verb_call_of_key Hverb Hc).
    + exact (sourced_more a S2).
  - apply andb_true_iff in Hok. destruct Hok as [Hslash _].
    split; [| split; [exact K2 | split; [| split; [| exact Hobj]]]].
    + apply keyed_assign; [exact K1 |]. rewrite Hslash.
      cbn [verbs_and_paths forallb fst snd]. rewrite Hns, Hverb. reflexivity.
    + intros p c Hc. apply calls_assign_in in Hc. destruct Hc as [Hc | [Hc | [E _]]].
      * exact (sourced_more a S1 p c Hc).
      * rewrite key_calls_path in Hc by exact Hslash.
        change [(verb a, made a)] with (assign [] (verb a) (made a)) in Hc.
        apply calls_assign_in in Hc. destruct Hc as [Hc | Hc]; [destruct Hc |].
        apply (@sourced_last seen a (verb a) (inner_path p p0) c eq_refl).
        exact (verb_call_of_key Hverb Hc).
      * destruct (slash_not_head Hslash E).
    + exact (sourced_more a S2).
  - subst v. split; [exact K1 | split; [| split; [| split]]].
    + apply keyed_assign; [exact K2 | rewrite Hns; exact Hverb].
    + exact (sourced_more a S1).
    + intros p c Hc. apply calls_assign_in in Hc. destruct Hc as [Hc | Hc].
      * exact (sourced_more a S2 p c Hc).
      * apply (@sourced_last seen a (verb a) p c eq_refl).
        exact (verb_call_of_key Hverb Hc).
    + apply all_objects_assign; [exact Hobj | reflexivity].
  - subst v. apply andb_true_iff in Hok. destruct Hok as [Hslash _].
    set (o := match lookup singleSpec part with
              | Some (VObject o) => o
              | _ => []
              end).
    assert (Ko : verbs_and_paths (VObject o) = true).
    { unfold o. destruct (lookup singleSpec part) as [[] |] eqn:Hl; try reflexivity.
      exact (@keyed_lookup _ _ _ K2 Hl Hslash). }
    assert (So : forall p c, In c (verb_calls (VObject o) (inner_path p part)) ->
                             In c (verb_calls (VObject singleSpec) p)).
    { intros p c Hc. unfold o in Hc.
      destruct (lookup singleSpec part) as [[] |] eqn:Hl; try (destruct Hc; fail).
      exact (@calls_of_part _ _ _ _ _ Hl Hslash Hc). }
    split; [exact K1 | split; [| split; [| split]]].
    + apply keyed_assign; [exact K2 |]. rewrite Hslash.
      apply keyed_assign; [exact Ko | rewrite Hns; exact Hverb].
    + exact (sourced_more a S1).
    + intros p c Hc. apply calls_assign_in in Hc. destruct Hc as [Hc | [Hc | [E _]]].
      * exact (sourced_more a S2 p c Hc).
      * rewrite key_calls_path in Hc by exact Hslash.
        apply calls_assign_in in Hc. destruct Hc as [Hc | Hc].
        -- exact (sourced_more a S2 p c (So p c Hc)).
        -- apply (@sourced_last seen a (verb a) (inner_path p part) c eq_refl).
           exact (verb_call_of_key Hverb Hc).
      * destruct (slash_not_head Hslash E).
    + apply all_objects_assign; [exact Hobj | reflexivity].
Qed.

Lemma wired_fold defs : forall seen st,
  Forall (fun a => routable resourceId a = true) defs ->
  wired controllerName opts seen st ->
  wired controllerName opts (seen ++ defs)
        (fold_left (fun st a => processAction controllerName opts a st) defs st).
Proof.
  induction defs as [| a rest IH]; intros seen st Hall Hw.
  - rewrite app_nil_r. exact Hw.
  - inversion Hall as [| ? ? Ha Hrest]; subst. cbn [fold_left].
    replace (seen ++ a :: rest) with ((seen ++ [a]) ++ rest)
      by (rewrite <- app_assoc; reflexivity).
    apply IH; [exact Hrest |]. exact (wired_step a Ha Hw).
Qed.

End Sourcing.

(** ** One registration per pair *)

Lemma in_literal_paths defs a p :
  In a defs -> target a = AtLiteral p -> In p (literal_paths defs).
Proof.
  induction defs as [| d rest IH]; intros Hin Ht; [destruct Hin |].
  cbn [literal_paths]. destruct Hin as [-> | Hin].
  - unfold literal_path. rewrite Ht. left. reflexivity.
  - destruct (literal_path d); [right |]; exact (IH Hin Ht).
Qed.

Lemma no_duplicates_not_in x l :
  existsb (String.eqb x) l = false -> ~ In x l.
Proof.
  intros H Hin.
  assert (Hex : existsb (String.eqb x) l = true).
  { apply existsb_exists. exists x. split; [exact Hin | apply String.eqb_refl]. }
  congruence.
Qed.

Lemma literal_path_target a p : literal_path a = Some p -> target a = AtLiteral p.
Proof.
  unfold literal_path. destruct (target a); intros H; inversion H; reflexivity.
Qed.

Lemma targets_NoDup defs :
  distinct (map target (filter (fun a => negb (is_literal a)) defs)) = true ->
  no_duplicates (literal_paths defs) = true ->
  NoDup (map target defs).
Proof.
  induction defs as [| a rest IH]; intros Hs Hp; [constructor |].
  cbn [map filter literal_paths] in *. unfold is_literal at 1 in Hs.
  destruct (literal_path a) as [p |] eqn:Hlp; cbn [present negb] in Hs.
  - cbn [no_duplicates] in Hp. apply andb_true_iff in Hp. destruct Hp as [Hnew Hp].
    apply negb_true_iff in Hnew. constructor; [| exact (IH Hs Hp)].
    intros Hin. apply in_map_iff in Hin. destruct Hin as (d & Hd & Hin).
    rewrite (literal_path_target a Hlp) in Hd.
    exact (no_duplicates_not_in _ _ Hnew (in_literal_paths _ _ Hin Hd)).
  - cbn [map distinct] in Hs. apply andb_true_iff in Hs. destruct Hs as [Hnew Hs].
    apply negb_true_iff in Hnew. constructor; [| exact (IH Hs Hp)].
    intros Hin. apply in_map_iff in Hin. destruct Hin as (d & Hd & Hin).
    assert (Hex : existsb (slot_eqb (target a))
                          (map target (filter (fun a => negb (is_literal a)) rest))
                  = true).
    { apply existsb_exists. exists (target d). split; [| rewrite Hd; apply slot_eqb_refl].
      apply in_map. apply filter_In. split; [exact Hin |].
      unfold is_literal, literal_path in *. rewrite Hd.
      destruct (target a); try reflexivity. discriminate Hlp. }
    congruence.
Qed.

Section Routes.

Variable controllers : string -> option controller.

Lemma route_for_at c r :
  In r (route_for controllers c) ->
  exists pipeline, r = Route (toLowerCase (fst (fst c))) (snd (fst c)) pipeline.
Proof.
  destruct c as [[v p] o]. unfold route_for. cbn [fst snd].
  destruct (action_result controllers p (verb_view o)); [| intros []].
  intros [<- | []]. eexists. reflexivity.
Qed.

Lemma routes_length calls :
  (forall c, In c calls -> length (route_for controllers c) = 1%nat) ->
  length (flat_map (route_for controllers) calls) = length calls.
Proof.
  induction calls as [| c rest IH]; intros H; [reflexivity |].
  cbn [flat_map]. rewrite length_app, (H c (or_introl eq_refl)).
  cbn [length]. rewrite IH; [reflexivity |]. intros c' Hc'. apply H. right. exact Hc'.
Qed.

Lemma routes_under root v path :
  String.prefix root path = true ->
  Forall (fun c => exists verb p pipeline,
              c = Route verb p pipeline /\ String.prefix root p = true)
         (flat_map (route_for controllers) (verb_calls v path)).
Proof.
  intros Hroot. apply Forall_forall. intros r Hr. apply in_flat_map in Hr.
  destruct Hr as (c & Hc & Hr). destruct (route_for_at c r Hr) as (pipeline & ->).
  eexists _, _, _. split; [reflexivity |].
  pose proof (verb_calls_under v path c Hc) as Hu.
  apply prefix_split in Hroot. destruct Hroot as (t & ->).
  apply prefix_split in Hu. destruct Hu as (u & ->).
  rewrite append_assoc'. apply prefix_append.
Qed.

End Routes.




(** The five usual actions, a count on the collection and two actions on
    the friends of a person are registered as follows. *)
Example people_routes :
  _router (snd (defineResource people_registry
                               (resume_at people_registry http_verbs (fun _ => "") "/" 1)
                               "/people" no_lists new_builder))
  = [Route "post" "/people" [Given (VFunction "create")];
     Route "get" "/people" [Given (VFunction "getAll")];
     Route "get" "/people/count" [Given (VFunction "count")];
     Route "get" "/people/:personId" [Given (VFunction "get")];
     Route "put" "/people/:personId" [Given (VFunction "update")];
     Route "delete" "/people/:personId" [Given (VFunction "delete")];
     Route "get" "/people/:personId/friends" [Given (VFunction "friends")];
     Route "post" "/people/:personId/friends" [Given (VFunction "befriend")]].
Proof. vm_compute. reflexivity. Qed.

(** Two definitions on one literal collective path, under two verbs: the
    object at the path is made anew for the second (line 342), and the
    router primitive receives the registration of the second only.  Under
    a single-resource sub-path the object is kept (line 334) and both are
    registered. *)
Example literal_path_made_anew :
  length (pairs tally_actions (allowed_actions tally_actions
            {| controller_name := Some "Tally"; allow := None; deny := None;
               resource_opts := VUndefined |})) = 2%nat
  /\ _router (snd (defineResource tally_registry
                                  (resume_at tally_registry http_verbs (fun _ => "") "/" 1)
                                  "/tallies"
                                  {| controller_name := Some "Tally"; allow := None;
                                     deny := None; resource_opts := VUndefined |}
                                  new_builder))
     = [Route "post" "/tallies/count" [Given (VFunction "recount")]].
Proof. split; vm_compute; reflexivity. Qed.
